(** * copy-webpack-plugin: a shallow embedding of the copy stage

    Two source files are embedded here.

    - [Index]: the plugin entry point (the factory exported by the module,
      [apply] with its emit and after-emit handlers, [writeFileToAssets],
      [writeDirectoryToAssets], [shouldIgnore], [toLooksLikeDirectory]).
    - [PostProcess]: [postProcessPattern], the per-file content pipeline and
      write decision (stat, read, transform with the on-disk cache, template
      interpolation, path transform, write history, asset table).

    Promise chains become functions in a state-and-rejection monad: the
    state holds every object the JavaScript code mutates (asset table,
    write history, dependency lists, error list, the cache store), and a
    rejected promise is a [Rejected] result that leaves the mutations made
    so far in place.  Third-party collaborators (fs, glob, node-dir,
    minimatch, cacache, loader-utils, ...) are fields of a world record. *)

From Stdlib Require Import ZArith List String Ascii Bool Lia.
From stdpp Require Import base option list strings gmap.

Local Open Scope string_scope.
Local Open Scope Z_scope.
Local Open Scope list_scope.

(** ** JavaScript strings *)

Module Js.

(** A string is truthy exactly when it is not empty. *)
Definition truthy (s : string) : bool :=
  match s with
  | EmptyString => false
  | String _ _ => true
  end.

(** [s[0]] / [_.first(s)]: the first character, [undefined] on the empty string. *)
Definition first (s : string) : option ascii :=
  match s with
  | EmptyString => None
  | String c _ => Some c
  end.

(** [_.last(s)]: the last character, [undefined] on the empty string. *)
Fixpoint last (s : string) : option ascii :=
  match s with
  | EmptyString => None
  | String c EmptyString => Some c
  | String _ s' => last s'
  end.

(** [s.slice(1)]. *)
Definition slice1 (s : string) : string :=
  match s with
  | EmptyString => EmptyString
  | String _ s' => s'
  end.

(** [a || b] on strings. *)
Definition or (a b : string) : string := if truthy a then a else b.

(** [s.split(c)]: always at least one part. *)
Fixpoint split (c : ascii) (s : string) : list string :=
  match s with
  | EmptyString => [EmptyString]
  | String a s' =>
      if Ascii.eqb a c then EmptyString :: split c s'
      else match split c s' with
           | [] => [String a EmptyString]
           | h :: t => String a h :: t
           end
  end.

(** [parts.join(sep)]. *)
Definition join (sep : string) (parts : list string) : string :=
  String.concat sep parts.

Definition eqb (a b : string) : bool := String.eqb a b.

(** [s.indexOf(c) >= 0]. *)
Fixpoint includes (c : ascii) (s : string) : bool :=
  match s with
  | EmptyString => false
  | String a s' => Ascii.eqb a c || includes c s'
  end.

End Js.

(** ** Node's [path] module, POSIX flavour

    The plugin calls [path.resolve], [path.normalize], [path.join],
    [path.relative], [path.dirname], [path.basename] and [path.extname].
    The interface is a record, since Node picks the implementation by
    platform; [posixPath] is the POSIX one, written after Node's own
    [normalizeArray]-based code, with the working directory as a
    parameter. *)

Record PathModule := {
  sep : string;
  resolve : list string -> string;
  normalize : string -> string;
  join : list string -> string;
  relative : string -> string -> string;
  dirname : string -> string;
  basename : string -> string;
  extname : string -> string
}.

Module Posix.

Definition slash : ascii := "/"%char.
Definition dot : ascii := "."%char.

Definition isAbsolute (p : string) : bool :=
  match Js.first p with
  | Some c => Ascii.eqb c slash
  | None => false
  end.

(** [normalizeArray(parts, allowAboveRoot)]; [res] is kept reversed. *)
Fixpoint normalizeArray_go (parts : list string) (allowAboveRoot : bool)
    (res : list string) : list string :=
  match parts with
  | [] => rev res
  | p :: parts' =>
      if negb (Js.truthy p) || Js.eqb p "." then
        normalizeArray_go parts' allowAboveRoot res
      else if Js.eqb p ".." then
        match res with
        | top :: res' =>
            if negb (Js.eqb top "..") then
              normalizeArray_go parts' allowAboveRoot res'
            else if allowAboveRoot then
              normalizeArray_go parts' allowAboveRoot (".." :: res)
            else normalizeArray_go parts' allowAboveRoot res
        | [] =>
            if allowAboveRoot then
              normalizeArray_go parts' allowAboveRoot (".." :: res)
            else normalizeArray_go parts' allowAboveRoot res
        end
      else normalizeArray_go parts' allowAboveRoot (p :: res)
  end.

Definition normalizeArray (parts : list string) (allowAboveRoot : bool)
    : list string :=
  normalizeArray_go parts allowAboveRoot [].

Definition normalize (p : string) : string :=
  let isAbs := isAbsolute p in
  let trailingSlash :=
    match Js.last p with Some c => Ascii.eqb c slash | None => false end in
  let p1 := Js.join "/" (normalizeArray (Js.split slash p) (negb isAbs)) in
  let p2 := if negb (Js.truthy p1) && negb isAbs then "." else p1 in
  let p3 := if Js.truthy p2 && trailingSlash then p2 +:+ "/" else p2 in
  (if isAbs then "/" else "") +:+ p3.

(** [path.join(a, b, ...)]: empty segments are skipped, the rest is joined
    with slashes and normalised. *)
Fixpoint join_go (args : list string) (acc : string) : string :=
  match args with
  | [] => acc
  | seg :: args' =>
      if Js.truthy seg then
        join_go args' (if negb (Js.truthy acc) then seg else acc +:+ "/" +:+ seg)
      else join_go args' acc
  end.

Definition join (args : list string) : string := normalize (join_go args "").

(** The right-to-left loop of [path.resolve]: [rargs] holds the arguments
    last first, followed by the working directory. *)
Fixpoint resolve_go (rargs : list string) (resolvedPath : string)
    : string * bool :=
  match rargs with
  | [] => (resolvedPath, false)
  | p :: rargs' =>
      if negb (Js.truthy p) then resolve_go rargs' resolvedPath
      else
        let resolvedPath' := p +:+ "/" +:+ resolvedPath in
        if isAbsolute p then (resolvedPath', true)
        else resolve_go rargs' resolvedPath'
  end.

Definition resolve (cwd : string) (args : list string) : string :=
  let '(resolvedPath, resolvedAbsolute) := resolve_go (rev args ++ [cwd]) "" in
  let r :=
    Js.join "/" (normalizeArray (Js.split slash resolvedPath) (negb resolvedAbsolute)) in
  Js.or ((if resolvedAbsolute then "/" else "") +:+ r) ".".

(** [trim] of [path.relative]: drops the empty parts at both ends. *)
Fixpoint dropEmpty (l : list string) : list string :=
  match l with
  | [] => []
  | p :: l' => if Js.truthy p then l else dropEmpty l'
  end.

Definition trim (l : list string) : list string :=
  rev (dropEmpty (rev (dropEmpty l))).

Fixpoint relative_go (fromParts toParts : list string) : list string :=
  match fromParts, toParts with
  | f :: fromParts', t :: toParts' =>
      if Js.eqb f t then relative_go fromParts' toParts'
      else map (fun _ => "..") fromParts ++ toParts
  | _, _ => map (fun _ => "..") fromParts ++ toParts
  end.

Definition relative (cwd : string) (from to : string) : string :=
  let from' := Js.slice1 (resolve cwd [from]) in
  let to' := Js.slice1 (resolve cwd [to]) in
  Js.join "/" (relative_go (trim (Js.split slash from')) (trim (Js.split slash to'))).

(** The parts [posixSplitPath] extracts: after the optional root slash and
    without trailing slashes, [dir] runs up to and including the last slash
    and [base] is what follows it. *)
Definition splitPath (p : string) : string * string * string :=
  let root := if isAbsolute p then "/" else "" in
  let rest := if isAbsolute p then Js.slice1 p else p in
  match dropEmpty (rev (Js.split slash rest)) with
  | [] => (root, "", "")
  | base :: rdirs =>
      (root, String.concat "" (map (fun d => d +:+ "/") (rev rdirs)), base)
  end.

Definition dirname (p : string) : string :=
  let '(root, dir, _) := splitPath p in
  if negb (Js.truthy root) && negb (Js.truthy dir) then "."
  else root +:+ String.rev (Js.slice1 (String.rev dir)).

Definition basename (p : string) : string :=
  let '(_, _, base) := splitPath p in base.

(** The extension of a base name: from its last dot on, unless that dot is
    the first character or the name is [.] or [..]; [acc] is the candidate
    found so far. *)
Fixpoint extname_go (b : string) (acc : option string) : option string :=
  match b with
  | EmptyString => acc
  | String c b' => extname_go b' (if Ascii.eqb c dot then Some b else acc)
  end.

Definition extname (p : string) : string :=
  let b := basename p in
  match b with
  | EmptyString => ""
  | String _ b' =>
      if Js.eqb b ".." then ""
      else match extname_go b' None with
           | Some e => e
           | None => ""
           end
  end.

End Posix.

Definition posixPath (cwd : string) : PathModule := {|
  sep := "/";
  resolve := Posix.resolve cwd;
  normalize := Posix.normalize;
  join := Posix.join;
  relative := Posix.relative cwd;
  dirname := Posix.dirname;
  basename := Posix.basename;
  extname := Posix.extname
|}.

(** ** minimatch

    The matcher is a collaborator; the plugin always calls it with
    [matchBase: true] and [dot: true].  [Minimatch.minimatch] follows the
    entry function of the library: a pattern that starts with [#] is a
    comment and matches nothing, a pattern that is empty once trimmed
    matches the empty path and no other, and anything else goes to the
    pattern matcher.  Of the pattern language the model covers literal
    characters, [?] and [*] inside one path segment, and base-name matching
    for a pattern without a slash, which is what the examples use. *)

Module Minimatch.

Fixpoint wild (pat : list ascii) (s : list ascii) : bool :=
  match pat with
  | [] => match s with [] => true | _ => false end
  | c :: pat' =>
      if Ascii.eqb c "*" then
        (fix star (s : list ascii) : bool :=
           wild pat' s ||
           match s with
           | [] => false
           | d :: s' => if Ascii.eqb d "/" then false else star s'
           end) s
      else if Ascii.eqb c "?" then
        match s with
        | d :: s' => negb (Ascii.eqb d "/") && wild pat' s'
        | [] => false
        end
      else
        match s with
        | d :: s' => Ascii.eqb c d && wild pat' s'
        | [] => false
        end
  end.

Fixpoint blank (s : string) : bool :=
  match s with
  | EmptyString => true
  | String c s' => Ascii.is_space c && blank s'
  end.

Definition hasSlash (s : string) : bool := Js.includes "/" s.

(** [minimatch(p, pattern, {matchBase: true, dot: true})]. *)
Definition minimatch (p pattern : string) : bool :=
  if match Js.first pattern with Some c => Ascii.eqb c "#" | None => false end
  then false
  else if blank pattern then Js.eqb p ""
  else
    let target := if hasSlash pattern then p else Posix.basename p in
    wild (list_ascii_of_string pattern) (list_ascii_of_string target).

End Minimatch.

(** ** Promises

    A rejection reason is a Node system error (code and path) or an [Error]
    with a message. *)

Inductive Err :=
| SystemError (code : string) (path : string)
| Error (message : string).

Inductive Result (A : Type) :=
| Ok (a : A)
| Rejected (e : Err).
Arguments Ok {A} a.
Arguments Rejected {A} e.

(** A promise over the mutable state [S]: it settles to a result and
    leaves a state behind; what was mutated before a rejection stays. *)
Definition Promise (S A : Type) : Type := S -> Result A * S.

Definition resolved {S A} (a : A) : Promise S A := fun st => (Ok a, st).

Definition rejected {S A} (e : Err) : Promise S A := fun st => (Rejected e, st).

Definition andThen {S A B} (m : Promise S A) (k : A -> Promise S B)
    : Promise S B :=
  fun st =>
    match m st with
    | (Ok a, st') => k a st'
    | (Rejected e, st') => (Rejected e, st')
    end.

#[global] Instance promise_ret {S} : MRet (Promise S) := @resolved S.
#[global] Instance promise_bind {S} : MBind (Promise S) :=
  fun A B k m => andThen m k.

(** Lifts a settled result of the world into a promise. *)
Definition await {S A} (r : Result A) : Promise S A := fun st => (r, st).

Definition modify {S} (f : S -> S) : Promise S unit :=
  fun st => (Ok tt, f st).

Definition gets {S A} (f : S -> A) : Promise S A := fun st => (Ok (f st), st).

(** [Promise.each(items, f)] and [.each(f)]: one item after the other, and
    the first rejection ends the loop. *)
Fixpoint each {S A} (f : A -> Promise S unit) (items : list A)
    : Promise S unit :=
  match items with
  | [] => resolved tt
  | x :: items' => f x ;; each f items'
  end.

(** ** The plugin entry point *)

Module Index.

(** What [fs.stat] resolves to. *)
Record Stats := {
  isDirectory : bool;
  size : Z;
  mtime : Z
}.

(** A copy pattern.  [to] and [toType] may be left out ([undefined]);
    [force] is [!!pattern.force]. *)
Record Pattern := {
  from : string;
  to : option string;
  toType : option string;
  force : bool
}.

(** The plugin options; [ignore] may be left out. *)
Record Options := {
  ignore : option (list string)
}.

(** The collaborators of one run: [os.platform()], the [path] module,
    [compiler.options.context], [fs.statAsync], the promisified [glob],
    [dir.filesAsync], [fs.copyAsync] ([None] when the copy succeeds) and
    minimatch with the options the plugin passes. *)
Record World := {
  platform : string;
  path : PathModule;
  context : string;
  statAsync : string -> Result Stats;
  globAsync : string -> string -> Result (list string);
  filesAsync : string -> Result (list string);
  copyAsync : string -> string -> option Err;
  minimatch : string -> string -> bool
}.

(** An asset-table entry: [size()] returns the recorded stat size,
    [source()] reads [sourcePath] when it is called. *)
Record Asset := {
  assetSize : Z;
  sourcePath : string
}.

(** Everything the handlers mutate: the compilation ([assets], [errors],
    the tracked files and directories), the variables of [apply]'s closure
    ([fileDependencies], [contextDependencies], [lastGlobalUpdate]) and the
    copies issued to the file system, oldest first. *)
Record State := {
  assets : gmap string Asset;
  errors : list Err;
  trackedFiles : list string;
  trackedDirs : list string;
  fileDependencies : list string;
  contextDependencies : list string;
  lastGlobalUpdate : Z;
  copies : list (string * string)
}.

Definition setAssets (a : gmap string Asset) (st : State) : State :=
  {| assets := a; errors := errors st; trackedFiles := trackedFiles st;
     trackedDirs := trackedDirs st; fileDependencies := fileDependencies st;
     contextDependencies := contextDependencies st;
     lastGlobalUpdate := lastGlobalUpdate st; copies := copies st |}.

Definition setErrors (e : list Err) (st : State) : State :=
  {| assets := assets st; errors := e; trackedFiles := trackedFiles st;
     trackedDirs := trackedDirs st; fileDependencies := fileDependencies st;
     contextDependencies := contextDependencies st;
     lastGlobalUpdate := lastGlobalUpdate st; copies := copies st |}.

Definition setTracked (fs ds : list string) (st : State) : State :=
  {| assets := assets st; errors := errors st; trackedFiles := fs;
     trackedDirs := ds; fileDependencies := fileDependencies st;
     contextDependencies := contextDependencies st;
     lastGlobalUpdate := lastGlobalUpdate st; copies := copies st |}.

Definition setFileDependencies (l : list string) (st : State) : State :=
  {| assets := assets st; errors := errors st; trackedFiles := trackedFiles st;
     trackedDirs := trackedDirs st; fileDependencies := l;
     contextDependencies := contextDependencies st;
     lastGlobalUpdate := lastGlobalUpdate st; copies := copies st |}.

Definition setContextDependencies (l : list string) (st : State) : State :=
  {| assets := assets st; errors := errors st; trackedFiles := trackedFiles st;
     trackedDirs := trackedDirs st; fileDependencies := fileDependencies st;
     contextDependencies := l;
     lastGlobalUpdate := lastGlobalUpdate st; copies := copies st |}.

Definition setLastGlobalUpdate (t : Z) (st : State) : State :=
  {| assets := assets st; errors := errors st; trackedFiles := trackedFiles st;
     trackedDirs := trackedDirs st; fileDependencies := fileDependencies st;
     contextDependencies := contextDependencies st;
     lastGlobalUpdate := t; copies := copies st |}.

Definition setCopies (c : list (string * string)) (st : State) : State :=
  {| assets := assets st; errors := errors st; trackedFiles := trackedFiles st;
     trackedDirs := trackedDirs st; fileDependencies := fileDependencies st;
     contextDependencies := contextDependencies st;
     lastGlobalUpdate := lastGlobalUpdate st; copies := c |}.

(** [toLooksLikeDirectory(pattern)].  When [pattern.to] is left out the
    regular expression behind [path.extname] reads [undefined] as the text
    of that word, which has no extension, and [_.last(undefined)] is
    [undefined]. *)
Definition charIs (c : option ascii) (s : string) : bool :=
  match c with
  | Some c => Js.eqb (String c EmptyString) s
  | None => false
  end.

Definition toLooksLikeDirectory (w : World) (pattern : Pattern) : bool :=
  let filename := to pattern in
  (Js.eqb (extname (path w) (default "undefined" filename)) "" ||
   charIs (filename ≫= Js.last) (sep (path w)) ||
   charIs (filename ≫= Js.last) "/" ||
   bool_decide (toType pattern = Some "dir")) &&
  negb (bool_decide (toType pattern = Some "file")).

(** The test of [/^[A-z]:\\\\/]: a character between [A] and [z], a colon
    and two backslashes. *)
Definition backslash : ascii := ascii_of_nat 92.

Definition winRootMatcher (s : string) : bool :=
  match s with
  | String c (String c1 (String c2 (String c3 _))) =>
      (65 <=? nat_of_ascii c)%nat && (nat_of_ascii c <=? 122)%nat &&
      Ascii.eqb c1 ":" && Ascii.eqb c2 backslash && Ascii.eqb c3 backslash
  | _ => false
  end.

(** "Determine if this is an absolute to": [absDest] stays [undefined]
    unless [relDest] passes the platform's test. *)
Definition absDestOf (w : World) (relDest : string) : option string :=
  if Js.eqb (platform w) "win32" then
    if winRootMatcher relDest then Some relDest else None
  else
    match Js.first relDest with
    | Some c => if Ascii.eqb c "/" then Some relDest else None
    | None => None
    end.

(** [shouldIgnore(pathName, ignoreList)]: [_.find] returns the first glob
    the matcher accepts ([undefined] when there is none, or no list), and
    the result is the truthiness of what was found. *)
Definition shouldIgnore (w : World) (pathName : string)
    (ignoreList : option (list string)) : bool :=
  let matched :=
    find (fun glob => minimatch w pathName glob) (default [] ignoreList) in
  match matched with
  | Some glob => Js.truthy glob
  | None => false
  end.

Definition fsCopy (w : World) (src dest : string) : Promise State unit :=
  modify (fun st => setCopies (copies st ++ [(src, dest)]) st) ;;
  match copyAsync w src dest with
  | None => mret tt
  | Some e => rejected e
  end.

(** [writeFileToAssets(opts)]. *)
Definition writeFileToAssets (w : World) (absFileSrc relFileDest : string)
    (forceWrite : bool) (lastGlobalUpdate : Z) : Promise State unit :=
  existing ← gets (fun st => assets st !! relFileDest);
  if bool_decide (is_Some existing) && negb forceWrite then mret tt
  else
    stat ← await (statAsync w absFileSrc);
    if mtime stat >? lastGlobalUpdate then
      modify (fun st =>
        setAssets (<[relFileDest :=
                      {| assetSize := size stat; sourcePath := absFileSrc |}]>
                     (assets st)) st)
    else mret tt.

(** [writeDirectoryToAssets(opts)]. *)
Definition writeDirectoryToAssets (w : World) (absDirSrc relDirDest : string)
    (forceWrite : bool) (lastGlobalUpdate : Z)
    (ignoreList : option (list string)) : Promise State unit :=
  files ← await (filesAsync w absDirSrc);
  each (fun absFileSrc =>
    let relFileSrc := relative (path w) absDirSrc absFileSrc in
    let relFileDest := join (path w) [relDirDest; relFileSrc] in
    if shouldIgnore w relFileSrc ignoreList then mret tt
    else
      let relFileDest :=
        if charIs (Js.first relFileDest) (sep (path w))
        then Js.slice1 relFileDest else relFileDest in
      writeFileToAssets w absFileSrc relFileDest forceWrite lastGlobalUpdate)
    files.

(** The destination key of a glob match that goes to the asset table
    (the three-way choice before the call of [writeFileToAssets]). *)
Definition relFileDestOf (w : World) (pattern : Pattern)
    (stat : option Stats) (relFileSrc : string) : string :=
  let baseDir := context w in
  let relFileDest := default "" (to pattern) in
  let relFileDirname := dirname (path w) relFileSrc in
  if bool_decide (stat = None) && negb (Js.eqb relFileDirname baseDir) then
    join (path w) [relative (path w) baseDir relFileDirname;
                   basename (path w) relFileSrc]
  else if toLooksLikeDirectory w pattern then
    join (path w) [relFileDest; basename (path w) relFileSrc]
  else Js.or relFileDest (basename (path w) relFileSrc).

(** The [else] branch of the emit handler: [relSrc] is expanded as a glob
    and every match that is not ignored is copied or written; [stat] is
    what the stat of [absSrc] gave ([None] for [null]). *)
Definition globBranch (w : World) (ignoreList : option (list string))
    (pattern : Pattern) (stat : option Stats) : Promise State unit :=
  let baseDir := context w in
  let relSrc := from pattern in
  let relDest := default "" (to pattern) in
  let absDest := absDestOf w relDest in
  let forceWrite := force pattern in
  matches ← await (globAsync w relSrc baseDir);
  each (fun relFileSrc =>
    if shouldIgnore w relFileSrc ignoreList then mret tt
    else
      let absFileSrc := resolve (path w) [baseDir; relFileSrc] in
      modify (fun st =>
        setFileDependencies (fileDependencies st ++ [absFileSrc]) st) ;;
      match absDest with
      | Some absDest =>
          let dest :=
            if toLooksLikeDirectory w pattern
            then join (path w) [absDest; basename (path w) absFileSrc]
            else absDest in
          fsCopy w absFileSrc dest
      | None =>
          lastGlobalUpdate ← gets lastGlobalUpdate;
          writeFileToAssets w absFileSrc
            (relFileDestOf w pattern stat relFileSrc) forceWrite lastGlobalUpdate
      end)
    matches.

(** The [if] branch: [absSrc] is an existing directory. *)
Definition directoryBranch (w : World) (ignoreList : option (list string))
    (pattern : Pattern) : Promise State unit :=
  let absSrc := resolve (path w) [context w; from pattern] in
  let relDest := default "" (to pattern) in
  modify (fun st =>
    setContextDependencies (contextDependencies st ++ [absSrc]) st) ;;
  match absDestOf w relDest with
  | Some absDest =>
      if toLooksLikeDirectory w pattern then fsCopy w absSrc absDest
      else
        lastGlobalUpdate ← gets lastGlobalUpdate;
        writeDirectoryToAssets w absSrc relDest (force pattern)
          lastGlobalUpdate ignoreList
  | None =>
      lastGlobalUpdate ← gets lastGlobalUpdate;
      writeDirectoryToAssets w absSrc relDest (force pattern)
        lastGlobalUpdate ignoreList
  end.

(** The stat of [absSrc] with its [.catch(function(err) { return null; })]. *)
Definition statOrNull (w : World) (absSrc : string) : option Stats :=
  match statAsync w absSrc with
  | Ok stat => Some stat
  | Rejected _ => None
  end.

(** One iteration of [Promise.each(patterns, ...)] in the emit handler. *)
Definition processPattern (w : World) (ignoreList : option (list string))
    (pattern : Pattern) : Promise State unit :=
  let absSrc := resolve (path w) [context w; from pattern] in
  match statOrNull w absSrc with
  | Some stat =>
      if isDirectory stat then directoryBranch w ignoreList pattern
      else globBranch w ignoreList pattern (Some stat)
  | None => globBranch w ignoreList pattern None
  end.

(** The emit handler: [now] is what [_.now()] returns when the patterns
    are done.  A rejection skips the update of [lastGlobalUpdate] and is
    pushed onto [compilation.errors]. *)
Definition emit (w : World) (now : Z) (patterns : list Pattern)
    (opts : option Options) (st : State) : State :=
  let ignoreList := opts ≫= ignore in
  match each (processPattern w ignoreList) patterns st with
  | (Ok _, st') => setLastGlobalUpdate now st'
  | (Rejected e, st') => setErrors (errors st' ++ [e]) st'
  end.

(** The after-emit handler: every dependency not yet tracked is pushed. *)
Definition pushMissing (tracked deps : list string) : list string :=
  fold_left
    (fun acc file => if bool_decide (file ∈ acc) then acc else acc ++ [file])
    deps tracked.

Definition afterEmit (st : State) : State :=
  setTracked (pushMissing (trackedFiles st) (fileDependencies st))
             (pushMissing (trackedDirs st) (contextDependencies st)) st.

(** The values the factory may receive as [patterns]. *)
Inductive JsValue :=
| JsUndefined
| JsNull
| JsBoolean (b : bool)
| JsNumber (n : Z)
| JsString (s : string)
| JsObject
| JsArray (items : list Pattern).

Definition isArray (v : JsValue) : bool :=
  match v with
  | JsArray _ => true
  | _ => false
  end.

(** What the factory hands back: [apply] bound to the patterns and options. *)
Record Plugin := {
  patterns : list Pattern;
  options : option Options
}.

(** A call either returns or throws. *)
Inductive Completion (A : Type) :=
| Return (a : A)
| Throw (e : Err).
Arguments Return {A} a.
Arguments Throw {A} e.

(** [module.exports = function(patterns, options)]. *)
Definition module_exports (patterns : JsValue) (options : option Options)
    : Completion Plugin :=
  let patterns :=
    match patterns with
    | JsUndefined => JsArray []
    | _ => patterns
    end in
  match patterns with
  | JsArray items => Return {| patterns := items; options := options |}
  | _ => Throw (Error "CopyWebpackPlugin: patterns must be an array")
  end.

(** The emit handler that [plugin.apply(compiler)] registers. *)
Definition pluginEmit (w : World) (now : Z) (plugin : Plugin) : State -> State :=
  emit w now (patterns plugin) (options plugin).

(** A build with the plugin in its configuration: the factory is called
    when the configuration is evaluated, and the emit handler of the
    plugin it returned runs later, on the state [st]; when the factory
    throws there is no plugin and no handler runs. *)
Definition build (w : World) (now : Z) (patterns : JsValue)
    (options : option Options) (st : State) : Completion State :=
  match module_exports patterns options with
  | Return plugin => Return (pluginEmit w now plugin st)
  | Throw e => Throw e
  end.

End Index.

(** ** The per-file pipeline: [postProcessPattern] *)

Module PostProcess.

(** File content (a [Buffer]). *)
Abbreviation bytes := (list Byte.byte).

(** What [stat] resolves to, as far as this function reads it. *)
Record Stats := {
  isDirectory : bool;
  size : Z
}.

(** A pattern after pre-processing.  [stats] is the stat result stored on
    the pattern, when there is one; [cache] is [None] when [pattern.cache]
    is falsy and otherwise holds [pattern.cache.key] ([None] when the key
    is left out); the two callbacks may throw or reject. *)
Record Pattern := {
  stats : option Stats;
  fromType : string;
  toType : option string;
  context : string;
  transform : option (bytes -> string -> Result bytes);
  cache : option (option string);
  transformPath : option (string -> string -> Result string)
}.

(** A resolved file; [webpackTo] is refined along the pipeline. *)
Record File := {
  absoluteFrom : string;
  relativeFrom : string;
  webpackTo : string;
  webpackToRegExp : option string;
  force : bool
}.

Definition setWebpackTo (to : string) (file : File) : File :=
  {| absoluteFrom := absoluteFrom file; relativeFrom := relativeFrom file;
     webpackTo := to; webpackToRegExp := webpackToRegExp file;
     force := force file |}.

(** The collaborators: the global option [copyUnmodified], [path], the
    promisified [stat] and [readFile] over the input file system,
    [findCacheDir] ([None] when it finds no directory), [os.tmpdir()], the
    md4 hex digest, [serialize] applied to name, version, pattern and
    content hash, [loaderUtils.interpolateName] (resource path, name
    template, content, regExp, context), [loaderUtils.getHashDigest] and
    [normalizePath]. *)
Record World := {
  copyUnmodified : bool;
  path : PathModule;
  stat : string -> Result Stats;
  readFile : string -> Result bytes;
  findCacheDir : option string;
  tmpdir : string;
  md4 : bytes -> string;
  serialize : Pattern -> string -> string;
  interpolateName :
    string -> string -> bytes -> option string -> string -> Result string;
  getHashDigest : bytes -> string;
  normalizePath : string -> string
}.

(** The messages handed to [logger.debug] and [logger.info], with the
    values interpolated into them. *)
Inductive Message :=
| GettingStats (absoluteFrom : string)
| SkippingEmptyDirectory (absoluteFrom : string)
| Reading (absoluteFrom : string)
| TransformingContent (absoluteFrom : string)
| GettingCached (absoluteFrom : string)
| Caching (absoluteFrom : string)
| Interpolating (webpackTo relativeFrom : string)
| TransformingPath (webpackTo absoluteFrom : string)
| SkippingUnchanged (webpackTo : string)
| AddingForTracking (webpackTo : string)
| SkippingExists (assetFilename : string)
| Writing (assetFilename absoluteFrom : string).

(** An asset-table entry: [size()] returns [assetSize], [source()]
    returns [assetSource]. *)
Record Asset := {
  assetSize : Z;
  assetSource : bytes
}.

(** What the function mutates: [globalRef.cacheDir], the write history
    [written], [compilation.assets], the [fileDependencies] set, the
    content of the cacache store (by cache directory and key), the calls
    made to [pattern.transform] (content and path, oldest first) and the
    logged messages. *)
Record State := {
  cacheDir : option string;
  written : gmap string (gmap string string);
  assets : gmap string Asset;
  fileDependencies : gset string;
  cacache : gmap (string * string) bytes;
  transformCalls : list (bytes * string);
  logged : list Message
}.

Definition setCacheDir (d : option string) (st : State) : State :=
  {| cacheDir := d; written := written st; assets := assets st;
     fileDependencies := fileDependencies st; cacache := cacache st;
     transformCalls := transformCalls st; logged := logged st |}.

Definition setWritten (h : gmap string (gmap string string)) (st : State)
    : State :=
  {| cacheDir := cacheDir st; written := h; assets := assets st;
     fileDependencies := fileDependencies st; cacache := cacache st;
     transformCalls := transformCalls st; logged := logged st |}.

Definition setAssets (a : gmap string Asset) (st : State) : State :=
  {| cacheDir := cacheDir st; written := written st; assets := a;
     fileDependencies := fileDependencies st; cacache := cacache st;
     transformCalls := transformCalls st; logged := logged st |}.

Definition setFileDependencies (d : gset string) (st : State) : State :=
  {| cacheDir := cacheDir st; written := written st; assets := assets st;
     fileDependencies := d; cacache := cacache st;
     transformCalls := transformCalls st; logged := logged st |}.

Definition setCacache (c : gmap (string * string) bytes) (st : State) : State :=
  {| cacheDir := cacheDir st; written := written st; assets := assets st;
     fileDependencies := fileDependencies st; cacache := c;
     transformCalls := transformCalls st; logged := logged st |}.

Definition setTransformCalls (c : list (bytes * string)) (st : State) : State :=
  {| cacheDir := cacheDir st; written := written st; assets := assets st;
     fileDependencies := fileDependencies st; cacache := cacache st;
     transformCalls := c; logged := logged st |}.

Definition setLogged (l : list Message) (st : State) : State :=
  {| cacheDir := cacheDir st; written := written st; assets := assets st;
     fileDependencies := fileDependencies st; cacache := cacache st;
     transformCalls := transformCalls st; logged := l |}.

Definition logger (m : Message) : Promise State unit :=
  modify (fun st => setLogged (logged st ++ [m]) st).

(** [pattern.stats ? Promise.resolve().then(() => pattern.stats) : stat(...)]. *)
Definition getStats (w : World) (pattern : Pattern) (file : File)
    : Promise State Stats :=
  match stats pattern with
  | Some s => mret s
  | None => await (stat w (absoluteFrom file))
  end.

(** [if (!globalRef.cacheDir) globalRef.cacheDir = findCacheDir(...) || os.tmpdir()]. *)
Definition cacheDirTruthy (st : State) : bool :=
  match cacheDir st with
  | Some d => Js.truthy d
  | None => false
  end.

Definition ensureCacheDir (w : World) (st : State) : State :=
  if cacheDirTruthy st then st
  else setCacheDir (Some (Js.or (default "" (findCacheDir w)) (tmpdir w))) st.

(** [pattern.cache.key ? pattern.cache.key : serialize({...})]. *)
Definition cacheKeyOf (w : World) (pattern : Pattern) (key : option string)
    (content : bytes) : string :=
  match key with
  | Some k => if Js.truthy k then k else serialize w pattern (md4 w content)
  | None => serialize w pattern (md4 w content)
  end.

(** A call of [pattern.transform], recorded in [transformCalls]. *)
Definition callTransform (t : bytes -> string -> Result bytes)
    (content : bytes) (absoluteFrom : string) : Promise State bytes :=
  modify (fun st =>
    setTransformCalls (transformCalls st ++ [(content, absoluteFrom)]) st) ;;
  await (t content absoluteFrom).

(** The first [.then] after [readFile]: the transform, through the cache
    when [pattern.cache] is set. *)
Definition transformContent (w : World) (pattern : Pattern) (file : File)
    (content : bytes) : Promise State bytes :=
  match transform pattern with
  | None => mret content
  | Some t =>
      logger (TransformingContent (absoluteFrom file)) ;;
      match cache pattern with
      | Some key =>
          modify (ensureCacheDir w) ;;
          let cacheKey := cacheKeyOf w pattern key content in
          dir ← gets (fun st => default "" (cacheDir st));
          cached ← gets (fun st => cacache st !! (dir, cacheKey));
          match cached with
          | Some data =>
              logger (GettingCached (absoluteFrom file)) ;;
              mret data
          | None =>
              content ← callTransform t content (absoluteFrom file);
              logger (Caching (absoluteFrom file)) ;;
              modify (fun st =>
                setCacache (<[(dir, cacheKey) := content]> (cacache st)) st) ;;
              mret content
          end
      | None => callTransform t content (absoluteFrom file)
      end
  end.

(** [s.replace(/\.?\[ext\]/g, '')]: [skip] counts the characters of a match
    still to be dropped. *)
Fixpoint removeExt_go (skip : nat) (s : string) : string :=
  match s with
  | EmptyString => EmptyString
  | String c s' =>
      match skip with
      | S n => removeExt_go n s'
      | O =>
          if String.prefix ".[ext]" s then removeExt_go 5 s'
          else if String.prefix "[ext]" s then removeExt_go 4 s'
          else String c (removeExt_go 0 s')
      end
  end.

Definition removeExt (s : string) : string := removeExt_go 0 s.

(** The second [.then]: template interpolation of [file.webpackTo]. *)
Definition interpolateTemplate (w : World) (pattern : Pattern) (file : File)
    (content : bytes) : Promise State File :=
  if bool_decide (toType pattern = Some "template") then
    logger (Interpolating (webpackTo file) (relativeFrom file)) ;;
    let file :=
      if negb (Js.truthy (extname (path w) (relativeFrom file)))
      then setWebpackTo (removeExt (webpackTo file)) file
      else file in
    name ← await (interpolateName w (absoluteFrom file) (webpackTo file)
                    content (webpackToRegExp file) (context pattern));
    mret (setWebpackTo (normalize (path w) name) file)
  else mret file.

(** The third [.then]: [pattern.transformPath]. *)
Definition transformFilePath (w : World) (pattern : Pattern) (file : File)
    : Promise State File :=
  match transformPath pattern with
  | Some f =>
      logger (TransformingPath (webpackTo file) (absoluteFrom file)) ;;
      newPath ← await (f (webpackTo file) (absoluteFrom file));
      mret (setWebpackTo (normalize (path w) newPath) file)
  | None => mret file
  end.

(** [written[to] && written[to][from] && written[to][from] === hash]. *)
Definition writtenWith (st : State) (to from hash : string) : bool :=
  match written st !! to with
  | Some sources =>
      match sources !! from with
      | Some h => Js.truthy h && Js.eqb h hash
      | None => false
      end
  | None => false
  end.

(** [if (!written[to]) written[to] = {}; written[to][from] = hash]. *)
Definition track (to from hash : string)
    (h : gmap string (gmap string string)) : gmap string (gmap string string) :=
  <[to := <[from := hash]> (default ∅ (h !! to))]> h.

(** The last [.then]: the write decision. *)
Definition writeDecision (w : World) (file : File) (stats : Stats)
    (content : bytes) : Promise State unit :=
  let hash := getHashDigest w content in
  unchanged ← gets (fun st =>
    negb (copyUnmodified w) &&
    writtenWith st (webpackTo file) (absoluteFrom file) hash);
  if (unchanged : bool) then logger (SkippingUnchanged (webpackTo file))
  else
    logger (AddingForTracking (webpackTo file)) ;;
    modify (fun st =>
      setWritten (track (webpackTo file) (absoluteFrom file) hash (written st)) st) ;;
    let assetFilename := normalizePath w (webpackTo file) in
    existing ← gets (fun st => assets st !! assetFilename);
    if bool_decide (is_Some existing) && negb (force file) then
      logger (SkippingExists assetFilename)
    else
      logger (Writing assetFilename (absoluteFrom file)) ;;
      modify (fun st =>
        setAssets (<[assetFilename :=
                      {| assetSize := size stats; assetSource := content |}]>
                     (assets st)) st).

(** Everything before the write decision: the final content and the file
    with its final [webpackTo], or nothing for a directory. *)
Definition contentPipeline (w : World) (pattern : Pattern) (file : File)
    : Promise State (option (Stats * bytes * File)) :=
  logger (GettingStats (absoluteFrom file)) ;;
  stats ← getStats w pattern file;
  if isDirectory stats then
    logger (SkippingEmptyDirectory (absoluteFrom file)) ;;
    mret None
  else
    (if Js.eqb (fromType pattern) "glob" then
       modify (fun st =>
         setFileDependencies ({[absoluteFrom file]} ∪ fileDependencies st) st)
     else mret tt) ;;
    logger (Reading (absoluteFrom file)) ;;
    content ← await (readFile w (absoluteFrom file));
    content ← transformContent w pattern file content;
    file ← interpolateTemplate w pattern file content;
    file ← transformFilePath w pattern file;
    mret (Some (stats, content, file)).

(** [postProcessPattern(globalRef, pattern, file)]. *)
Definition postProcessPattern (w : World) (pattern : Pattern) (file : File)
    : Promise State unit :=
  r ← contentPipeline w pattern file;
  match r with
  | Some (stats, content, file) => writeDecision w file stats content
  | None => mret tt
  end.

(** Modelled from the spec: the loop that hands the resolved files to
    [postProcessPattern] is not among the sources.  One pass goes over the
    resolved files, each with its pattern; a failure in a file's pipeline
    is collected and does not abort the files after it, which are
    processed in the state the failed one left. *)
Fixpoint runPass (w : World) (files : list (Pattern * File)) (st : State)
    : list Err * State :=
  match files with
  | [] => ([], st)
  | (pattern, file) :: files' =>
      match postProcessPattern w pattern file st with
      | (Ok _, st') => runPass w files' st'
      | (Rejected e, st') =>
          let '(errs, st'') := runPass w files' st' in (e :: errs, st'')
      end
  end.

End PostProcess.

(** ** Concrete worlds used in the examples *)

Module Examples.

Definition fileStat : Index.Stats :=
  {| Index.isDirectory := false; Index.size := 10; Index.mtime := 1000 |}.

Definition emptyState : Index.State :=
  {| Index.assets := ∅; Index.errors := []; Index.trackedFiles := [];
     Index.trackedDirs := []; Index.fileDependencies := [];
     Index.contextDependencies := []; Index.lastGlobalUpdate := 0;
     Index.copies := [] |}.

(** A project at [/proj] holding [src/a.js] and [src/lib/b.js]; the glob
    [src/**/*.js] matches both and every other stat finds nothing. *)
Definition project : Index.World :=
  {| Index.platform := "linux";
     Index.path := posixPath "/proj";
     Index.context := "/proj";
     Index.statAsync := fun p =>
       if bool_decide (p ∈ ["/proj/src/a.js"; "/proj/src/lib/b.js"])
       then Ok fileStat else Rejected (SystemError "ENOENT" p);
     Index.globAsync := fun pattern _ =>
       if Js.eqb pattern "src/**/*.js" then Ok ["src/a.js"; "src/lib/b.js"]
       else Ok [];
     Index.filesAsync := fun p => Rejected (SystemError "ENOENT" p);
     Index.copyAsync := fun _ _ => None;
     Index.minimatch := Minimatch.minimatch |}.

Definition globPattern : Index.Pattern :=
  {| Index.from := "src/**/*.js"; Index.to := None; Index.toType := None;
     Index.force := false |}.

Definition toAbsoluteDir : Index.Pattern :=
  {| Index.from := "src/**/*.js"; Index.to := Some "/out";
     Index.toType := None; Index.force := false |}.



(** A project for the per-file pipeline: [/proj/notes.txt] holds [abc];
    the digests are the content behind a prefix, so that they are never
    empty and differ with the content. *)
Definition digest (prefix : string) (content : PostProcess.bytes) : string :=
  prefix +:+ string_of_list_byte content.

Definition notesWorld : PostProcess.World :=
  {| PostProcess.copyUnmodified := false;
     PostProcess.path := posixPath "/proj";
     PostProcess.stat := fun p =>
       if Js.eqb p "/proj/notes.txt"
       then Ok {| PostProcess.isDirectory := false; PostProcess.size := 3 |}
       else Rejected (SystemError "ENOENT" p);
     PostProcess.readFile := fun p =>
       if Js.eqb p "/proj/notes.txt" then Ok (list_byte_of_string "abc")
       else Rejected (SystemError "ENOENT" p);
     PostProcess.findCacheDir := None;
     PostProcess.tmpdir := "/tmp";
     PostProcess.md4 := digest "md4:";
     PostProcess.serialize := fun _ hash => "copy-webpack-plugin:" +:+ hash;
     PostProcess.interpolateName := fun _ name _ _ _ => Ok name;
     PostProcess.getHashDigest := digest "md5:";
     PostProcess.normalizePath := fun p => p |}.

Definition notes : PostProcess.File :=
  {| PostProcess.absoluteFrom := "/proj/notes.txt";
     PostProcess.relativeFrom := "notes.txt";
     PostProcess.webpackTo := "out.txt";
     PostProcess.webpackToRegExp := None;
     PostProcess.force := false |}.

(** The same file, forced. *)
Definition forcedNotes : PostProcess.File :=
  {| PostProcess.absoluteFrom := "/proj/notes.txt";
     PostProcess.relativeFrom := "notes.txt";
     PostProcess.webpackTo := "out.txt";
     PostProcess.webpackToRegExp := None;
     PostProcess.force := true |}.

(** Two patterns for the same file and destination; one doubles the
    content (and caches the result), the other appends an exclamation
    mark. *)
Definition doubling : PostProcess.Pattern :=
  {| PostProcess.stats := None; PostProcess.fromType := "file";
     PostProcess.toType := Some "file"; PostProcess.context := "/proj";
     PostProcess.transform := Some (fun content _ => Ok (content ++ content));
     PostProcess.cache := Some None;
     PostProcess.transformPath := None |}.

Definition appending : PostProcess.Pattern :=
  {| PostProcess.stats := None; PostProcess.fromType := "file";
     PostProcess.toType := Some "file"; PostProcess.context := "/proj";
     PostProcess.transform :=
       Some (fun content _ => Ok (content ++ list_byte_of_string "!"));
     PostProcess.cache := None;
     PostProcess.transformPath := None |}.

Definition initial : PostProcess.State :=
  {| PostProcess.cacheDir := None; PostProcess.written := ∅;
     PostProcess.assets := ∅; PostProcess.fileDependencies := ∅;
     PostProcess.cacache := ∅; PostProcess.transformCalls := [];
     PostProcess.logged := [] |}.

(** The state the next pass starts from: the write history and the cache
    store stay; the compilation, with its asset table, and [globalRef]
    are new. *)
Definition nextCompilation (st : PostProcess.State) : PostProcess.State :=
  {| PostProcess.cacheDir := None; PostProcess.written := PostProcess.written st;
     PostProcess.assets := ∅; PostProcess.fileDependencies := ∅;
     PostProcess.cacache := PostProcess.cacache st;
     PostProcess.transformCalls := PostProcess.transformCalls st;
     PostProcess.logged := [] |}.

(** Both patterns over the forced file. *)
Definition twoTransforms : list (PostProcess.Pattern * PostProcess.File) :=
  [(doubling, forcedNotes); (appending, forcedNotes)].

(** The state the first pass over [twoTransforms] leaves. *)
Definition afterFirstPass : PostProcess.State :=
  (PostProcess.runPass notesWorld twoTransforms initial).2.

End Examples.

(** ** Reference definitions for the statements below *)

(** A directory or file name: not empty, not [.] or [..], no slash. *)
Definition validSegment (s : string) : bool :=
  Js.truthy s && negb (Js.eqb s ".") && negb (Js.eqb s "..") &&
  negb (Js.includes Posix.slash s).

(** The absolute, normalised POSIX path with the given segments. *)
Definition absolutePath (segments : list string) : string :=
  "/" +:+ Js.join "/" segments.

Section AbsoluteDestination.

Variable w : Index.World.
Variable ignoreList : option (list string).

(** The matches that pass the ignore list. *)
Definition kept (matches : list string) : list string :=
  filter (fun m => Index.shouldIgnore w m ignoreList = false) matches.

(** The matches of a pattern that reach the copy: what the glob returned
    (nothing when it was rejected), without the ignored ones. *)
Definition keptMatches (pattern : Index.Pattern) : list string :=
  match Index.globAsync w (Index.from pattern) (Index.context w) with
  | Ok matches => kept matches
  | Rejected _ => []
  end.

Definition absFileSrcOf (relFileSrc : string) : string :=
  resolve (Index.path w) [Index.context w; relFileSrc].

(** Where a match is copied when the destination [absDest] is absolute. *)
Definition copyOf (pattern : Index.Pattern) (absDest relFileSrc : string)
    : string * string :=
  (absFileSrcOf relFileSrc,
   if Index.toLooksLikeDirectory w pattern
   then join (Index.path w) [absDest; basename (Index.path w) (absFileSrcOf relFileSrc)]
   else absDest).

(** The loop body of the glob branch once [absDest] is set. *)
Definition copyMatch (pattern : Index.Pattern) (absDest relFileSrc : string)
    : Promise Index.State unit :=
  if Index.shouldIgnore w relFileSrc ignoreList then mret tt
  else
    modify (fun st =>
      Index.setFileDependencies
        (Index.fileDependencies st ++ [absFileSrcOf relFileSrc]) st) ;;
    Index.fsCopy w (absFileSrcOf relFileSrc)
      (snd (copyOf pattern absDest relFileSrc)).

(** The copies really issued: the loop stops at the first copy that fails. *)
Fixpoint issued (planned : list (string * string)) : list (string * string) :=
  match planned with
  | [] => []
  | (src, dest) :: planned' =>
      (src, dest) ::
      match Index.copyAsync w src dest with
      | None => issued planned'
      | Some _ => []
      end
  end.

(** How the loop over the planned copies settles. *)
Fixpoint copyResult (planned : list (string * string)) : Result unit :=
  match planned with
  | [] => Ok tt
  | (src, dest) :: planned' =>
      match Index.copyAsync w src dest with
      | None => copyResult planned'
      | Some e => Rejected e
      end
  end.

End AbsoluteDestination.

(** The cache directory the pipeline uses when it starts in [st]. *)
Definition dirOf (w : PostProcess.World) (st : PostProcess.State) : string :=
  default "" (PostProcess.cacheDir (PostProcess.ensureCacheDir w st)).

(** The destination key, source path and content hash a file is tracked
    under, as the pipeline resolves them from the state [st]; nothing for a
    directory or a rejected pipeline. *)
Definition trackedAs (w : PostProcess.World) (pattern : PostProcess.Pattern)
    (file : PostProcess.File) (st : PostProcess.State)
    : option (string * string * string) :=
  match PostProcess.contentPipeline w pattern file st with
  | (Ok (Some (_, content, file')), _) =>
      Some (PostProcess.webpackTo file', PostProcess.absoluteFrom file',
            PostProcess.getHashDigest w content)
  | _ => None
  end.

(** The same for every file of a pass, in order, each resolved from the
    state its predecessors left. *)
Fixpoint trackedInPass (w : PostProcess.World)
    (files : list (PostProcess.Pattern * PostProcess.File))
    (st : PostProcess.State) : list (string * string * string) :=
  match files with
  | [] => []
  | (pattern, file) :: files' =>
      match trackedAs w pattern file st with
      | Some t => [t]
      | None => []
      end ++
      trackedInPass w files' (PostProcess.postProcessPattern w pattern file st).2
  end.

(** No destination key receives the same source with two different
    content hashes. *)
Definition consistentHashes (l : list (string * string * string)) : Prop :=
  forall to from h1 h2, (to, from, h1) ∈ l -> (to, from, h2) ∈ l -> h1 = h2.

(** The messages of the write decision among the logged ones. *)
Definition isWriteMessage (m : PostProcess.Message) : bool :=
  match m with
  | PostProcess.SkippingUnchanged _
  | PostProcess.AddingForTracking _
  | PostProcess.SkippingExists _
  | PostProcess.Writing _ _ => true
  | _ => false
  end.

Definition writeMessages (l : list PostProcess.Message)
    : list PostProcess.Message :=
  List.filter isWriteMessage l.

(** A step of the emit handler that writes no asset and leaves
    [lastGlobalUpdate] alone when it starts with [lastGlobalUpdate] at [t]. *)
Definition WritesNothing {A} (t : Z) (m : Promise Index.State A) : Prop :=
  forall st,
    Index.lastGlobalUpdate st = t ->
    Index.assets (m st).2 = Index.assets st /\
    Index.lastGlobalUpdate (m st).2 = t.

(** A stage of the pipeline that stays within its frame: it leaves the
    write history, the asset table and the cache directory alone, only adds
    to the cache store, logs no message of the write decision and calls the
    transform at most [n] times. *)
Definition Framed {A} (w : PostProcess.World) (n : nat)
    (m : Promise PostProcess.State A) : Prop :=
  forall st,
    PostProcess.written (m st).2 = PostProcess.written st /\
    PostProcess.assets (m st).2 = PostProcess.assets st /\
    dirOf w (m st).2 = dirOf w st /\
    PostProcess.cacache st ⊆ PostProcess.cacache (m st).2 /\
    (exists l, PostProcess.logged (m st).2 = PostProcess.logged st ++ l /\
               writeMessages l = []) /\
    (exists c, PostProcess.transformCalls (m st).2
               = PostProcess.transformCalls st ++ c /\
               (length c <= n)%nat).

(** A stage that can be replayed: once it has resolved to [r], it resolves
    to [r] again from any state with the same cache directory and a cache
    store holding at least what the first run left, without adding to the
    store; when [cached] is set the replay does not call the transform. *)
Definition Replays {A} (w : PostProcess.World) (cached : bool)
    (m : Promise PostProcess.State A) : Prop :=
  forall st r,
    (m st).1 = Ok r ->
    forall st2,
      dirOf w st2 = dirOf w st ->
      PostProcess.cacache (m st).2 ⊆ PostProcess.cacache st2 ->
      (m st2).1 = Ok r /\
      PostProcess.cacache (m st2).2 = PostProcess.cacache st2 /\
      (cached = true ->
       PostProcess.transformCalls (m st2).2 = PostProcess.transformCalls st2).

(** The pattern of the glob scenario: [from] is the glob, [to] is left out. *)
Definition sourceGlob (toType : option string) (force : bool) : Index.Pattern :=
  {| Index.from := "src/**/*.js"; Index.to := None; Index.toType := toType;
     Index.force := force |}.

Definition assetOf (w : Index.World) (stat : Index.Stats) (relFileSrc : string)
    : Index.Asset :=
  {| Index.assetSize := Index.size stat;
     Index.sourcePath := absFileSrcOf w relFileSrc |}.

Definition withForce (b : bool) (pattern : Index.Pattern) : Index.Pattern :=
  {| Index.from := Index.from pattern; Index.to := Index.to pattern;
     Index.toType := Index.toType pattern; Index.force := b |}.

(** Unfolds the promise combinators. *)
Ltac promise_unfold :=
  unfold mbind, promise_bind, andThen, mret, promise_ret, resolved, rejected,
    await, modify, gets in *.

(** ** Reference definitions for the further properties *)

(** A step of the emit handler that keeps to its part of the state: it
    leaves [compilation.errors], [lastGlobalUpdate] and the tracked lists
    alone, and every asset-table entry stays; unless [forced] is set the
    entry stays as it is. *)
Definition Quiet {A} (forced : bool) (m : Promise Index.State A) : Prop :=
  forall st,
    Index.errors (m st).2 = Index.errors st /\
    Index.lastGlobalUpdate (m st).2 = Index.lastGlobalUpdate st /\
    Index.trackedFiles (m st).2 = Index.trackedFiles st /\
    Index.trackedDirs (m st).2 = Index.trackedDirs st /\
    forall key asset,
      Index.assets st !! key = Some asset ->
      if forced then is_Some (Index.assets (m st).2 !! key)
      else Index.assets (m st).2 !! key = Some asset.

(** A step of the emit handler that leaves the plugin's two dependency
    lists alone. *)
Definition KeepsDependencies {A} (m : Promise Index.State A) : Prop :=
  forall st,
    Index.fileDependencies (m st).2 = Index.fileDependencies st /\
    Index.contextDependencies (m st).2 = Index.contextDependencies st.

(** Whether the stat of [from], resolved against the context, resolves to
    a directory; a failed stat counts as not one. *)
Definition fromIsDirectory (w : Index.World) (pattern : Index.Pattern) : bool :=
  match Index.statOrNull w
          (resolve (Index.path w) [Index.context w; Index.from pattern]) with
  | Some stat => Index.isDirectory stat
  | None => false
  end.

(** A step of the emit handler that copies nothing to the file system. *)
Definition NoCopy {A} (m : Promise Index.State A) : Prop :=
  forall st, Index.copies (m st).2 = Index.copies st.

(** The pattern without its [to] and [toType]. *)
Definition withoutTo (pattern : Index.Pattern) : Index.Pattern :=
  {| Index.from := Index.from pattern; Index.to := None;
     Index.toType := None; Index.force := Index.force pattern |}.


(** A second project for the examples, at [/site]: [static] is a directory
    holding [img/x.png] and [.DS_Store], [assets/a.txt] is a file, and the
    glob [gone/*.txt] returns a match that cannot be stat'ed any more. *)
Module Site.

Definition fileStat : Index.Stats :=
  {| Index.isDirectory := false; Index.size := 42; Index.mtime := 2000 |}.

Definition dirStat : Index.Stats :=
  {| Index.isDirectory := true; Index.size := 4096; Index.mtime := 2000 |}.

Definition world : Index.World :=
  {| Index.platform := "linux";
     Index.path := posixPath "/site";
     Index.context := "/site";
     Index.statAsync := fun p =>
       if Js.eqb p "/site/static" then Ok dirStat
       else if bool_decide (p ∈ ["/site/static/img/x.png";
                                 "/site/static/.DS_Store";
                                 "/site/assets/a.txt"])
       then Ok fileStat
       else Rejected (SystemError "ENOENT" p);
     Index.globAsync := fun pattern _ =>
       if Js.eqb pattern "assets/a.txt" then Ok ["assets/a.txt"]
       else if Js.eqb pattern "assets/*.txt" then Ok ["assets/a.txt"]
       else if Js.eqb pattern "gone/*.txt" then Ok ["gone/x.txt"]
       else Ok [];
     Index.filesAsync := fun p =>
       if Js.eqb p "/site/static"
       then Ok ["/site/static/img/x.png"; "/site/static/.DS_Store"]
       else Rejected (SystemError "ENOTDIR" p);
     Index.copyAsync := fun _ _ => None;
     Index.minimatch := Minimatch.minimatch |}.

Definition pattern (from : string) (to : option string) (force : bool)
    : Index.Pattern :=
  {| Index.from := from; Index.to := to; Index.toType := None;
     Index.force := force |}.

Definition emptyState : Index.State :=
  {| Index.assets := ∅; Index.errors := []; Index.trackedFiles := [];
     Index.trackedDirs := []; Index.fileDependencies := [];
     Index.contextDependencies := []; Index.lastGlobalUpdate := 0;
     Index.copies := [] |}.

(** An asset another plugin put at [a.txt]. *)
Definition foreignAsset : Index.Asset :=
  {| Index.assetSize := 7; Index.sourcePath := "/elsewhere/a.txt" |}.

Definition occupiedState : Index.State :=
  Index.setAssets (<["out/a.txt" := foreignAsset]> ∅) emptyState.

End Site.

(** A step that leaves one part of the state, [proj], as it was. *)
Definition Preserves {S A B} (proj : S -> B) (m : Promise S A) : Prop :=
  forall st, proj (m st).2 = proj st.

(** The two cache fields of the state. *)
Definition cacheOf (st : PostProcess.State)
    : option string * gmap (string * string) PostProcess.bytes :=
  (PostProcess.cacheDir st, PostProcess.cacache st).

(** The entry of the write history for a destination and a source. *)
Definition historyOf (st : PostProcess.State) (to from : string) : option string :=
  PostProcess.written st !! to ≫= fun sources => sources !! from.

(** More patterns and states over the notes project. *)
Module Notes.

(** The doubling transform cached under an explicit key. *)
Definition keyed : PostProcess.Pattern :=
  {| PostProcess.stats := None; PostProcess.fromType := "file";
     PostProcess.toType := Some "file"; PostProcess.context := "/proj";
     PostProcess.transform := Some (fun content _ => Ok (content ++ content));
     PostProcess.cache := Some (Some "doubled");
     PostProcess.transformPath := None |}.

(** A transform that rejects, with the cache enabled. *)
Definition failing : PostProcess.Pattern :=
  {| PostProcess.stats := None; PostProcess.fromType := "file";
     PostProcess.toType := Some "file"; PostProcess.context := "/proj";
     PostProcess.transform := Some (fun _ _ => Rejected (Error "no transform"));
     PostProcess.cache := Some None;
     PostProcess.transformPath := None |}.

(** A pattern that carries the stats of a directory. *)
Definition ofDirectory : PostProcess.Pattern :=
  {| PostProcess.stats :=
       Some {| PostProcess.isDirectory := true; PostProcess.size := 4096 |};
     PostProcess.fromType := "glob";
     PostProcess.toType := Some "file"; PostProcess.context := "/proj";
     PostProcess.transform := None; PostProcess.cache := None;
     PostProcess.transformPath := None |}.

(** A plain pattern: no transform, no cache, no path transform. *)
Definition plain : PostProcess.Pattern :=
  {| PostProcess.stats := None; PostProcess.fromType := "file";
     PostProcess.toType := Some "file"; PostProcess.context := "/proj";
     PostProcess.transform := None; PostProcess.cache := None;
     PostProcess.transformPath := None |}.

(** A pattern whose [transformPath] puts the destination below [renamed],
    with a doubled separator. *)
Definition renaming : PostProcess.Pattern :=
  {| PostProcess.stats := None; PostProcess.fromType := "file";
     PostProcess.toType := Some "file"; PostProcess.context := "/proj";
     PostProcess.transform := None; PostProcess.cache := None;
     PostProcess.transformPath := Some (fun to _ => Ok ("renamed//" +:+ to)) |}.

(** Another file, with other content behind it for the transform stage. *)
Definition other : PostProcess.File :=
  {| PostProcess.absoluteFrom := "/proj/other.txt";
     PostProcess.relativeFrom := "other.txt";
     PostProcess.webpackTo := "other.txt";
     PostProcess.webpackToRegExp := None;
     PostProcess.force := false |}.

(** A compilation in which [out.txt] is taken by an entry of another
    plugin. *)
Definition occupied : PostProcess.State :=
  PostProcess.setAssets
    (<["out.txt" := {| PostProcess.assetSize := 1;
                       PostProcess.assetSource := list_byte_of_string "x" |}]> ∅)
    Examples.initial.

End Notes.
(** ** Node's path functions on small inputs *)

Example posix_resolve_1 :
  Posix.resolve "/proj" ["/proj"; "src/lib/b.js"] = "/proj/src/lib/b.js".
Proof. reflexivity. Qed.

Example posix_resolve_2 : Posix.resolve "/proj" ["/proj"; "../x/./y/"] = "/x/y".
Proof. reflexivity. Qed.

Example posix_join_1 : Posix.join ["/out/"; "a.js"] = "/out/a.js".
Proof. reflexivity. Qed.

Example posix_join_2 : Posix.join [""; "a.js"] = "a.js".
Proof. reflexivity. Qed.

Example posix_join_3 : Posix.join ["out/"; "../a//b/"] = "a/b/".
Proof. reflexivity. Qed.

Example posix_relative_1 : Posix.relative "/proj" "/proj" "src/lib" = "src/lib".
Proof. reflexivity. Qed.

Example posix_relative_2 : Posix.relative "/home/u" "/proj/a" "/proj/b/c" = "../b/c".
Proof. reflexivity. Qed.

Example posix_dirname_1 :
  map Posix.dirname ["src/a.js"; "src/lib/b.js"; "a.js"; "/a"; "/a/b/"; "/"]
  = ["src"; "src/lib"; "."; "/"; "/a"; "/"].
Proof. reflexivity. Qed.

Example posix_basename_1 :
  map Posix.basename ["src/a.js"; "/proj/src/lib/b.js"; "a.js"; "/a/b/"; "/"]
  = ["a.js"; "b.js"; "a.js"; "b"; ""].
Proof. reflexivity. Qed.

Example posix_extname_1 :
  map Posix.extname ["/out"; "/out/"; "out/a.txt"; ".bashrc"; "a.b.c"; "a."; ".."; "/o.d/x"]
  = [""; ""; ".txt"; ""; ".c"; "."; ""; ""].
Proof. reflexivity. Qed.

(** ** Node's path functions on normalised paths *)

Lemma split_not_nil (c : ascii) (s : string) : Js.split c s <> [].
Proof.
  destruct s as [|x s]; simpl; [done|].
  destruct (Ascii.eqb x c); [done|]. by destruct (Js.split c s).
Qed.

Lemma split_app (c : ascii) (a b : string) :
  Js.split c (a +:+ String c b) = Js.split c a ++ Js.split c b.
Proof.
  induction a as [|x a IH]; simpl.
  - by rewrite Ascii.eqb_refl.
  - destruct (Ascii.eqb x c); [by rewrite IH|].
    rewrite IH. pose proof (split_not_nil c a).
    by destruct (Js.split c a).
Qed.

Lemma split_no_separator (c : ascii) (s : string) :
  Js.includes c s = false -> Js.split c s = [s].
Proof.
  induction s as [|x s IH]; simpl; [done|].
  intros H. apply orb_false_iff in H as [Hx Hs].
  rewrite Hx, (IH Hs). done.
Qed.

Lemma validSegment_spec (s : string) :
  validSegment s = true ->
  Js.truthy s = true /\ Js.eqb s "." = false /\ Js.eqb s ".." = false /\
  Js.includes Posix.slash s = false.
Proof.
  unfold validSegment. rewrite !andb_true_iff, !negb_true_iff. tauto.
Qed.

Lemma split_join (segments : list string) :
  segments <> [] ->
  Forall (fun s => validSegment s = true) segments ->
  Js.split Posix.slash (Js.join "/" segments) = segments.
Proof.
  intros Hne Hall. induction Hall as [|s l Hs Hl IH]; [done|].
  apply validSegment_spec in Hs as (_ & _ & _ & Hs).
  destruct l as [|s' l].
  - by apply split_no_separator.
  - change (Js.join "/" (s :: s' :: l))
      with (s +:+ String Posix.slash (Js.join "/" (s' :: l))).
    rewrite split_app, (split_no_separator _ _ Hs), IH; done.
Qed.

Lemma normalizeArray_go_valid (parts : list string) (above : bool)
    (res : list string) :
  Forall (fun s => s = "" \/ validSegment s = true) parts ->
  Posix.normalizeArray_go parts above res
  = rev res ++ filter (fun s => Js.truthy s = true) parts.
Proof.
  intros Hall. revert res.
  induction Hall as [|s l Hs Hl IH]; intros res; simpl.
  - by rewrite app_nil_r.
  - destruct Hs as [->|Hs]; simpl.
    + rewrite IH. by rewrite filter_cons, decide_False.
    + apply validSegment_spec in Hs as (Ht & Hd & Hdd & _).
      rewrite Ht, Hd, Hdd. simpl. rewrite IH. simpl.
      rewrite filter_cons, decide_True by done. by rewrite <- app_assoc.
Qed.

Lemma filter_truthy_valid (l : list string) :
  Forall (fun s => validSegment s = true) l ->
  filter (fun s => Js.truthy s = true) l = l.
Proof.
  induction 1 as [|s l Hs Hl IH]; [done|].
  apply validSegment_spec in Hs as (Ht & _).
  by rewrite filter_cons, decide_True, IH.
Qed.

Lemma split_join_parts (segments : list string) :
  Forall (fun s => validSegment s = true) segments ->
  Forall (fun s => s = "" \/ validSegment s = true)
    (Js.split Posix.slash (Js.join "/" segments)) /\
  filter (fun s => Js.truthy s = true)
    (Js.split Posix.slash (Js.join "/" segments)) = segments.
Proof.
  intros Hall. destruct segments as [|s l].
  - split; [repeat constructor; by left | reflexivity].
  - rewrite split_join by done. split.
    + eapply Forall_impl; [exact Hall|]. intros; by right.
    + by apply filter_truthy_valid.
Qed.

Lemma join_relative_head (segments : list string) :
  segments <> [] ->
  Forall (fun s => validSegment s = true) segments ->
  Js.truthy (Js.join "/" segments) = true /\
  Posix.isAbsolute (Js.join "/" segments) = false.
Proof.
  intros Hne Hall. destruct Hall as [|s l Hs Hl]; [done|].
  apply validSegment_spec in Hs as (Ht & _ & _ & Hs).
  destruct s as [|c s]; [done|]. simpl in Hs.
  apply orb_false_iff in Hs as [Hc _].
  destruct l; simpl; by rewrite ?Hc.
Qed.

Lemma resolve_absolute (cwd : string) (segments : list string) :
  Forall (fun s => validSegment s = true) segments ->
  Posix.resolve cwd [absolutePath segments] = absolutePath segments.
Proof.
  intros Hall. unfold Posix.resolve, absolutePath. simpl.
  change (("" +:+ Js.join "/" segments) +:+ "/" +:+ "")
    with (Js.join "/" segments +:+ String Posix.slash "").
  rewrite split_app.
  destruct (split_join_parts segments Hall) as [Hparts Hfilter].
  unfold Posix.normalizeArray.
  rewrite normalizeArray_go_valid.
  - simpl. rewrite filter_cons, decide_False by done.
    rewrite filter_app, Hfilter. simpl.
    rewrite filter_cons, decide_False by done. by rewrite app_nil_r.
  - constructor; [by left|]. apply Forall_app. split; [done|].
    repeat constructor; by left.
Qed.

Lemma resolve_relative (segments rel : list string) :
  Forall (fun s => validSegment s = true) segments ->
  Forall (fun s => validSegment s = true) rel ->
  rel <> [] ->
  Posix.resolve (absolutePath segments) [Js.join "/" rel]
  = absolutePath (segments ++ rel).
Proof.
  intros Hall Hrel Hne.
  destruct (join_relative_head rel Hne Hrel) as [Ht Habs].
  unfold Posix.resolve. simpl. rewrite Ht, Habs. simpl.
  unfold absolutePath. simpl.
  change (("" +:+ Js.join "/" segments) +:+ "/" +:+ Js.join "/" rel +:+ "/" +:+ "")
    with (Js.join "/" segments
          +:+ String Posix.slash (Js.join "/" rel +:+ String Posix.slash "")).
  rewrite !split_app.
  destruct (split_join_parts segments Hall) as [Hparts Hfilter].
  destruct (split_join_parts rel Hrel) as [Hparts' Hfilter'].
  unfold Posix.normalizeArray.
  rewrite normalizeArray_go_valid.
  - simpl. rewrite filter_cons, decide_False by done.
    rewrite !filter_app, Hfilter, Hfilter'. simpl.
    rewrite filter_cons, decide_False by done.
    rewrite filter_nil, app_nil_r. done.
  - constructor; [by left|]. rewrite !Forall_app. repeat split; try done.
    repeat constructor; by left.
Qed.

Lemma dropEmpty_valid (l : list string) :
  Forall (fun s => validSegment s = true) l -> Posix.dropEmpty l = l.
Proof.
  destruct 1 as [|s l Hs Hl]; [done|].
  apply validSegment_spec in Hs as (Ht & _). simpl. by rewrite Ht.
Qed.

Lemma trim_split_join (segments : list string) :
  Forall (fun s => validSegment s = true) segments ->
  Posix.trim (Js.split Posix.slash (Js.join "/" segments)) = segments.
Proof.
  intros Hall. destruct segments as [|s l]; [reflexivity|].
  rewrite split_join by done. unfold Posix.trim.
  rewrite (dropEmpty_valid _ Hall).
  rewrite dropEmpty_valid; [apply rev_involutive|].
  by apply List.Forall_rev.
Qed.

Lemma relative_go_prefix (segments rel : list string) :
  Posix.relative_go segments (segments ++ rel) = rel.
Proof.
  induction segments as [|s l IH]; simpl.
  - by destruct rel.
  - unfold Js.eqb. by rewrite String.eqb_refl.
Qed.

(** From an absolute, normalised base that is also the working directory,
    a relative path made of plain segments is relative to the base as it
    is written. *)
Lemma relative_from_base (segments rel : list string) :
  Forall (fun s => validSegment s = true) segments ->
  Forall (fun s => validSegment s = true) rel ->
  rel <> [] ->
  Posix.relative (absolutePath segments) (absolutePath segments) (Js.join "/" rel)
  = Js.join "/" rel.
Proof.
  intros Hall Hrel Hne. unfold Posix.relative.
  rewrite resolve_absolute, resolve_relative by done.
  change (Js.slice1 (absolutePath segments)) with (Js.join "/" segments).
  change (Js.slice1 (absolutePath (segments ++ rel)))
    with (Js.join "/" (segments ++ rel)).
  rewrite !trim_split_join by (try apply Forall_app; done).
  by rewrite relative_go_prefix.
Qed.

(** ** Glob matching on small inputs *)

Example minimatch_examples :
  map (Minimatch.minimatch "src/a.md")
      ["*.md"; "a.*"; "src/*"; "src/*.js"; "?.md"; "#x"; ""; "*"]
  = [true; true; true; false; true; false; false; true].
Proof. reflexivity. Qed.

(** ** The promise monad *)

Lemma andThen_ok {S A B} (m : Promise S A) (k : A -> Promise S B) st a st' :
  m st = (Ok a, st') -> (m ≫= k) st = k a st'.
Proof. intros H. unfold mbind, promise_bind, andThen. by rewrite H. Qed.

Lemma andThen_rejected {S A B} (m : Promise S A) (k : A -> Promise S B) st e st' :
  m st = (Rejected e, st') -> (m ≫= k) st = (Rejected e, st').
Proof. intros H. unfold mbind, promise_bind, andThen. by rewrite H. Qed.

Lemma each_nil {S A} (f : A -> Promise S unit) st : each f [] st = (Ok tt, st).
Proof. reflexivity. Qed.

Lemma each_cons_ok {S A} (f : A -> Promise S unit) x xs st st' :
  f x st = (Ok tt, st') -> each f (x :: xs) st = each f xs st'.
Proof. intros H. simpl. by rewrite (andThen_ok _ _ _ _ _ H). Qed.

Lemma each_cons_rejected {S A} (f : A -> Promise S unit) x xs st e st' :
  f x st = (Rejected e, st') -> each f (x :: xs) st = (Rejected e, st').
Proof. intros H. simpl. by rewrite (andThen_rejected _ _ _ _ _ H). Qed.

(** ** The factory *)

(** C10: with [patterns] undefined the factory does not throw; the plugin
    it returns holds the empty pattern list, and its emit handler issues no
    copy, leaves the asset table as it was and reports no error. *)
Theorem module_exports_undefined (options : option Index.Options) :
  Index.module_exports Index.JsUndefined options
    = Index.Return {| Index.patterns := []; Index.options := options |} /\
  forall w now st,
    let st' :=
      Index.pluginEmit w now
        {| Index.patterns := []; Index.options := options |} st in
    Index.assets st' = Index.assets st /\
    Index.copies st' = Index.copies st /\
    Index.errors st' = Index.errors st /\
    Index.fileDependencies st' = Index.fileDependencies st /\
    Index.contextDependencies st' = Index.contextDependencies st.
Proof. split; [reflexivity|]. intros w now st. cbn. repeat split. Qed.

(** C8, as stated, fails: [undefined] is not a list, and the factory
    returns a plugin for it. *)
Lemma module_exports_undefined_is_not_refused :
  Index.isArray Index.JsUndefined = false /\
  Index.module_exports Index.JsUndefined None
    = Index.Return {| Index.patterns := []; Index.options := None |}.
Proof. split; reflexivity. Qed.

(** C8 (amended): when [patterns] is neither a list nor undefined the
    factory throws at once.  It is a function of its two arguments alone,
    with no file system to read and no state to change; and a build whose
    configuration calls it ends with that error, without an emit handler
    having run on any state. *)
Theorem module_exports_rejects_non_list
    (patterns : Index.JsValue) (options : option Index.Options) :
  Index.isArray patterns = false ->
  patterns <> Index.JsUndefined ->
  Index.module_exports patterns options
    = Index.Throw (Error "CopyWebpackPlugin: patterns must be an array") /\
  forall w now st,
    Index.build w now patterns options st
    = Index.Throw (Error "CopyWebpackPlugin: patterns must be an array").
Proof.
  intros Harr Hundef. unfold Index.build.
  assert (H : Index.module_exports patterns options
              = Index.Throw (Error "CopyWebpackPlugin: patterns must be an array"))
    by (destruct patterns; done).
  split; [exact H|]. intros w now st. by rewrite H.
Qed.

(** A string in place of the list. *)
Lemma module_exports_rejects_non_list_witness :
  Index.module_exports (Index.JsString "src/*.js") None
    = Index.Throw (Error "CopyWebpackPlugin: patterns must be an array") /\
  Index.build Examples.project 5000 (Index.JsString "src/*.js") None
    Examples.emptyState
  = Index.Throw (Error "CopyWebpackPlugin: patterns must be an array").
Proof.
  destruct (module_exports_rejects_non_list (Index.JsString "src/*.js") None)
    as [Hthrow Hbuild]; [reflexivity | discriminate |].
  split; [exact Hthrow | apply Hbuild].
Defined.

(** ** The ignore filter *)





(** ** Stat failures of a pattern's source *)





(** ** Absolute destinations *)

Section AbsoluteDestinations.

Variable w : Index.World.
Variable ignoreList : option (list string).
Variable pattern : Index.Pattern.
Variable absDest : string.
Hypothesis absolute :
  Index.absDestOf w (default "" (Index.to pattern)) = Some absDest.

#[local] Abbreviation copyMatch := (copyMatch w ignoreList pattern absDest).
#[local] Abbreviation kept := (kept w ignoreList).

Lemma copyMatch_ignored (m : string) (st : Index.State) :
  Index.shouldIgnore w m ignoreList = true -> copyMatch m st = (Ok tt, st).
Proof. intros Hig. unfold copyMatch. by rewrite Hig. Qed.

Lemma copyMatch_kept (m : string) (st : Index.State) :
  Index.shouldIgnore w m ignoreList = false ->
  copyMatch m st
  = (match Index.copyAsync w (absFileSrcOf w m) (snd (copyOf w pattern absDest m)) with
     | None => Ok tt
     | Some e => Rejected e
     end,
     Index.setCopies (Index.copies st ++ [copyOf w pattern absDest m])
       (Index.setFileDependencies
          (Index.fileDependencies st ++ [absFileSrcOf w m]) st)).
Proof.
  intros Hig. unfold copyMatch, Index.fsCopy. rewrite Hig.
  promise_unfold. simpl.
  by destruct (Index.copyAsync w _ _).
Qed.

Lemma copy_loop (matches : list string) (st : Index.State) :
  each copyMatch matches st
  = (copyResult w (map (copyOf w pattern absDest) (kept matches)),
     Index.setCopies
       (Index.copies st ++ issued w (map (copyOf w pattern absDest) (kept matches)))
       (Index.setFileDependencies
          (Index.fileDependencies st
           ++ map fst (issued w (map (copyOf w pattern absDest) (kept matches))))
          st)).
Proof.
  revert st. induction matches as [|m ms IH]; intros st.
  - simpl. rewrite !app_nil_r. by destruct st.
  - unfold kept in *. rewrite filter_cons.
    destruct (Index.shouldIgnore w m ignoreList) eqn:Hig.
    + rewrite decide_False by done.
      rewrite (each_cons_ok _ _ _ _ _ (copyMatch_ignored m st Hig)). apply IH.
    + rewrite decide_True by done.
      pose proof (copyMatch_kept m st Hig) as Hstep.
      destruct (Index.copyAsync w (absFileSrcOf w m)
                  (snd (copyOf w pattern absDest m))) as [e|] eqn:Hcopy.
      * rewrite (each_cons_rejected _ _ _ _ _ _ Hstep).
        simpl in Hcopy |- *. by rewrite Hcopy.
      * rewrite (each_cons_ok _ _ _ _ _ Hstep), IH.
        simpl in Hcopy |- *. rewrite Hcopy. by rewrite <- !app_assoc.
Qed.

Lemma globBranch_absolute (stat : option Index.Stats) (st : Index.State) :
  Index.globBranch w ignoreList pattern stat st
  = (match Index.globAsync w (Index.from pattern) (Index.context w) with
     | Ok _ =>
         copyResult w (map (copyOf w pattern absDest) (keptMatches w ignoreList pattern))
     | Rejected e => Rejected e
     end,
     Index.setCopies
       (Index.copies st
        ++ issued w (map (copyOf w pattern absDest) (keptMatches w ignoreList pattern)))
       (Index.setFileDependencies
          (Index.fileDependencies st
           ++ map fst (issued w (map (copyOf w pattern absDest)
                                   (keptMatches w ignoreList pattern))))
          st)).
Proof.
  unfold Index.globBranch, keptMatches. cbv zeta. rewrite absolute.
  destruct (Index.globAsync w (Index.from pattern) (Index.context w))
    as [matches|e] eqn:Hglob.
  - erewrite andThen_ok; [|reflexivity]. apply (copy_loop matches st).
  - erewrite andThen_rejected; [|reflexivity]. simpl.
    rewrite !app_nil_r. by destruct st.
Qed.

End AbsoluteDestinations.

Lemma absDestOf_eq (w : Index.World) (relDest absDest : string) :
  Index.absDestOf w relDest = Some absDest -> absDest = relDest.
Proof.
  unfold Index.absDestOf. intros H.
  repeat match type of H with
         | context [if ?b then _ else _] => destruct b
         | context [match ?o with Some _ => _ | None => _ end] => destruct o
         end; congruence.
Qed.

Lemma processPattern_not_directory
    (w : Index.World) (ignoreList : option (list string)) (pattern : Index.Pattern) :
  (forall stat,
     Index.statOrNull w (absFileSrcOf w (Index.from pattern)) = Some stat ->
     Index.isDirectory stat = false) ->
  Index.processPattern w ignoreList pattern
  = Index.globBranch w ignoreList pattern
      (Index.statOrNull w (absFileSrcOf w (Index.from pattern))).
Proof.
  intros Hfile. unfold Index.processPattern, absFileSrcOf in *.
  destruct (Index.statOrNull w _) as [stat|]; [|done].
  by rewrite (Hfile stat eq_refl).
Qed.




(** C9: a pattern whose destination is absolute and whose [from] is not
    an existing directory.  Every match that is not ignored is copied
    straight to the file system, to the destination joined with its base
    name when the destination looks like a directory and to the
    destination itself otherwise; the asset table is left as it was; and
    neither [force], nor the asset table, nor [lastGlobalUpdate] is read:
    with any other values for the three the pattern settles the same way
    and leaves the same state, the other values apart. *)
Theorem absolute_destination_bypasses_assets
    (w : Index.World) (ignoreList : option (list string))
    (pattern : Index.Pattern) (toPath : string) (st : Index.State) :
  Index.to pattern = Some toPath ->
  Index.absDestOf w toPath = Some toPath ->
  (forall stat,
     Index.statOrNull w (absFileSrcOf w (Index.from pattern)) = Some stat ->
     Index.isDirectory stat = false) ->
  let r := Index.processPattern w ignoreList pattern st in
  Index.assets r.2 = Index.assets st /\
  Index.copies r.2
  = Index.copies st
    ++ issued w
         (map (fun relFileSrc =>
                 (absFileSrcOf w relFileSrc,
                  if Index.toLooksLikeDirectory w pattern
                  then join (Index.path w)
                         [toPath; basename (Index.path w) (absFileSrcOf w relFileSrc)]
                  else toPath))
              (keptMatches w ignoreList pattern)) /\
  forall force' assets' lastGlobalUpdate',
    Index.processPattern w ignoreList (withForce force' pattern)
      (Index.setAssets assets' (Index.setLastGlobalUpdate lastGlobalUpdate' st))
    = (r.1, Index.setAssets assets' (Index.setLastGlobalUpdate lastGlobalUpdate' r.2)).
Proof.
  intros Hto Habs Hfile r. subst r.
  rewrite (processPattern_not_directory w ignoreList pattern Hfile).
  rewrite (globBranch_absolute w ignoreList pattern toPath); [|by rewrite Hto].
  split; [reflexivity|]. split; [reflexivity|].
  intros force' assets' lastGlobalUpdate'.
  rewrite (processPattern_not_directory w ignoreList (withForce force' pattern) Hfile).
  rewrite (globBranch_absolute w ignoreList (withForce force' pattern) toPath);
    [|simpl; by rewrite Hto].
  reflexivity.
Qed.

(** The same pattern, also run forced, with another asset table and clock. *)
Lemma absolute_destination_bypasses_assets_witness :
  let r := Index.processPattern Examples.project None Examples.toAbsoluteDir
             Examples.emptyState in
  Index.assets r.2 = ∅ /\
  Index.copies r.2
  = [("/proj/src/a.js", "/out/a.js"); ("/proj/src/lib/b.js", "/out/b.js")] /\
  Index.processPattern Examples.project None
    (withForce true Examples.toAbsoluteDir)
    (Index.setAssets ∅ (Index.setLastGlobalUpdate 7000 Examples.emptyState))
  = (r.1, Index.setAssets ∅ (Index.setLastGlobalUpdate 7000 r.2)).
Proof.
  destruct (absolute_destination_bypasses_assets Examples.project None
              Examples.toAbsoluteDir "/out" Examples.emptyState
              eq_refl eq_refl) as (Hassets & Hcopies & Hsame).
  { intros stat Hstat. vm_compute in Hstat. discriminate. }
  split; [exact Hassets|]. split; [exact Hcopies|]. apply Hsame.
Defined.

(** ** Glob matches below the context *)

(** C2, as stated, fails: with the context at [/proj], the pattern
    [{from: "src/**/*.js"}] and the matches [src/a.js] and [src/lib/b.js],
    the asset table ends with the keys [src/a.js] and [src/lib/b.js];
    [a.js] and [lib/b.js] are not keys of it. *)
Lemma glob_keys_keep_source_directory :
  map fst (map_to_list
    (Index.assets
       (Index.emit Examples.project 5000 [Examples.globPattern] None
          Examples.emptyState)))
  = ["src/a.js"; "src/lib/b.js"] /\
  Index.assets
    (Index.emit Examples.project 5000 [Examples.globPattern] None
       Examples.emptyState) !! "a.js" = None /\
  Index.assets
    (Index.emit Examples.project 5000 [Examples.globPattern] None
       Examples.emptyState) !! "lib/b.js" = None.
Proof. repeat split; vm_compute; reflexivity. Qed.

Section GlobScenario.

Variable w : Index.World.
Variable segments : list string.
Hypothesis posix : Index.path w = posixPath (Index.context w).
Hypothesis base : Index.context w = absolutePath segments.
Hypothesis normalised : Forall (fun s => validSegment s = true) segments.

Lemma absDestOf_empty : Index.absDestOf w "" = None.
Proof. unfold Index.absDestOf. by destruct (Js.eqb _ _). Qed.

Lemma relFileDestOf_a (pattern : Index.Pattern) :
  Index.relFileDestOf w pattern None "src/a.js" = "src/a.js".
Proof.
  unfold Index.relFileDestOf. rewrite posix, base. simpl.
  change (Posix.dirname "src/a.js") with (Js.join "/" ["src"]).
  rewrite relative_from_base; [reflexivity | done | |done].
  repeat constructor.
Qed.

Lemma relFileDestOf_b (pattern : Index.Pattern) :
  Index.relFileDestOf w pattern None "src/lib/b.js" = "src/lib/b.js".
Proof.
  unfold Index.relFileDestOf. rewrite posix, base. simpl.
  change (Posix.dirname "src/lib/b.js") with (Js.join "/" ["src"; "lib"]).
  rewrite relative_from_base; [reflexivity | done | |done].
  repeat constructor.
Qed.

End GlobScenario.

Lemma writeFileToAssets_fresh (w : Index.World) (absFileSrc relFileDest : string)
    (forceWrite : bool) (lastGlobalUpdate : Z) (st : Index.State)
    (stat : Index.Stats) :
  Index.assets st !! relFileDest = None ->
  Index.statAsync w absFileSrc = Ok stat ->
  Index.mtime stat > lastGlobalUpdate ->
  Index.writeFileToAssets w absFileSrc relFileDest forceWrite lastGlobalUpdate st
  = (Ok tt,
     Index.setAssets
       (<[relFileDest := {| Index.assetSize := Index.size stat;
                            Index.sourcePath := absFileSrc |}]>
          (Index.assets st)) st).
Proof.
  intros Hfree Hstat Hnew. unfold Index.writeFileToAssets. promise_unfold.
  rewrite Hfree, Hstat. simpl.
  by rewrite (proj2 (Z.gtb_gt _ _) Hnew).
Qed.

(** C2 (amended): the context is any absolute, normalised directory and
    is the working directory; the pattern is [{from: "src/**/*.js"}] with
    no [to]; its [from] is not an existing path; the glob matches
    [src/a.js] and [src/lib/b.js], neither is ignored, both are files
    modified after the last pass, and neither key is in the asset table
    yet.  Then the emit handler adds exactly the keys [src/a.js] and
    [src/lib/b.js]: each match is written under its path relative to the
    context, directory part of the glob included. *)
Theorem glob_matches_keep_context_relative_path
    (w : Index.World) (segments : list string)
    (toType : option string) (force : bool) (opts : option Index.Options)
    (e : Err) (statA statB : Index.Stats) (now : Z) (st : Index.State) :
  Index.path w = posixPath (Index.context w) ->
  Index.context w = absolutePath segments ->
  Forall (fun s => validSegment s = true) segments ->
  Index.statAsync w (absFileSrcOf w "src/**/*.js") = Rejected e ->
  Index.globAsync w "src/**/*.js" (Index.context w)
    = Ok ["src/a.js"; "src/lib/b.js"] ->
  Index.shouldIgnore w "src/a.js" (opts ≫= Index.ignore) = false ->
  Index.shouldIgnore w "src/lib/b.js" (opts ≫= Index.ignore) = false ->
  Index.statAsync w (absFileSrcOf w "src/a.js") = Ok statA ->
  Index.statAsync w (absFileSrcOf w "src/lib/b.js") = Ok statB ->
  Index.mtime statA > Index.lastGlobalUpdate st ->
  Index.mtime statB > Index.lastGlobalUpdate st ->
  Index.assets st !! "src/a.js" = None ->
  Index.assets st !! "src/lib/b.js" = None ->
  Index.assets (Index.emit w now [sourceGlob toType force] opts st)
  = <["src/lib/b.js" := assetOf w statB "src/lib/b.js"]>
      (<["src/a.js" := assetOf w statA "src/a.js"]> (Index.assets st)).
Proof.
  intros Hposix Hbase Hnorm Hstat Hglob HigA HigB HstatA HstatB HnewA HnewB
    HfreeA HfreeB.
  unfold absFileSrcOf in *.
  unfold Index.emit, each, Index.processPattern, Index.statOrNull.
  cbn [Index.from sourceGlob]. rewrite Hstat.
  unfold Index.globBranch. cbn [Index.from Index.to Index.force sourceGlob default].
  rewrite absDestOf_empty, Hglob. promise_unfold.
  cbn [each]. promise_unfold. rewrite HigA, HigB.
  rewrite (relFileDestOf_a w segments Hposix Hbase Hnorm).
  rewrite (relFileDestOf_b w segments Hposix Hbase Hnorm).
  cbn [Index.lastGlobalUpdate Index.setFileDependencies].
  erewrite writeFileToAssets_fresh; [|exact HfreeA|exact HstatA|exact HnewA].
  cbn [Index.lastGlobalUpdate Index.setFileDependencies Index.setAssets].
  erewrite writeFileToAssets_fresh;
    [|cbn; rewrite lookup_insert_ne by done; exact HfreeB|exact HstatB|exact HnewB].
  reflexivity.
Qed.

(** The project of the examples, whose context is [/proj]. *)
Lemma glob_matches_keep_context_relative_path_witness :
  Index.assets
    (Index.emit Examples.project 5000 [sourceGlob None false] None
       Examples.emptyState)
  = <["src/lib/b.js" := assetOf Examples.project Examples.fileStat "src/lib/b.js"]>
      (<["src/a.js" := assetOf Examples.project Examples.fileStat "src/a.js"]> ∅).
Proof.
  apply (glob_matches_keep_context_relative_path Examples.project ["proj"]
           None false None (SystemError "ENOENT" "/proj/src/**/*.js")
           Examples.fileStat Examples.fileStat 5000 Examples.emptyState);
    try reflexivity.
  repeat constructor.
Defined.

(** ** A pass over files that are not newer than the last one *)

Section NothingNew.

Variable w : Index.World.
Variable t : Z.
Hypothesis notNewer :
  forall p stat, Index.statAsync w p = Ok stat -> Index.mtime stat <= t.

Lemma WritesNothing_ret {A} (a : A) :
  WritesNothing t (mret a : Promise Index.State A).
Proof. intros st Ht. done. Qed.

Lemma WritesNothing_await {A} (r : Result A) : WritesNothing t (await r).
Proof. intros st Ht. done. Qed.

Lemma WritesNothing_bind {A B} (m : Promise Index.State A)
    (k : A -> Promise Index.State B) :
  WritesNothing t m -> (forall a, WritesNothing t (k a)) ->
  WritesNothing t (m ≫= k).
Proof.
  intros Hm Hk st Ht. unfold mbind, promise_bind, andThen.
  destruct (Hm st Ht) as [Ha Hl].
  destruct (m st) as [[a|e] st']; simpl in *; [|done].
  destruct (Hk a st' Hl) as [Ha' Hl']. split; congruence.
Qed.

Lemma WritesNothing_each {A} (f : A -> Promise Index.State unit) (items : list A) :
  (forall x, WritesNothing t (f x)) -> WritesNothing t (each f items).
Proof.
  intros Hf. induction items as [|x items IH]; [apply WritesNothing_ret|].
  simpl. apply WritesNothing_bind; [apply Hf | intros _; apply IH].
Qed.

Lemma WritesNothing_fsCopy (src dest : string) :
  WritesNothing t (Index.fsCopy w src dest).
Proof.
  unfold Index.fsCopy. apply WritesNothing_bind; [by intros st Ht|].
  intros _. destruct (Index.copyAsync w src dest); by intros st Ht.
Qed.

Lemma WritesNothing_writeFileToAssets (absFileSrc relFileDest : string)
    (forceWrite : bool) :
  WritesNothing t (Index.writeFileToAssets w absFileSrc relFileDest forceWrite t).
Proof.
  intros st Ht. unfold Index.writeFileToAssets. promise_unfold.
  destruct (bool_decide _ && _); [done|].
  destruct (Index.statAsync w absFileSrc) as [stat|e] eqn:Hstat; [|done].
  pose proof (notNewer _ _ Hstat) as Hle.
  destruct (Index.mtime stat >? t) eqn:Hgt; [|done].
  apply Z.gtb_gt in Hgt. lia.
Qed.

Lemma WritesNothing_withLastGlobalUpdate {A} (k : Z -> Promise Index.State A) :
  WritesNothing t (k t) ->
  WritesNothing t (lastGlobalUpdate ← gets Index.lastGlobalUpdate; k lastGlobalUpdate).
Proof.
  intros Hk st Ht. unfold mbind, promise_bind, andThen, gets.
  rewrite Ht. by apply Hk.
Qed.

Lemma WritesNothing_writeDirectoryToAssets (absDirSrc relDirDest : string)
    (forceWrite : bool) (ignoreList : option (list string)) :
  WritesNothing t
    (Index.writeDirectoryToAssets w absDirSrc relDirDest forceWrite t ignoreList).
Proof.
  unfold Index.writeDirectoryToAssets.
  apply WritesNothing_bind; [apply WritesNothing_await|]. intros files.
  apply WritesNothing_each. intros absFileSrc. cbv zeta.
  destruct (Index.shouldIgnore w _ ignoreList); [apply WritesNothing_ret|].
  apply WritesNothing_writeFileToAssets.
Qed.

Lemma WritesNothing_processPattern (ignoreList : option (list string))
    (pattern : Index.Pattern) :
  WritesNothing t (Index.processPattern w ignoreList pattern).
Proof.
  assert (Hglob : forall stat,
            WritesNothing t (Index.globBranch w ignoreList pattern stat)).
  { intros stat. unfold Index.globBranch. cbv zeta.
    apply WritesNothing_bind; [apply WritesNothing_await|]. intros matches.
    apply WritesNothing_each. intros relFileSrc.
    destruct (Index.shouldIgnore w _ ignoreList); [apply WritesNothing_ret|].
    apply WritesNothing_bind; [by intros st Ht|]. intros _.
    destruct (Index.absDestOf w _); [apply WritesNothing_fsCopy|].
    apply (WritesNothing_withLastGlobalUpdate
             (fun l => Index.writeFileToAssets w _ _ _ l)).
    apply WritesNothing_writeFileToAssets. }
  unfold Index.processPattern.
  destruct (Index.statOrNull w _) as [stat|]; [|apply Hglob].
  destruct (Index.isDirectory stat); [|apply Hglob].
  unfold Index.directoryBranch. cbv zeta.
  apply WritesNothing_bind; [by intros st Ht|]. intros _.
  destruct (Index.absDestOf w _);
    [destruct (Index.toLooksLikeDirectory w pattern);
       [apply WritesNothing_fsCopy|]|];
    apply (WritesNothing_withLastGlobalUpdate
             (fun l => Index.writeDirectoryToAssets w _ _ _ l _));
    apply WritesNothing_writeDirectoryToAssets.
Qed.

End NothingNew.

(** The entry point's own form of idempotence: when no file the world can
    stat was modified after [lastGlobalUpdate], which a completed emit
    sets to the time it ended, the emit handler leaves the asset table as
    it was, whatever the patterns. *)
Theorem emit_writes_nothing_new
    (w : Index.World) (now : Z) (patterns : list Index.Pattern)
    (opts : option Index.Options) (st : Index.State) :
  (forall p stat,
     Index.statAsync w p = Ok stat -> Index.mtime stat <= Index.lastGlobalUpdate st) ->
  Index.assets (Index.emit w now patterns opts st) = Index.assets st.
Proof.
  intros Hold. unfold Index.emit.
  destruct (WritesNothing_each (Index.lastGlobalUpdate st)
              (Index.processPattern w (opts ≫= Index.ignore)) patterns
              (WritesNothing_processPattern w _ Hold _) st eq_refl) as [Ha _].
  by destruct (each _ patterns st) as [[[]|e] st'].
Qed.

(** Two passes over the project of the examples, at times 5000 and 9000. *)
Lemma emit_writes_nothing_new_witness :
  Index.assets
    (Index.emit Examples.project 9000 [Examples.globPattern] None
       (Index.emit Examples.project 5000 [Examples.globPattern] None
          Examples.emptyState))
  = Index.assets
      (Index.emit Examples.project 5000 [Examples.globPattern] None
         Examples.emptyState).
Proof.
  apply (emit_writes_nothing_new Examples.project 9000 [Examples.globPattern] None).
  intros p stat Hstat.
  change (Index.mtime stat <= 5000).
  unfold Examples.project, Index.statAsync in Hstat.
  destruct (bool_decide _); [|discriminate].
  injection Hstat as <-. vm_compute. discriminate.
Defined.

(** ** The content pipeline *)

Section ContentPipeline.

Import PostProcess.

Variable w : World.

Lemma ensureCacheDir_idempotent (st : State) :
  ensureCacheDir w (ensureCacheDir w st) = ensureCacheDir w st.
Proof.
  unfold ensureCacheDir.
  destruct (cacheDirTruthy st) eqn:Ht; [by rewrite Ht|].
  destruct (cacheDirTruthy (setCacheDir _ st)) eqn:Ht'; [done|].
  by destruct st.
Qed.

Lemma ensureCacheDir_frame (st : State) :
  written (ensureCacheDir w st) = written st /\
  assets (ensureCacheDir w st) = assets st /\
  cacache (ensureCacheDir w st) = cacache st /\
  transformCalls (ensureCacheDir w st) = transformCalls st /\
  fileDependencies (ensureCacheDir w st) = fileDependencies st /\
  logged (ensureCacheDir w st) = logged st.
Proof. unfold ensureCacheDir. by destruct (cacheDirTruthy st). Qed.

Lemma dirOf_ensureCacheDir (st : State) :
  dirOf w (ensureCacheDir w st) = dirOf w st.
Proof. unfold dirOf. by rewrite ensureCacheDir_idempotent. Qed.

Lemma dirOf_eq (st : State) :
  dirOf w st
  = match cacheDir st with
    | Some d =>
        if Js.truthy d then d else Js.or (default "" (findCacheDir w)) (tmpdir w)
    | None => Js.or (default "" (findCacheDir w)) (tmpdir w)
    end.
Proof.
  unfold dirOf, ensureCacheDir, cacheDirTruthy.
  destruct (cacheDir st) as [d|] eqn:Hd; [destruct (Js.truthy d) eqn:Ht|];
    simpl; by rewrite ?Hd.
Qed.

(** [dirOf] reads nothing but [cacheDir]. *)
Lemma dirOf_cacheDir (st st' : State) :
  cacheDir st' = cacheDir st -> dirOf w st' = dirOf w st.
Proof. intros H. by rewrite !dirOf_eq, H. Qed.

(** What [transformContent] does, case by case. *)
Lemma transformContent_spec (pattern : Pattern) (file : File) (content : bytes)
    (st : State) :
  let r := transformContent w pattern file content st in
  written r.2 = written st /\
  assets r.2 = assets st /\
  dirOf w r.2 = dirOf w st /\
  cacache st ⊆ cacache r.2 /\
  (exists l, logged r.2 = logged st ++ l /\ writeMessages l = []) /\
  match transform pattern with
  | None =>
      r.1 = Ok content /\ cacache r.2 = cacache st /\
      transformCalls r.2 = transformCalls st
  | Some t =>
      match cache pattern with
      | None =>
          r.1 = t content (absoluteFrom file) /\ cacache r.2 = cacache st /\
          transformCalls r.2 = transformCalls st ++ [(content, absoluteFrom file)]
      | Some key =>
          let k := (dirOf w st, cacheKeyOf w pattern key content) in
          match cacache st !! k with
          | Some data =>
              r.1 = Ok data /\ cacache r.2 = cacache st /\
              transformCalls r.2 = transformCalls st
          | None =>
              r.1 = t content (absoluteFrom file) /\
              transformCalls r.2
              = transformCalls st ++ [(content, absoluteFrom file)] /\
              cacache r.2
              = match t content (absoluteFrom file) with
                | Ok x => <[k := x]> (cacache st)
                | Rejected _ => cacache st
                end
          end
      end
  end.
Proof.
  unfold transformContent.
  destruct (transform pattern) as [t|]; cbv zeta.
  2:{ simpl. repeat split; try done. exists []. by rewrite app_nil_r. }
  destruct (cache pattern) as [key|].
  2:{ unfold callTransform, logger. promise_unfold. simpl.
      destruct (t content (absoluteFrom file)); simpl;
        (repeat split; try done; try (by apply dirOf_cacheDir);
         eexists; split; [reflexivity|done]). }
  unfold callTransform, logger. promise_unfold. cbn [fst snd].
  set (st1 := setLogged _ st).
  change (default "" (cacheDir (ensureCacheDir w st1))) with (dirOf w st1).
  assert (Hdir : dirOf w st1 = dirOf w st) by (by apply dirOf_cacheDir).
  rewrite Hdir.
  destruct (ensureCacheDir_frame st1) as (Hw & Ha & Hc & Ht & _ & Hl).
  rewrite Hc. change (cacache st1) with (cacache st).
  destruct (cacache st !! (dirOf w st, cacheKeyOf w pattern key content))
    as [data|] eqn:Hget; cbn [fst snd].
  - simpl. rewrite Hw, Ha, Hc, Ht, Hl.
    replace (dirOf w (setLogged _ (ensureCacheDir w st1))) with (dirOf w st)
      by (rewrite <- Hdir, <- dirOf_ensureCacheDir; by apply dirOf_cacheDir).
    repeat split; try done.
    subst st1. cbn [logged setLogged].
    eexists. rewrite <- app_assoc. split; [reflexivity|done].
  - destruct (t content (absoluteFrom file)) as [x|e]; simpl;
      rewrite ?Hw, ?Ha, ?Hc, ?Ht, ?Hl.
    + replace (dirOf w _) with (dirOf w st)
        by (rewrite <- Hdir, <- dirOf_ensureCacheDir; by apply dirOf_cacheDir).
      repeat split; try done.
      * by apply insert_subseteq.
      * subst st1. cbn [logged setLogged].
        eexists. rewrite <- ?app_assoc. split; [reflexivity|done].
    + replace (dirOf w _) with (dirOf w st)
        by (rewrite <- Hdir, <- dirOf_ensureCacheDir; by apply dirOf_cacheDir).
      repeat split; try done.
      subst st1. cbn [logged setLogged].
      eexists. rewrite <- ?app_assoc. split; [reflexivity|done].
Qed.

(** *** Stages within their frame *)

Lemma Framed_le {A} (n n' : nat) (m : Promise State A) :
  (n <= n')%nat -> Framed w n m -> Framed w n' m.
Proof.
  intros Hle Hm st. destruct (Hm st) as (? & ? & ? & ? & ? & c & ? & ?).
  repeat split; try done. exists c. split; [done|lia].
Qed.

Lemma Framed_pure {A} (r : Result A) : Framed w 0 (await r).
Proof.
  intros st. unfold await. simpl. repeat split; try done.
  - exists []. by rewrite app_nil_r.
  - exists []. by rewrite app_nil_r.
Qed.

Lemma Framed_ret {A} (a : A) : Framed w 0 (mret a : Promise State A).
Proof. apply (Framed_pure (Ok a)). Qed.

Lemma Framed_logger (m : Message) :
  isWriteMessage m = false -> Framed w 0 (logger m).
Proof.
  intros Hm st. unfold logger, modify. simpl. repeat split; try done.
  - by apply dirOf_cacheDir.
  - exists [m]. split; [done|]. unfold writeMessages. simpl. by rewrite Hm.
  - exists []. by rewrite app_nil_r.
Qed.

Lemma Framed_fileDependencies (f : State -> gset string) :
  Framed w 0 (modify (fun st => setFileDependencies (f st) st)).
Proof.
  intros st. unfold modify. simpl. repeat split; try done.
  - by apply dirOf_cacheDir.
  - exists []. by rewrite app_nil_r.
  - exists []. by rewrite app_nil_r.
Qed.

Lemma Framed_bind {A B} (n n' : nat) (m : Promise State A)
    (k : A -> Promise State B) :
  Framed w n m -> (forall a, Framed w n' (k a)) -> Framed w (n + n') (m ≫= k).
Proof.
  intros Hm Hk st. unfold mbind, promise_bind, andThen.
  specialize (Hm st). destruct (m st) as [[a|e] st'] eqn:Hrun; simpl in Hm.
  - specialize (Hk a st'). destruct (k a st') as [r st''] eqn:Hrun'.
    simpl in Hk |- *.
    destruct Hm as (Hw & Ha & Hd & Hc & (l & Hl & Hlw) & (c & Hcl & Hcn)).
    destruct Hk as (Hw' & Ha' & Hd' & Hc' & (l' & Hl' & Hlw') & (c' & Hcl' & Hcn')).
    repeat split; try congruence.
    + by etrans.
    + exists (l ++ l'). rewrite Hl', Hl, app_assoc. split; [done|].
      unfold writeMessages in *. by rewrite List.filter_app, Hlw, Hlw'.
    + exists (c ++ c'). rewrite Hcl', Hcl, app_assoc. split; [done|].
      rewrite length_app. lia.
  - simpl. destruct Hm as (Hw & Ha & Hd & Hc & Hl & (c & Hcl & Hcn)).
    repeat split; try done. exists c. split; [done|lia].
Qed.

Lemma Framed_transformContent (pattern : Pattern) (file : File) (content : bytes) :
  Framed w 1 (transformContent w pattern file content).
Proof.
  intros st.
  destruct (transformContent_spec pattern file content st)
    as (Hw & Ha & Hd & Hc & Hl & Hcase).
  repeat split; try done.
  destruct (transform pattern) as [t|];
    [destruct (cache pattern) as [key|]; [cbv zeta in Hcase;
       destruct (cacache st !! _)|]|].
  - exists []. rewrite app_nil_r. split; [tauto|simpl; lia].
  - eexists. split; [apply Hcase|simpl; lia].
  - eexists. split; [apply Hcase|simpl; lia].
  - exists []. rewrite app_nil_r. split; [tauto|simpl; lia].
Qed.

Lemma Framed_getStats (pattern : Pattern) (file : File) :
  Framed w 0 (getStats w pattern file).
Proof.
  unfold getStats. destruct (stats pattern); [apply Framed_ret|apply Framed_pure].
Qed.

Lemma Framed_interpolateTemplate (pattern : Pattern) (file : File) (content : bytes) :
  Framed w 0 (interpolateTemplate w pattern file content).
Proof.
  unfold interpolateTemplate. case_bool_decide; [|apply Framed_ret].
  apply (Framed_bind 0 0); [by apply Framed_logger|]. intros _.
  apply (Framed_bind 0 0); [apply Framed_pure|]. intros name. apply Framed_ret.
Qed.

Lemma Framed_transformFilePath (pattern : Pattern) (file : File) :
  Framed w 0 (transformFilePath w pattern file).
Proof.
  unfold transformFilePath. destruct (transformPath pattern); [|apply Framed_ret].
  apply (Framed_bind 0 0); [by apply Framed_logger|]. intros _.
  apply (Framed_bind 0 0); [apply Framed_pure|]. intros name. apply Framed_ret.
Qed.

Lemma Framed_afterStats (pattern : Pattern) (file : File) (stats : Stats) :
  Framed w 1
    (if isDirectory stats then
       logger (SkippingEmptyDirectory (absoluteFrom file)) ;; mret None
     else
       (if Js.eqb (fromType pattern) "glob" then
          modify (fun st =>
            setFileDependencies ({[absoluteFrom file]} ∪ fileDependencies st) st)
        else mret tt) ;;
       logger (Reading (absoluteFrom file)) ;;
       content ← await (readFile w (absoluteFrom file));
       content ← transformContent w pattern file content;
       file ← interpolateTemplate w pattern file content;
       file ← transformFilePath w pattern file;
       mret (Some (stats, content, file))).
Proof.
  destruct (isDirectory stats).
  { apply (Framed_le 0); [lia|].
    apply (Framed_bind 0 0); [by apply Framed_logger|]. intros _. apply Framed_ret. }
  apply (Framed_bind 0 1).
  { destruct (Js.eqb _ _); [apply Framed_fileDependencies|apply Framed_ret]. }
  intros _.
  apply (Framed_bind 0 1); [by apply Framed_logger|]. intros _.
  apply (Framed_bind 0 1); [apply Framed_pure|]. intros content.
  apply (Framed_bind 1 0); [apply Framed_transformContent|]. intros content'.
  apply (Framed_bind 0 0); [apply Framed_interpolateTemplate|]. intros file'.
  apply (Framed_bind 0 0); [apply Framed_transformFilePath|]. intros file''.
  apply Framed_ret.
Qed.

Lemma Framed_contentPipeline_tail (pattern : Pattern) (file : File) :
  Framed w 1
    (stats ← getStats w pattern file;
     if isDirectory stats then
       logger (SkippingEmptyDirectory (absoluteFrom file)) ;; mret None
     else
       (if Js.eqb (fromType pattern) "glob" then
          modify (fun st =>
            setFileDependencies ({[absoluteFrom file]} ∪ fileDependencies st) st)
        else mret tt) ;;
       logger (Reading (absoluteFrom file)) ;;
       content ← await (readFile w (absoluteFrom file));
       content ← transformContent w pattern file content;
       file ← interpolateTemplate w pattern file content;
       file ← transformFilePath w pattern file;
       mret (Some (stats, content, file))).
Proof.
  apply (Framed_bind 0 1); [apply Framed_getStats|]. intros stats.
  apply Framed_afterStats.
Qed.

Lemma Framed_contentPipeline (pattern : Pattern) (file : File) :
  Framed w 1 (contentPipeline w pattern file).
Proof.
  unfold contentPipeline.
  apply (Framed_bind 0 1); [by apply Framed_logger|]. intros _.
  apply Framed_contentPipeline_tail.
Qed.

(** *** Stages that can be replayed *)

Lemma Replays_pure {A} (cached : bool) (r : Result A) : Replays w cached (await r).
Proof. intros st a Hr st2 _ _. unfold await in *. simpl in *. done. Qed.

Lemma Replays_ret {A} (cached : bool) (a : A) :
  Replays w cached (mret a : Promise State A).
Proof. apply (Replays_pure cached (Ok a)). Qed.

Lemma Replays_logger (cached : bool) (m : Message) : Replays w cached (logger m).
Proof. intros st a Hr st2 _ _. unfold logger, modify in *. simpl in *. done. Qed.

Lemma Replays_fileDependencies (cached : bool) (f : State -> gset string) :
  Replays w cached (modify (fun st => setFileDependencies (f st) st)).
Proof. intros st a Hr st2 _ _. unfold modify in *. simpl in *. done. Qed.

Lemma Replays_bind {A B} (cached : bool) (n n' : nat) (m : Promise State A)
    (k : A -> Promise State B) :
  Replays w cached m -> Framed w n m ->
  (forall a, Replays w cached (k a)) -> (forall a, Framed w n' (k a)) ->
  Replays w cached (m ≫= k).
Proof.
  intros Rm Fm Rk Fk st r Hr st2 Hdir Hsub.
  unfold mbind, promise_bind, andThen in *.
  specialize (Rm st). specialize (Fm st) as Fst. specialize (Fm st2) as Fst2.
  destruct (m st) as [[a|e] st'] eqn:Hrun; [|done].
  specialize (Fk a st') as Fst'.
  destruct (k a st') as [r' st''] eqn:Hrun'. simpl in *. subst r'.
  destruct Fst as (_ & _ & Hd & Hc & _).
  destruct Fst' as (_ & _ & Hd' & Hc' & _).
  destruct (Rm a eq_refl st2 Hdir) as (Hm2 & Hc2 & Hcalls2); [by etrans|].
  destruct (m st2) as [r2 st2'] eqn:Hrun2. simpl in *. subst r2.
  destruct Fst2 as (_ & _ & Hd2 & _).
  specialize (Rk a st' r). rewrite Hrun' in Rk.
  destruct (Rk eq_refl st2') as (Hk2 & Hkc2 & Hkcalls2).
  - congruence.
  - simpl. by rewrite Hc2.
  - repeat split; [done|congruence|]. intros Hcached.
    rewrite Hkcalls2, Hcalls2; done.
Qed.

Lemma Replays_transformContent (pattern : Pattern) (file : File) (content : bytes) :
  Replays w (bool_decide (is_Some (cache pattern)))
    (transformContent w pattern file content).
Proof.
  intros st r Hr st2 Hdir Hsub.
  destruct (transformContent_spec pattern file content st)
    as (_ & _ & _ & _ & _ & Hcase).
  destruct (transformContent_spec pattern file content st2)
    as (_ & _ & _ & _ & _ & Hcase2).
  cbv zeta in *.
  destruct (transform pattern) as [t|].
  2:{ destruct Hcase as (H1 & _), Hcase2 as (H2 & H2' & H2'').
      repeat split; congruence. }
  destruct (cache pattern) as [key|].
  2:{ destruct Hcase as (H1 & _), Hcase2 as (H2 & H2' & H2'').
      repeat split; [congruence|congruence|].
      intros Hc. by apply bool_decide_eq_true in Hc as [? ?]. }
  rewrite Hdir in Hcase2.
  assert (Hhit : cacache st2 !! (dirOf w st, cacheKeyOf w pattern key content)
                 = Some r).
  { eapply lookup_weaken; [|exact Hsub].
    destruct (cacache st !! _) as [data|] eqn:Hget.
    - destruct Hcase as (H1 & H2 & _). rewrite H2, Hget. congruence.
    - destruct Hcase as (H1 & _ & H3). rewrite H3.
      rewrite <- H1, Hr. apply lookup_insert_eq. }
  rewrite Hhit in Hcase2. destruct Hcase2 as (H1 & H2 & H3). done.
Qed.

Lemma Replays_getStats (cached : bool) (pattern : Pattern) (file : File) :
  Replays w cached (getStats w pattern file).
Proof.
  unfold getStats. destruct (stats pattern); [apply Replays_ret|apply Replays_pure].
Qed.

Lemma Replays_interpolateTemplate (cached : bool) (pattern : Pattern)
    (file : File) (content : bytes) :
  Replays w cached (interpolateTemplate w pattern file content).
Proof.
  unfold interpolateTemplate. case_bool_decide; [|apply Replays_ret].
  apply (Replays_bind cached 0 0);
    [apply Replays_logger | by apply Framed_logger | |].
  - intros _. apply (Replays_bind cached 0 0);
      [apply Replays_pure | apply Framed_pure
      | intros; apply Replays_ret | intros; apply Framed_ret].
  - intros _. apply (Framed_bind 0 0); [apply Framed_pure|].
    intros; apply Framed_ret.
Qed.

Lemma Replays_transformFilePath (cached : bool) (pattern : Pattern) (file : File) :
  Replays w cached (transformFilePath w pattern file).
Proof.
  unfold transformFilePath. destruct (transformPath pattern); [|apply Replays_ret].
  apply (Replays_bind cached 0 0);
    [apply Replays_logger | by apply Framed_logger | |].
  - intros _. apply (Replays_bind cached 0 0);
      [apply Replays_pure | apply Framed_pure
      | intros; apply Replays_ret | intros; apply Framed_ret].
  - intros _. apply (Framed_bind 0 0); [apply Framed_pure|].
    intros; apply Framed_ret.
Qed.

(** The tail of the pipeline, from the transformed content on. *)
Lemma Framed_afterTransform (pattern : Pattern) (file : File) (stats : Stats)
    (content : bytes) :
  Framed w 0
    (file' ← interpolateTemplate w pattern file content;
     file'' ← transformFilePath w pattern file';
     mret (Some (stats, content, file''))).
Proof.
  apply (Framed_bind 0 0); [apply Framed_interpolateTemplate|]. intros file'.
  apply (Framed_bind 0 0); [apply Framed_transformFilePath|]. intros file''.
  apply Framed_ret.
Qed.

Lemma Replays_afterTransform (cached : bool) (pattern : Pattern) (file : File)
    (stats : Stats) (content : bytes) :
  Replays w cached
    (file' ← interpolateTemplate w pattern file content;
     file'' ← transformFilePath w pattern file';
     mret (Some (stats, content, file''))).
Proof.
  apply (Replays_bind cached 0 0);
    [apply Replays_interpolateTemplate | apply Framed_interpolateTemplate | |].
  - intros file'. apply (Replays_bind cached 0 0);
      [apply Replays_transformFilePath | apply Framed_transformFilePath
      | intros; apply Replays_ret | intros; apply Framed_ret].
  - intros file'. apply (Framed_bind 0 0); [apply Framed_transformFilePath|].
    intros; apply Framed_ret.
Qed.

(** The pipeline from the read content on. *)
Lemma Framed_fromContent (pattern : Pattern) (file : File) (stats : Stats)
    (content : bytes) :
  Framed w 1
    (content' ← transformContent w pattern file content;
     file' ← interpolateTemplate w pattern file content';
     file'' ← transformFilePath w pattern file';
     mret (Some (stats, content', file''))).
Proof.
  apply (Framed_bind 1 0); [apply Framed_transformContent|]. intros content'.
  apply Framed_afterTransform.
Qed.

Lemma Replays_fromContent (pattern : Pattern) (file : File) (stats : Stats)
    (content : bytes) :
  Replays w (bool_decide (is_Some (cache pattern)))
    (content' ← transformContent w pattern file content;
     file' ← interpolateTemplate w pattern file content';
     file'' ← transformFilePath w pattern file';
     mret (Some (stats, content', file''))).
Proof.
  apply (Replays_bind _ 1 0);
    [apply Replays_transformContent | apply Framed_transformContent | |].
  - intros content'. apply Replays_afterTransform.
  - intros content'. apply Framed_afterTransform.
Qed.

Lemma Replays_contentPipeline (pattern : Pattern) (file : File) :
  Replays w (bool_decide (is_Some (cache pattern)))
    (contentPipeline w pattern file).
Proof.
  unfold contentPipeline.
  apply (Replays_bind _ 0 1);
    [apply Replays_logger | by apply Framed_logger | |].
  2:{ intros _. apply (Framed_contentPipeline_tail pattern file). }
  intros _. apply (Replays_bind _ 0 1);
    [apply Replays_getStats | apply Framed_getStats | |].
  2:{ intros stats. apply (Framed_afterStats pattern file stats). }
  intros stats. destruct (isDirectory stats).
  { apply (Replays_bind _ 0 0);
      [apply Replays_logger | by apply Framed_logger
      | intros; apply Replays_ret | intros; apply Framed_ret]. }
  apply (Replays_bind _ 0 1).
  { destruct (Js.eqb _ _); [apply Replays_fileDependencies|apply Replays_ret]. }
  { destruct (Js.eqb _ _); [apply Framed_fileDependencies|apply Framed_ret]. }
  2:{ intros _. apply (Framed_bind 0 1); [by apply Framed_logger|]. intros _.
      apply (Framed_bind 0 1); [apply Framed_pure|]. intros content.
      apply Framed_fromContent. }
  intros _. apply (Replays_bind _ 0 1);
    [apply Replays_logger | by apply Framed_logger | |].
  2:{ intros _. apply (Framed_bind 0 1); [apply Framed_pure|]. intros content.
      apply Framed_fromContent. }
  intros _. apply (Replays_bind _ 0 1);
    [apply Replays_pure | apply Framed_pure | |].
  - intros content. apply Replays_fromContent.
  - intros content. apply Framed_fromContent.
Qed.

(** *** The write decision *)

Lemma writtenWith_written (st st' : State) (to from hash : string) :
  written st' = written st ->
  writtenWith st' to from hash = writtenWith st to from hash.
Proof. intros H. unfold writtenWith. by rewrite H. Qed.

Lemma writtenWith_true (st : State) (to from hash : string) :
  writtenWith st to from hash = true <->
  exists sources,
    written st !! to = Some sources /\ sources !! from = Some hash /\
    Js.truthy hash = true.
Proof.
  unfold writtenWith. split.
  - destruct (written st !! to) as [sources|]; [|done].
    destruct (sources !! from) as [h|] eqn:Hfrom; [|done].
    intros H. apply andb_true_iff in H as [Ht He].
    apply String.eqb_eq in He. subst h. by exists sources.
  - intros (sources & -> & -> & Ht). rewrite Ht. simpl.
    by apply String.eqb_eq.
Qed.

Lemma writeDecision_skip (file : File) (stats : Stats) (content : bytes) (st : State) :
  copyUnmodified w = false ->
  writtenWith st (webpackTo file) (absoluteFrom file) (getHashDigest w content) = true ->
  writeDecision w file stats content st
  = (Ok tt, setLogged (logged st ++ [SkippingUnchanged (webpackTo file)]) st).
Proof.
  intros Hcu Hw. unfold writeDecision, logger. promise_unfold.
  by rewrite Hcu, Hw.
Qed.

(** What [writeDecision] does to everything but the asset table. *)
Lemma writeDecision_spec (file : File) (stats : Stats) (content : bytes) (st : State) :
  let r := writeDecision w file stats content st in
  let hash := getHashDigest w content in
  r.1 = Ok tt /\
  cacache r.2 = cacache st /\
  cacheDir r.2 = cacheDir st /\
  transformCalls r.2 = transformCalls st /\
  written r.2
  = if negb (copyUnmodified w) &&
       writtenWith st (webpackTo file) (absoluteFrom file) hash
    then written st
    else track (webpackTo file) (absoluteFrom file) hash (written st).
Proof.
  unfold writeDecision, logger. promise_unfold. cbn [fst snd].
  destruct (negb (copyUnmodified w) && writtenWith st _ _ _); [done|].
  cbn. by destruct (bool_decide _ && _).
Qed.

Lemma writtenWith_track (st st' : State) (to from hash : string) :
  Js.truthy hash = true ->
  written st' = track to from hash (written st) ->
  writtenWith st' to from hash = true.
Proof.
  intros Ht Hw. apply writtenWith_true. rewrite Hw. unfold track.
  eexists. rewrite lookup_insert_eq. split; [done|].
  by rewrite lookup_insert_eq.
Qed.

Lemma writtenWith_track_other (st st' : State) (to from hash to' from' hash' : string) :
  written st' = track to from hash (written st) ->
  (to' = to -> from' = from -> hash' = hash) ->
  writtenWith st to' from' hash' = true ->
  writtenWith st' to' from' hash' = true.
Proof.
  intros Hw Hsame H. apply writtenWith_true in H as (sources & Hto & Hfrom & Ht).
  apply writtenWith_true. rewrite Hw. unfold track.
  destruct (decide (to' = to)) as [->|Hne].
  - rewrite lookup_insert_eq, Hto. simpl. eexists. split; [done|].
    destruct (decide (from' = from)) as [->|Hne'].
    + rewrite lookup_insert_eq. by rewrite <- (Hsame eq_refl eq_refl).
    + by rewrite lookup_insert_ne.
  - rewrite lookup_insert_ne by done. by exists sources.
Qed.

(** *** One file *)

Lemma postProcessPattern_eq (pattern : Pattern) (file : File) (st : State) :
  postProcessPattern w pattern file st
  = match contentPipeline w pattern file st with
    | (Ok (Some (stats, content, file')), st') =>
        writeDecision w file' stats content st'
    | (Ok None, st') => (Ok tt, st')
    | (Rejected e, st') => (Rejected e, st')
    end.
Proof.
  unfold postProcessPattern, mbind, promise_bind, andThen.
  destruct (contentPipeline w pattern file st) as [[[[[stats content] file']|]|e] st'];
    reflexivity.
Qed.

(** The cache side of a file: the directory stays, the store only grows. *)
Lemma postProcessPattern_cache (pattern : Pattern) (file : File) (st : State) :
  dirOf w (postProcessPattern w pattern file st).2 = dirOf w st /\
  cacache st ⊆ cacache (postProcessPattern w pattern file st).2 /\
  cacache (contentPipeline w pattern file st).2
  = cacache (postProcessPattern w pattern file st).2.
Proof.
  rewrite postProcessPattern_eq.
  destruct (Framed_contentPipeline pattern file st) as (_ & _ & Hd & Hc & _).
  destruct (contentPipeline w pattern file st)
    as [[[[[stats content] file']|]|e] st']; simpl in *; try done.
  destruct (writeDecision_spec file' stats content st') as (_ & Hc' & Hd' & _).
  cbv zeta in *. split; [|split].
  - rewrite <- Hd. by apply dirOf_cacheDir.
  - by rewrite Hc'.
  - by rewrite Hc'.
Qed.

(** The history side of a file that was tracked as [(to, from, hash)]. *)
Lemma postProcessPattern_tracked (pattern : Pattern) (file : File) (st : State)
    (to from hash : string) :
  trackedAs w pattern file st = Some (to, from, hash) ->
  let st' := (postProcessPattern w pattern file st).2 in
  (postProcessPattern w pattern file st).1 = Ok tt /\
  (written st' = written st \/ written st' = track to from hash (written st)) /\
  (Js.truthy hash = true -> writtenWith st' to from hash = true).
Proof.
  unfold trackedAs. rewrite postProcessPattern_eq.
  destruct (Framed_contentPipeline pattern file st) as (Hw & _).
  destruct (contentPipeline w pattern file st)
    as [[[[[stats content] file']|]|e] st1]; simpl in *; try done.
  intros [= <- <- <-].
  destruct (writeDecision_spec file' stats content st1) as (Hr & _ & _ & _ & Hw').
  cbv zeta in *. split; [done|]. rewrite Hw in Hw'.
  destruct (negb (copyUnmodified w) && writtenWith st1 _ _ _) eqn:Hskip.
  - split; [by left|]. intros _.
    apply andb_true_iff in Hskip as [_ Hskip].
    rewrite <- Hw in Hw'.
    by rewrite (writtenWith_written st1 _ _ _ _ Hw').
  - split; [by right|]. intros Ht.
    by apply (writtenWith_track st).
Qed.

Lemma postProcessPattern_untracked (pattern : Pattern) (file : File) (st : State) :
  trackedAs w pattern file st = None ->
  written (postProcessPattern w pattern file st).2 = written st.
Proof.
  unfold trackedAs. rewrite postProcessPattern_eq.
  destruct (Framed_contentPipeline pattern file st) as (Hw & _).
  destruct (contentPipeline w pattern file st)
    as [[[[[stats content] file']|]|e] st1]; simpl in *; done.
Qed.

Lemma postProcessPattern_calls (pattern : Pattern) (file : File) (st : State) :
  transformCalls (postProcessPattern w pattern file st).2
  = transformCalls (contentPipeline w pattern file st).2.
Proof.
  rewrite postProcessPattern_eq.
  destruct (contentPipeline w pattern file st)
    as [[[[[stats content] file']|]|e] st']; simpl; try done.
  by destruct (writeDecision_spec file' stats content st') as (_ & _ & _ & Hc & _).
Qed.

(** What an asset-table write of [writeDecision] commits. *)
Lemma writeDecision_assets (file : File) (stats : Stats) (content : bytes) (st : State) :
  assets (writeDecision w file stats content st).2 = assets st \/
  assets (writeDecision w file stats content st).2
  = <[normalizePath w (webpackTo file) :=
        {| assetSize := size stats; assetSource := content |}]> (assets st).
Proof.
  unfold writeDecision, logger. promise_unfold. cbn [fst snd].
  destruct (negb (copyUnmodified w) && writtenWith st _ _ _); [by left|].
  cbn. destruct (bool_decide _ && _); [by left | by right].
Qed.

(** *** One pass *)

Lemma runPass_cons (pattern : Pattern) (file : File)
    (files : list (Pattern * File)) (st : State) :
  (runPass w ((pattern, file) :: files) st).2
  = (runPass w files (postProcessPattern w pattern file st).2).2 /\
  ((runPass w ((pattern, file) :: files) st).1 = [] <->
   (postProcessPattern w pattern file st).1 = Ok tt /\
   (runPass w files (postProcessPattern w pattern file st).2).1 = []).
Proof.
  simpl. destruct (postProcessPattern w pattern file st) as [[[]|e] st']; simpl.
  - tauto.
  - destruct (runPass w files st') as [errs st'']. simpl.
    split; [done|]. split; [done|]. by intros [? _].
Qed.

Lemma runPass_cache (files : list (Pattern * File)) (st : State) :
  dirOf w (runPass w files st).2 = dirOf w st /\
  cacache st ⊆ cacache (runPass w files st).2.
Proof.
  revert st. induction files as [|[pattern file] files IH]; intros st; [done|].
  rewrite (proj1 (runPass_cons pattern file files st)).
  destruct (postProcessPattern_cache pattern file st) as (Hd & Hc & _).
  destruct (IH (postProcessPattern w pattern file st).2) as [Hd' Hc'].
  split; [congruence | by etrans].
Qed.

(** A history entry survives a pass in which every file tracked under the
    same destination and source has the same content hash. *)
Lemma runPass_keeps_history (files : list (Pattern * File)) (st : State)
    (to from hash : string) :
  writtenWith st to from hash = true ->
  (forall hash', (to, from, hash') ∈ trackedInPass w files st -> hash' = hash) ->
  writtenWith (runPass w files st).2 to from hash = true.
Proof.
  revert st. induction files as [|[pattern file] files IH]; intros st Hw Hsame;
    [done|].
  rewrite (proj1 (runPass_cons pattern file files st)).
  simpl in Hsame. apply IH.
  - destruct (trackedAs w pattern file st) as [[[to1 from1] hash1]|] eqn:Htr.
    + destruct (postProcessPattern_tracked pattern file st _ _ _ Htr)
        as (_ & [Hsame'|Htrack] & _).
      * by rewrite (writtenWith_written st _ _ _ _ Hsame').
      * apply (writtenWith_track_other st _ to1 from1 hash1); [done| |done].
        intros -> ->. symmetry. apply Hsame. set_solver.
    + by rewrite (writtenWith_written st _ _ _ _
                    (postProcessPattern_untracked pattern file st Htr)).
  - intros hash' Hin. apply Hsame. set_solver.
Qed.

(** After a pass with consistent hashes, the history holds every tracked
    file with its hash. *)
Lemma runPass_history (files : list (Pattern * File)) (st : State) :
  (forall content, Js.truthy (getHashDigest w content) = true) ->
  consistentHashes (trackedInPass w files st) ->
  forall to from hash,
    (to, from, hash) ∈ trackedInPass w files st ->
    writtenWith (runPass w files st).2 to from hash = true.
Proof.
  intros Htruthy. revert st.
  induction files as [|[pattern file] files IH]; intros st Hcons to from hash Hin;
    [by apply elem_of_nil in Hin|].
  rewrite (proj1 (runPass_cons pattern file files st)).
  simpl in Hin, Hcons. apply elem_of_app in Hin as [Hin|Hin].
  - destruct (trackedAs w pattern file st) as [[[to1 from1] hash1]|] eqn:Htr;
      [|by apply elem_of_nil in Hin].
    apply list_elem_of_singleton in Hin as [= -> -> ->].
    destruct (postProcessPattern_tracked pattern file st _ _ _ Htr)
      as (_ & _ & Hhead).
    apply runPass_keeps_history.
    + apply Hhead. unfold trackedAs in Htr.
      destruct (contentPipeline w pattern file st)
        as [[[[[stats content] file']|]|e] st1]; try done.
      injection Htr as _ _ <-. apply Htruthy.
    + intros hash' Hin'. apply (Hcons to1 from1); set_solver.
  - apply IH; [|done].
    intros to' from' h1 h2 H1 H2. apply (Hcons to' from'); set_solver.
Qed.

(** A pass replayed from a state whose history already holds every file
    the first run tracked: each file stops at the history check. *)
Lemma runPass_replay (files : list (Pattern * File)) (st st2 : State) :
  copyUnmodified w = false ->
  (runPass w files st).1 = [] ->
  dirOf w st2 = dirOf w st ->
  cacache (runPass w files st).2 ⊆ cacache st2 ->
  (forall to from hash,
     (to, from, hash) ∈ trackedInPass w files st ->
     writtenWith st2 to from hash = true) ->
  (runPass w files st2).1 = [] /\
  assets (runPass w files st2).2 = assets st2 /\
  written (runPass w files st2).2 = written st2 /\
  cacache (runPass w files st2).2 = cacache st2 /\
  exists l,
    logged (runPass w files st2).2 = logged st2 ++ l /\
    writeMessages l
    = map (fun t => SkippingUnchanged t.1.1) (trackedInPass w files st).
Proof.
  intros Hcu. revert st st2.
  induction files as [|[pattern file] files IH];
    intros st st2 Herrs Hdir Hsub Hhist.
  { simpl. repeat split; try done. exists []. by rewrite app_nil_r. }
  destruct (runPass_cons pattern file files st) as [Hsnd Hfst].
  destruct (runPass_cons pattern file files st2) as [Hsnd2 Hfst2].
  rewrite Hsnd in Hsub. apply Hfst in Herrs as [Hok Herrs].
  rewrite Hsnd2, Hfst2. clear Hsnd Hfst Hsnd2 Hfst2.
  destruct (postProcessPattern_cache pattern file st) as (Hd1 & _ & Hc1).
  destruct (runPass_cache files (postProcessPattern w pattern file st).2)
    as [_ Hc1'].
  (* the file, replayed from [st2] *)
  assert (Hfile :
    (postProcessPattern w pattern file st2).1 = Ok tt /\
    assets (postProcessPattern w pattern file st2).2 = assets st2 /\
    written (postProcessPattern w pattern file st2).2 = written st2 /\
    cacache (postProcessPattern w pattern file st2).2 = cacache st2 /\
    dirOf w (postProcessPattern w pattern file st2).2 = dirOf w st2 /\
    exists l,
      logged (postProcessPattern w pattern file st2).2 = logged st2 ++ l /\
      writeMessages l
      = map (fun t => SkippingUnchanged t.1.1)
          (match trackedAs w pattern file st with Some t => [t] | None => [] end)).
  { simpl in Hhist. unfold trackedAs in *.
    rewrite postProcessPattern_eq in Hok |- *.
    pose proof (Replays_contentPipeline pattern file st) as Hrep.
    destruct (Framed_contentPipeline pattern file st2)
      as (Hw2 & Ha2 & Hd2 & _ & (l & Hl2 & Hlw2) & _).
    destruct (contentPipeline w pattern file st) as [[r|e] st1] eqn:Hrun;
      [|done].
    destruct (Hrep r eq_refl st2 Hdir) as (Hr2 & Hc2 & _).
    { simpl in *. rewrite Hc1. by etrans. }
    destruct (contentPipeline w pattern file st2) as [r2 st2'] eqn:Hrun2.
    simpl in *. subst r2.
    destruct r as [[[stats content] file']|].
    - rewrite writeDecision_skip; [|done|].
      + simpl. repeat split; try done.
        * rewrite <- Hd2. by apply dirOf_cacheDir.
        * exists (l ++ [SkippingUnchanged (webpackTo file')]).
          rewrite Hl2, app_assoc. split; [done|].
          unfold writeMessages in *. by rewrite List.filter_app, Hlw2.
      + rewrite (writtenWith_written st2 _ _ _ _ Hw2). apply Hhist. by left.
    - simpl. repeat split; try done. exists l. by rewrite Hlw2. }
  destruct Hfile as (Hok2 & Ha2 & Hw2 & Hc2 & Hd2 & (l & Hl & Hlw)).
  destruct (IH (postProcessPattern w pattern file st).2
               (postProcessPattern w pattern file st2).2)
    as (He & Ha & Hw & Hc & (l' & Hl' & Hlw')); try done.
  - congruence.
  - by rewrite Hc2.
  - intros to from hash Hin.
    rewrite (writtenWith_written st2 _ _ _ _ Hw2). apply Hhist.
    simpl. apply elem_of_app. by right.
  - repeat split; try congruence.
    exists (l ++ l'). rewrite Hl', Hl, app_assoc. split; [done|].
    simpl. rewrite map_app. unfold writeMessages in *.
    by rewrite List.filter_app, Hlw, Hlw'.
Qed.

End ContentPipeline.

(** ** Idempotence of the pass *)

(** C1, as stated, fails: two patterns send the same file to the same
    destination with different transforms.  The first pass completes
    without error and leaves the hash of the second pattern in the write
    history.  A second pass, with the sources unchanged and
    [copyUnmodified] off, does not stop the first pattern at the history
    check: run from the very state the first pass left, both files go on
    to write the asset again; run over a new compilation, the asset table
    goes from empty to holding the asset. *)
Lemma second_pass_writes_again :
  PostProcess.copyUnmodified Examples.notesWorld = false /\
  (PostProcess.runPass Examples.notesWorld Examples.twoTransforms
     Examples.initial).1 = [] /\
  writeMessages
    (drop (length (PostProcess.logged Examples.afterFirstPass))
       (PostProcess.logged
          (PostProcess.runPass Examples.notesWorld Examples.twoTransforms
             Examples.afterFirstPass).2))
  = [PostProcess.AddingForTracking "out.txt";
     PostProcess.Writing "out.txt" "/proj/notes.txt";
     PostProcess.AddingForTracking "out.txt";
     PostProcess.Writing "out.txt" "/proj/notes.txt"] /\
  PostProcess.assets (Examples.nextCompilation Examples.afterFirstPass) = ∅ /\
  PostProcess.assets
    (PostProcess.runPass Examples.notesWorld Examples.twoTransforms
       (Examples.nextCompilation Examples.afterFirstPass)).2 !! "out.txt"
  = Some {| PostProcess.assetSize := 3;
            PostProcess.assetSource := list_byte_of_string "abc!" |}.
Proof. repeat split; vm_compute; reflexivity. Qed.

(** C1 (amended): take any list of resolved files in which no destination
    key receives the same source path with two different content hashes,
    and a digest that is never the empty string.  If a first pass over the
    list completed without error and [copyUnmodified] is off, then a second
    pass over the same list, started with the write history the first one
    left, the same cache directory and a cache store holding at least what
    the first one left (the asset table may be a new one), completes
    without error, leaves the asset table and the write history as they
    were, and logs, as its only messages of the write decision, one
    skipped-as-unchanged message per resolved file. *)
Theorem second_pass_skips_every_file
    (w : PostProcess.World)
    (files : list (PostProcess.Pattern * PostProcess.File))
    (st st2 : PostProcess.State) :
  PostProcess.copyUnmodified w = false ->
  (forall content, Js.truthy (PostProcess.getHashDigest w content) = true) ->
  (PostProcess.runPass w files st).1 = [] ->
  consistentHashes (trackedInPass w files st) ->
  PostProcess.written st2 = PostProcess.written (PostProcess.runPass w files st).2 ->
  PostProcess.cacache (PostProcess.runPass w files st).2 ⊆ PostProcess.cacache st2 ->
  dirOf w st2 = dirOf w st ->
  (PostProcess.runPass w files st2).1 = [] /\
  PostProcess.assets (PostProcess.runPass w files st2).2 = PostProcess.assets st2 /\
  PostProcess.written (PostProcess.runPass w files st2).2 = PostProcess.written st2 /\
  exists l,
    PostProcess.logged (PostProcess.runPass w files st2).2
    = PostProcess.logged st2 ++ l /\
    writeMessages l
    = map (fun t => PostProcess.SkippingUnchanged t.1.1) (trackedInPass w files st).
Proof.
  intros Hcu Htruthy Hok Hcons Hwritten Hstore Hdir.
  destruct (runPass_replay w files st st2 Hcu Hok Hdir Hstore)
    as (He & Ha & Hw & _ & Hl).
  - intros to from hash Hin.
    rewrite (writtenWith_written _ _ _ _ _ Hwritten).
    by apply runPass_history.
  - done.
Qed.

Lemma nextCompilation_keeps (st : PostProcess.State) :
  PostProcess.written (Examples.nextCompilation st) = PostProcess.written st /\
  PostProcess.cacache st ⊆ PostProcess.cacache (Examples.nextCompilation st).
Proof. split; reflexivity. Qed.

(** One cached transform, run again over a new compilation. *)
Lemma second_pass_skips_every_file_witness :
  (PostProcess.runPass Examples.notesWorld [(Examples.doubling, Examples.notes)]
     (Examples.nextCompilation
        (PostProcess.runPass Examples.notesWorld
           [(Examples.doubling, Examples.notes)] Examples.initial).2)).1 = [] /\
  PostProcess.assets
    (PostProcess.runPass Examples.notesWorld [(Examples.doubling, Examples.notes)]
       (Examples.nextCompilation
          (PostProcess.runPass Examples.notesWorld
             [(Examples.doubling, Examples.notes)] Examples.initial).2)).2 = ∅.
Proof.
  destruct (second_pass_skips_every_file Examples.notesWorld
              [(Examples.doubling, Examples.notes)] Examples.initial
              (Examples.nextCompilation
                 (PostProcess.runPass Examples.notesWorld
                    [(Examples.doubling, Examples.notes)] Examples.initial).2))
    as (Herrs & Hassets & _).
  - reflexivity.
  - intros content. reflexivity.
  - reflexivity.
  - intros to from h1 h2 H1 H2. vm_compute in H1, H2.
    apply list_elem_of_singleton in H1, H2. congruence.
  - apply nextCompilation_keeps.
  - apply nextCompilation_keeps.
  - reflexivity.
  - split; [exact Herrs | exact Hassets].
Defined.

(** ** The transform cache *)

(** C5: a pattern with a transform and the cache enabled.  A first run of
    the transform stage on some content resolved to [x]: on a hit [x] is
    the cached value, the transform was not called and the store is as it
    was; on a miss the transform was called once, returned [x], and [x] is
    in the store under the cache key in the state the later stages start
    from.  A second run on the same content, for any file, from any state
    with the same cache directory and a store holding at least what the
    first run left, resolves to [x] again without calling the transform.
    Over both runs the transform is called at most once. *)
Theorem cached_transform_runs_once
    (w : PostProcess.World) (pattern : PostProcess.Pattern)
    (t : PostProcess.bytes -> string -> Result PostProcess.bytes)
    (key : option string) (content x : PostProcess.bytes)
    (file1 file2 : PostProcess.File) (st1 st2 : PostProcess.State) :
  PostProcess.transform pattern = Some t ->
  PostProcess.cache pattern = Some key ->
  (PostProcess.transformContent w pattern file1 content st1).1 = Ok x ->
  dirOf w st2 = dirOf w st1 ->
  PostProcess.cacache (PostProcess.transformContent w pattern file1 content st1).2
    ⊆ PostProcess.cacache st2 ->
  let r1 := PostProcess.transformContent w pattern file1 content st1 in
  let r2 := PostProcess.transformContent w pattern file2 content st2 in
  let k := (dirOf w st1, PostProcess.cacheKeyOf w pattern key content) in
  match PostProcess.cacache st1 !! k with
  | Some data =>
      x = data /\
      PostProcess.transformCalls r1.2 = PostProcess.transformCalls st1 /\
      PostProcess.cacache r1.2 = PostProcess.cacache st1
  | None =>
      t content (PostProcess.absoluteFrom file1) = Ok x /\
      PostProcess.transformCalls r1.2
      = PostProcess.transformCalls st1 ++ [(content, PostProcess.absoluteFrom file1)] /\
      PostProcess.cacache r1.2 = <[k := x]> (PostProcess.cacache st1)
  end /\
  r2.1 = Ok x /\
  PostProcess.transformCalls r2.2 = PostProcess.transformCalls st2 /\
  PostProcess.cacache r2.2 = PostProcess.cacache st2 /\
  (length (PostProcess.transformCalls r1.2) + length (PostProcess.transformCalls r2.2)
   <= length (PostProcess.transformCalls st1) + length (PostProcess.transformCalls st2) + 1)%nat.
Proof.
  intros Ht Hc Hr Hdir Hsub r1 r2 k. subst r1 r2 k.
  destruct (transformContent_spec w pattern file1 content st1)
    as (_ & _ & _ & _ & _ & Hcase1).
  destruct (transformContent_spec w pattern file2 content st2)
    as (_ & _ & _ & _ & _ & Hcase2).
  rewrite Ht, Hc in Hcase1, Hcase2. cbv zeta in Hcase1, Hcase2.
  rewrite Hdir in Hcase2.
  assert (Hhit : PostProcess.cacache st2
                   !! (dirOf w st1, PostProcess.cacheKeyOf w pattern key content)
                 = Some x).
  { eapply lookup_weaken; [|exact Hsub].
    destruct (PostProcess.cacache st1 !! _) as [data|] eqn:Hget.
    - destruct Hcase1 as (H1 & H2 & _). rewrite H2, Hget. congruence.
    - destruct Hcase1 as (H1 & _ & H3). rewrite H3.
      rewrite <- H1, Hr. apply lookup_insert_eq. }
  rewrite Hhit in Hcase2. destruct Hcase2 as (Hr2 & Hs2 & Hc2).
  destruct (PostProcess.cacache st1 !! _) as [data|].
  - destruct Hcase1 as (H1 & H2 & H3).
    repeat split; try done; [congruence | rewrite H3, Hc2; lia].
  - destruct Hcase1 as (H1 & H2 & H3). rewrite <- H1, Hr in H3.
    repeat split; try done; [congruence | rewrite H2, Hc2, length_app; simpl; lia].
Qed.

(** The doubling transform on [abc]: one call on the miss, none on the hit. *)
Lemma cached_transform_runs_once_witness :
  let r1 := PostProcess.transformContent Examples.notesWorld Examples.doubling
              Examples.notes (list_byte_of_string "abc") Examples.initial in
  let r2 := PostProcess.transformContent Examples.notesWorld Examples.doubling
              Examples.notes (list_byte_of_string "abc")
              (Examples.nextCompilation r1.2) in
  r1.1 = Ok (list_byte_of_string "abcabc") /\
  PostProcess.transformCalls r1.2
  = [(list_byte_of_string "abc", "/proj/notes.txt")] /\
  r2.1 = Ok (list_byte_of_string "abcabc") /\
  PostProcess.transformCalls r2.2 = PostProcess.transformCalls r1.2.
Proof.
  destruct (cached_transform_runs_once Examples.notesWorld Examples.doubling
              (fun content _ => Ok (content ++ content)) None
              (list_byte_of_string "abc") (list_byte_of_string "abcabc")
              Examples.notes Examples.notes Examples.initial
              (Examples.nextCompilation
                 (PostProcess.transformContent Examples.notesWorld
                    Examples.doubling Examples.notes
                    (list_byte_of_string "abc") Examples.initial).2)
              eq_refl eq_refl eq_refl eq_refl)
    as ((_ & Hcalls1 & _) & Hr2 & Hcalls2 & _).
  - apply nextCompilation_keeps.
  - split; [reflexivity|]. split; [exact Hcalls1|].
    split; [exact Hr2 | exact Hcalls2].
Defined.

(** The same over the whole function: once the pipeline of a file with a
    cached transform has resolved, a later [postProcessPattern] over that
    file resolves to the same content and destination without calling the
    transform, and the first one called it at most once. *)
Theorem cached_pipeline_replays
    (w : PostProcess.World) (pattern : PostProcess.Pattern)
    (file : PostProcess.File) (key : option string) (st st2 : PostProcess.State)
    (stats : PostProcess.Stats) (content : PostProcess.bytes)
    (file' : PostProcess.File) :
  PostProcess.cache pattern = Some key ->
  (PostProcess.contentPipeline w pattern file st).1
    = Ok (Some (stats, content, file')) ->
  dirOf w st2 = dirOf w st ->
  PostProcess.cacache (PostProcess.postProcessPattern w pattern file st).2
    ⊆ PostProcess.cacache st2 ->
  (length (PostProcess.transformCalls
             (PostProcess.postProcessPattern w pattern file st).2)
   <= length (PostProcess.transformCalls st) + 1)%nat /\
  (PostProcess.contentPipeline w pattern file st2).1
    = Ok (Some (stats, content, file')) /\
  PostProcess.transformCalls (PostProcess.postProcessPattern w pattern file st2).2
  = PostProcess.transformCalls st2.
Proof.
  intros Hc Hrun Hdir Hsub. split.
  - rewrite postProcessPattern_calls.
    destruct (Framed_contentPipeline w pattern file st)
      as (_ & _ & _ & _ & _ & c & Hcalls & Hlen).
    rewrite Hcalls, length_app. lia.
  - destruct (postProcessPattern_cache w pattern file st) as (_ & _ & Heq).
    rewrite <- Heq in Hsub.
    destruct (Replays_contentPipeline w pattern file st _ Hrun st2 Hdir Hsub)
      as (Hr2 & _ & Hcalls2).
    split; [done|]. rewrite postProcessPattern_calls. apply Hcalls2.
    rewrite Hc. by apply bool_decide_eq_true.
Qed.

(** The doubling pattern over the notes file, twice. *)
Lemma cached_pipeline_replays_witness :
  (PostProcess.contentPipeline Examples.notesWorld Examples.doubling Examples.notes
     (Examples.nextCompilation
        (PostProcess.postProcessPattern Examples.notesWorld
           Examples.doubling Examples.notes Examples.initial).2)).1
  = Ok (Some ({| PostProcess.isDirectory := false; PostProcess.size := 3 |},
              list_byte_of_string "abcabc", Examples.notes)) /\
  PostProcess.transformCalls
    (PostProcess.postProcessPattern Examples.notesWorld Examples.doubling
       Examples.notes
       (Examples.nextCompilation
          (PostProcess.postProcessPattern Examples.notesWorld
             Examples.doubling Examples.notes Examples.initial).2)).2
  = PostProcess.transformCalls
      (PostProcess.postProcessPattern Examples.notesWorld
         Examples.doubling Examples.notes Examples.initial).2.
Proof.
  destruct (cached_pipeline_replays Examples.notesWorld Examples.doubling
              Examples.notes None Examples.initial
              (Examples.nextCompilation
                 (PostProcess.postProcessPattern Examples.notesWorld
                    Examples.doubling Examples.notes Examples.initial).2)
              {| PostProcess.isDirectory := false; PostProcess.size := 3 |}
              (list_byte_of_string "abcabc") Examples.notes
              eq_refl eq_refl eq_refl)
    as (_ & Hcontent & Hcalls).
  - apply nextCompilation_keeps.
  - split; [exact Hcontent | exact Hcalls].
Defined.

(** ** The committed asset *)

(** C4 at a transform that changes the length: [/proj/notes.txt] holds the
    three bytes [abc] and the transform doubles them.  The committed entry
    has the six transformed bytes as its source and 3, the stat size of the
    untransformed file, as its size. *)
Lemma transformed_asset_keeps_stat_size :
  PostProcess.assets
    (PostProcess.postProcessPattern Examples.notesWorld Examples.doubling
       Examples.notes Examples.initial).2 !! "out.txt"
  = Some {| PostProcess.assetSize := 3;
            PostProcess.assetSource := list_byte_of_string "abcabc" |} /\
  Z.of_nat (length (list_byte_of_string "abcabc")) = 6.
Proof. split; vm_compute; reflexivity. Qed.

(** Whatever [postProcessPattern] commits is the stat size paired with the
    final content: the asset table is left as it was, or it gains, under the
    normalised destination key, the entry whose size is [stats.size] and
    whose source is the content the pipeline resolved to. *)
Theorem committed_asset_is_stat_size_and_final_content
    (w : PostProcess.World) (pattern : PostProcess.Pattern)
    (file : PostProcess.File) (st : PostProcess.State) :
  let st1 := (PostProcess.contentPipeline w pattern file st).2 in
  let st' := (PostProcess.postProcessPattern w pattern file st).2 in
  PostProcess.assets st1 = PostProcess.assets st /\
  match (PostProcess.contentPipeline w pattern file st).1 with
  | Ok (Some (stats, content, file')) =>
      PostProcess.assets st' = PostProcess.assets st \/
      PostProcess.assets st'
      = <[PostProcess.normalizePath w (PostProcess.webpackTo file') :=
            {| PostProcess.assetSize := PostProcess.size stats;
               PostProcess.assetSource := content |}]> (PostProcess.assets st)
  | _ => PostProcess.assets st' = PostProcess.assets st
  end.
Proof.
  cbv zeta. rewrite postProcessPattern_eq.
  destruct (Framed_contentPipeline w pattern file st) as (_ & Ha & _).
  split; [done|].
  destruct (PostProcess.contentPipeline w pattern file st)
    as [[[[[stats content] file']|]|e] st1]; simpl in *; try done.
  rewrite <- Ha. apply writeDecision_assets.
Qed.

(** * Further properties of the entry point *)

(** ** What the emit handler keeps *)

Section QuietSteps.

Variable w : Index.World.

Lemma Quiet_weaken {A} (forced : bool) (m : Promise Index.State A) :
  Quiet false m -> Quiet forced m.
Proof.
  intros Hm st. destruct (Hm st) as (He & Hl & Hf & Hd & Ha).
  repeat split; try done. intros key asset Hk. specialize (Ha key asset Hk).
  destruct forced; [by rewrite Ha|done].
Qed.

Lemma Quiet_await {A} (r : Result A) : Quiet false (await r : Promise Index.State A).
Proof. intros st. repeat split; done. Qed.

Lemma Quiet_ret {A} (a : A) : Quiet false (mret a : Promise Index.State A).
Proof. intros st. repeat split; done. Qed.

Lemma Quiet_gets {A} (f : Index.State -> A) : Quiet false (gets f).
Proof. intros st. repeat split; done. Qed.

Lemma Quiet_bind {A B} (forced : bool) (m : Promise Index.State A)
    (k : A -> Promise Index.State B) :
  Quiet forced m -> (forall a, Quiet forced (k a)) -> Quiet forced (m ≫= k).
Proof.
  intros Hm Hk st. unfold mbind, promise_bind, andThen.
  destruct (Hm st) as (He & Hl & Hf & Hd & Ha).
  destruct (m st) as [[a|e] st']; simpl in *; [|done].
  destruct (Hk a st') as (He' & Hl' & Hf' & Hd' & Ha').
  repeat split; try congruence.
  intros key asset Hkey. specialize (Ha key asset Hkey).
  destruct forced.
  - destruct Ha as [asset' Ha]. by apply (Ha' key asset').
  - by apply Ha'.
Qed.

Lemma Quiet_each {A} (forced : bool) (f : A -> Promise Index.State unit)
    (items : list A) :
  (forall x, x ∈ items -> Quiet forced (f x)) -> Quiet forced (each f items).
Proof.
  induction items as [|x items IH]; intros Hf.
  - apply Quiet_weaken, Quiet_ret.
  - simpl. apply Quiet_bind; [apply Hf; by left|].
    intros _. apply IH. intros y Hy. apply Hf. by right.
Qed.

Lemma Quiet_fsCopy (src dest : string) : Quiet false (Index.fsCopy w src dest).
Proof.
  unfold Index.fsCopy. apply Quiet_bind; [by intros st|].
  intros _. destruct (Index.copyAsync w src dest); by intros st.
Qed.

Lemma Quiet_writeFileToAssets (absFileSrc relFileDest : string)
    (forceWrite : bool) (lastGlobalUpdate : Z) :
  Quiet forceWrite
    (Index.writeFileToAssets w absFileSrc relFileDest forceWrite lastGlobalUpdate).
Proof.
  intros st. unfold Index.writeFileToAssets. promise_unfold.
  assert (Hsame : forall key asset,
            Index.assets st !! key = Some asset ->
            if forceWrite then is_Some (Index.assets st !! key)
            else Index.assets st !! key = Some asset)
    by (intros key asset Hkey; destruct forceWrite; by rewrite ?Hkey).
  destruct (bool_decide (is_Some (Index.assets st !! relFileDest))
            && negb forceWrite) eqn:Hskip; simpl; [done|].
  destruct (Index.statAsync w absFileSrc) as [stat|e]; simpl; [|done].
  destruct (Index.mtime stat >? lastGlobalUpdate); simpl; [|done].
  repeat split; try done. intros key asset Hkey.
  destruct (decide (relFileDest = key)) as [->|Hne].
  - rewrite lookup_insert_eq. destruct forceWrite; [done|].
    rewrite andb_true_r in Hskip. apply bool_decide_eq_false in Hskip.
    destruct Hskip. by rewrite Hkey.
  - rewrite lookup_insert_ne by done. by apply Hsame.
Qed.

Lemma Quiet_writeDirectoryToAssets (absDirSrc relDirDest : string)
    (forceWrite : bool) (lastGlobalUpdate : Z) (ignoreList : option (list string)) :
  Quiet forceWrite
    (Index.writeDirectoryToAssets w absDirSrc relDirDest forceWrite
       lastGlobalUpdate ignoreList).
Proof.
  unfold Index.writeDirectoryToAssets.
  apply Quiet_bind; [apply Quiet_weaken, Quiet_await|]. intros files.
  apply Quiet_each. intros absFileSrc _. cbv zeta.
  destruct (Index.shouldIgnore w _ ignoreList); [apply Quiet_weaken, Quiet_ret|].
  apply Quiet_writeFileToAssets.
Qed.

Lemma Quiet_processPattern (ignoreList : option (list string))
    (pattern : Index.Pattern) :
  Quiet (Index.force pattern) (Index.processPattern w ignoreList pattern).
Proof.
  assert (Hglob : forall stat,
            Quiet (Index.force pattern)
              (Index.globBranch w ignoreList pattern stat)).
  { intros stat. unfold Index.globBranch. cbv zeta.
    apply Quiet_bind; [apply Quiet_weaken, Quiet_await|]. intros matches.
    apply Quiet_each. intros relFileSrc _.
    destruct (Index.shouldIgnore w _ ignoreList); [apply Quiet_weaken, Quiet_ret|].
    apply Quiet_bind; [by apply Quiet_weaken; intros st|]. intros _.
    destruct (Index.absDestOf w _); [apply Quiet_weaken, Quiet_fsCopy|].
    apply Quiet_bind; [apply Quiet_weaken, Quiet_gets|]. intros lastGlobalUpdate.
    apply Quiet_writeFileToAssets. }
  unfold Index.processPattern.
  destruct (Index.statOrNull w _) as [stat|]; [|apply Hglob].
  destruct (Index.isDirectory stat); [|apply Hglob].
  unfold Index.directoryBranch. cbv zeta.
  apply Quiet_bind; [by apply Quiet_weaken; intros st|]. intros _.
  destruct (Index.absDestOf w _);
    [destruct (Index.toLooksLikeDirectory w pattern);
       [apply Quiet_weaken, Quiet_fsCopy|]|];
    (apply Quiet_bind; [apply Quiet_weaken, Quiet_gets|]; intros lastGlobalUpdate;
     apply Quiet_writeDirectoryToAssets).
Qed.

End QuietSteps.

Lemma Quiet_forced {A} (forced : bool) (m : Promise Index.State A) :
  Quiet forced m -> Quiet true m.
Proof.
  intros Hm st. destruct (Hm st) as (He & Hl & Hf & Hd & Ha).
  repeat split; try done. intros key asset Hk. specialize (Ha key asset Hk).
  destruct forced; [done|by rewrite Ha].
Qed.

Lemma each_app {S A} (f : A -> Promise S unit) (l1 l2 : list A) (st : S) :
  each f (l1 ++ l2) st
  = match each f l1 st with
    | (Ok _, st1) => each f l2 st1
    | (Rejected e, st1) => (Rejected e, st1)
    end.
Proof.
  revert st. induction l1 as [|x l1 IH]; intros st; [done|].
  simpl. unfold mbind, promise_bind, andThen.
  destruct (f x st) as [[[]|e] st']; [apply IH|done].
Qed.

(** The first pattern that is rejected ends the pass: the patterns after it
    are never processed, its error is the one error pushed onto
    [compilation.errors], and [lastGlobalUpdate] keeps the value it had, so
    that the next pass takes every file for new again. *)
Theorem emit_stops_at_first_rejection
    (w : Index.World) (now : Z) (before after : list Index.Pattern)
    (failing : Index.Pattern) (opts : option Index.Options)
    (st st1 st2 : Index.State) (e : Err) :
  each (Index.processPattern w (opts ≫= Index.ignore)) before st = (Ok tt, st1) ->
  Index.processPattern w (opts ≫= Index.ignore) failing st1 = (Rejected e, st2) ->
  Index.emit w now (before ++ failing :: after) opts st
  = Index.setErrors (Index.errors st ++ [e]) st2 /\
  Index.lastGlobalUpdate (Index.emit w now (before ++ failing :: after) opts st)
  = Index.lastGlobalUpdate st.
Proof.
  intros Hbefore Hfail. unfold Index.emit.
  rewrite each_app, Hbefore. rewrite (each_cons_rejected _ _ _ _ _ _ Hfail).
  pose proof (Quiet_each true (Index.processPattern w (opts ≫= Index.ignore)) before
                (fun p _ => Quiet_forced _ _ (Quiet_processPattern w _ p)) st)
    as (He1 & Hl1 & _).
  pose proof (Quiet_processPattern w (opts ≫= Index.ignore) failing st1)
    as (He2 & Hl2 & _).
  rewrite Hbefore in He1, Hl1. rewrite Hfail in He2, Hl2. simpl in *.
  split; [by rewrite He2, He1 | by rewrite Hl2, Hl1].
Qed.

(** A pattern whose match cannot be stat'ed, between two that can be
    processed: the third one leaves no trace. *)
Lemma emit_stops_at_first_rejection_witness :
  Index.emit Site.world 5000
    [Site.pattern "assets/a.txt" (Some "out/") false;
     Site.pattern "gone/*.txt" None false;
     Site.pattern "static" (Some "public") false] None Site.emptyState
  = Index.setErrors [SystemError "ENOENT" "/site/gone/x.txt"]
      (Index.processPattern Site.world None (Site.pattern "gone/*.txt" None false)
         (Index.processPattern Site.world None
            (Site.pattern "assets/a.txt" (Some "out/") false) Site.emptyState).2).2 /\
  Index.lastGlobalUpdate
    (Index.emit Site.world 5000
       [Site.pattern "assets/a.txt" (Some "out/") false;
        Site.pattern "gone/*.txt" None false;
        Site.pattern "static" (Some "public") false] None Site.emptyState)
  = 0.
Proof.
  apply (emit_stops_at_first_rejection Site.world 5000
           [Site.pattern "assets/a.txt" (Some "out/") false]
           [Site.pattern "static" (Some "public") false]
           (Site.pattern "gone/*.txt" None false) None Site.emptyState
           (Index.processPattern Site.world None
              (Site.pattern "assets/a.txt" (Some "out/") false) Site.emptyState).2
           (Index.processPattern Site.world None (Site.pattern "gone/*.txt" None false)
              (Index.processPattern Site.world None
                 (Site.pattern "assets/a.txt" (Some "out/") false)
                 Site.emptyState).2).2
           (SystemError "ENOENT" "/site/gone/x.txt")).
  - vm_compute. reflexivity.
  - vm_compute. reflexivity.
Defined.

(** A pass pushes at most one error and removes none, and it moves
    [lastGlobalUpdate] to the current time exactly when it pushes none; the
    tracked files and directories are not its business. *)
Theorem emit_errors_and_clock
    (w : Index.World) (now : Z) (patterns : list Index.Pattern)
    (opts : option Index.Options) (st : Index.State) :
  let st' := Index.emit w now patterns opts st in
  (Index.errors st' = Index.errors st /\ Index.lastGlobalUpdate st' = now \/
   exists e, Index.errors st' = Index.errors st ++ [e] /\
             Index.lastGlobalUpdate st' = Index.lastGlobalUpdate st) /\
  Index.trackedFiles st' = Index.trackedFiles st /\
  Index.trackedDirs st' = Index.trackedDirs st.
Proof.
  cbv zeta. unfold Index.emit.
  pose proof (Quiet_each true (Index.processPattern w (opts ≫= Index.ignore)) patterns
                (fun p _ => Quiet_forced _ _ (Quiet_processPattern w _ p)) st)
    as (He & Hl & Hf & Hd & _).
  destruct (each _ patterns st) as [[[]|e] st']; simpl in *.
  - split; [by left|done].
  - split; [right; exists e; by rewrite He|done].
Qed.

(** A pass never removes an asset-table entry, and when no pattern is
    forced it never replaces one either: an entry that is in the table when
    the pass starts, whoever put it there, is there unchanged when it ends. *)
Theorem emit_keeps_existing_assets
    (w : Index.World) (now : Z) (patterns : list Index.Pattern)
    (opts : option Index.Options) (st : Index.State)
    (key : string) (asset : Index.Asset) :
  Index.assets st !! key = Some asset ->
  is_Some (Index.assets (Index.emit w now patterns opts st) !! key) /\
  (Forall (fun p => Index.force p = false) patterns ->
   Index.assets (Index.emit w now patterns opts st) !! key = Some asset).
Proof.
  intros Hkey. unfold Index.emit. split.
  - pose proof (Quiet_each true (Index.processPattern w (opts ≫= Index.ignore))
                  patterns
                  (fun p _ => Quiet_forced _ _ (Quiet_processPattern w _ p)) st)
      as (_ & _ & _ & _ & Ha).
    specialize (Ha key asset Hkey).
    by destruct (each _ patterns st) as [[[]|e] st'].
  - intros Hforce.
    assert (Hq : forall p, p ∈ patterns ->
                 Quiet false (Index.processPattern w (opts ≫= Index.ignore) p)).
    { intros p Hp. rewrite <- (proj1 (Forall_forall _ _) Hforce p Hp).
      apply Quiet_processPattern. }
    pose proof (Quiet_each false _ patterns Hq st) as (_ & _ & _ & _ & Ha).
    specialize (Ha key asset Hkey).
    by destruct (each _ patterns st) as [[[]|e] st'].
Qed.

(** The file [assets/a.txt] would go to [out/a.txt], which is taken. *)
Lemma emit_keeps_existing_assets_witness :
  Index.assets
    (Index.emit Site.world 5000 [Site.pattern "assets/a.txt" (Some "out/") false]
       None Site.occupiedState) !! "out/a.txt"
  = Some Site.foreignAsset.
Proof.
  destruct (emit_keeps_existing_assets Site.world 5000
              [Site.pattern "assets/a.txt" (Some "out/") false] None
              Site.occupiedState "out/a.txt" Site.foreignAsset eq_refl)
    as [_ Hkept].
  apply Hkept. repeat constructor.
Defined.

(** ** The after-emit handler *)

Lemma pushMissing_snoc (tracked deps : list string) (file : string) :
  Index.pushMissing tracked (deps ++ [file])
  = if bool_decide (file ∈ Index.pushMissing tracked deps)
    then Index.pushMissing tracked deps
    else Index.pushMissing tracked deps ++ [file].
Proof. unfold Index.pushMissing. by rewrite fold_left_app. Qed.

Lemma pushMissing_spec (tracked deps : list string) :
  exists more,
    Index.pushMissing tracked deps = tracked ++ more /\
    NoDup more /\
    forall file, file ∈ more <-> file ∈ deps /\ file ∉ tracked.
Proof.
  induction deps as [|file deps IH] using rev_ind.
  - exists []. split; [by rewrite app_nil_r|]. split; [constructor|].
    intros file. split; [by intros ?%elem_of_nil|by intros [?%elem_of_nil _]].
  - destruct IH as (more & Heq & Hnd & Hin). rewrite pushMissing_snoc, Heq.
    case_bool_decide as Hold.
    + exists more. split; [done|]. split; [done|].
      intros f. rewrite Hin, elem_of_app, list_elem_of_singleton.
      split; [tauto|]. intros [[Hf| ->] Hn]; [done|].
      apply elem_of_app in Hold as [Hold|Hold]; [done|]. by apply Hin.
    + exists (more ++ [file]). split; [by rewrite app_assoc|].
      rewrite elem_of_app in Hold. split.
      * apply NoDup_app. split; [done|]. split; [|apply NoDup_singleton].
        intros f Hf ->%list_elem_of_singleton. tauto.
      * intros f. rewrite !elem_of_app, Hin, list_elem_of_singleton.
        split; [intros [[? ?]| ->]; tauto|]. tauto.
Qed.

Lemma pushMissing_tracked (tracked deps : list string) :
  (forall file, file ∈ deps -> file ∈ tracked) ->
  Index.pushMissing tracked deps = tracked.
Proof.
  intros Hall. destruct (pushMissing_spec tracked deps) as (more & -> & _ & Hin).
  destruct more as [|file more]; [by rewrite app_nil_r|].
  destruct (proj1 (Hin file) (list_elem_of_here _ _)) as [Hd Hn].
  destruct (Hn (Hall _ Hd)).
Qed.

Lemma pushMissing_complete (tracked deps : list string) (file : string) :
  file ∈ deps -> file ∈ Index.pushMissing tracked deps.
Proof.
  intros Hin.
  destruct (pushMissing_spec tracked deps) as (more & -> & _ & Hmore).
  rewrite elem_of_app. destruct (decide (file ∈ tracked)); [by left|].
  right. by apply Hmore.
Qed.

(** After the after-emit handler every file and directory the plugin
    collected is tracked by the compilation.  What the compilation tracked
    before keeps its place; the handler appends, once each, exactly the
    collected paths that were not tracked yet; it changes nothing else, and
    it does not empty the plugin's own lists. *)
Theorem afterEmit_tracks_what_is_missing (st : Index.State) :
  let st' := Index.afterEmit st in
  (exists more,
     Index.trackedFiles st' = Index.trackedFiles st ++ more /\ NoDup more /\
     forall file, file ∈ more <->
       file ∈ Index.fileDependencies st /\ file ∉ Index.trackedFiles st) /\
  (exists more,
     Index.trackedDirs st' = Index.trackedDirs st ++ more /\ NoDup more /\
     forall dir, dir ∈ more <->
       dir ∈ Index.contextDependencies st /\ dir ∉ Index.trackedDirs st) /\
  (forall file, file ∈ Index.fileDependencies st -> file ∈ Index.trackedFiles st') /\
  (forall dir, dir ∈ Index.contextDependencies st -> dir ∈ Index.trackedDirs st') /\
  Index.setTracked (Index.trackedFiles st) (Index.trackedDirs st) st' = st.
Proof.
  cbv zeta. unfold Index.afterEmit. cbn.
  pose proof (pushMissing_spec (Index.trackedFiles st) (Index.fileDependencies st))
    as (files & Hf & Hfd & Hfin).
  pose proof (pushMissing_spec (Index.trackedDirs st) (Index.contextDependencies st))
    as (dirs & Hd & Hdd & Hdin).
  split; [by exists files|]. split; [by exists dirs|].
  split; [|split].
  - intros file. apply pushMissing_complete.
  - intros dir. apply pushMissing_complete.
  - by destruct st.
Qed.

(** The after-emit handler is idempotent: run again with no emit in
    between, it finds everything tracked and pushes nothing. *)
Theorem afterEmit_idempotent (st : Index.State) :
  Index.afterEmit (Index.afterEmit st) = Index.afterEmit st.
Proof.
  unfold Index.afterEmit, Index.setTracked. cbn -[Index.pushMissing].
  rewrite (pushMissing_tracked (Index.pushMissing _ (Index.fileDependencies st)))
    by (intros ?; apply pushMissing_complete).
  by rewrite (pushMissing_tracked (Index.pushMissing _ (Index.contextDependencies st)))
    by (intros ?; apply pushMissing_complete).
Qed.

(** ** The ignore list *)






(** ** What the plugin watches *)

Section Dependencies.

Variable w : Index.World.

Lemma KeepsDependencies_ret {A} (a : A) :
  KeepsDependencies (mret a : Promise Index.State A).
Proof. by intros st. Qed.

Lemma KeepsDependencies_await {A} (r : Result A) :
  KeepsDependencies (await r : Promise Index.State A).
Proof. intros st. unfold await. by destruct r. Qed.

Lemma KeepsDependencies_gets {A} (f : Index.State -> A) :
  KeepsDependencies (gets f).
Proof. by intros st. Qed.

Lemma KeepsDependencies_bind {A B} (m : Promise Index.State A)
    (k : A -> Promise Index.State B) :
  KeepsDependencies m -> (forall a, KeepsDependencies (k a)) ->
  KeepsDependencies (m ≫= k).
Proof.
  intros Hm Hk st. unfold mbind, promise_bind, andThen.
  destruct (Hm st) as [Hf Hc].
  destruct (m st) as [[a|e] st1]; simpl in *; [|done].
  destruct (Hk a st1) as [Hf' Hc']. by rewrite Hf', Hc'.
Qed.

Lemma KeepsDependencies_each {A} (f : A -> Promise Index.State unit)
    (items : list A) :
  (forall x, KeepsDependencies (f x)) -> KeepsDependencies (each f items).
Proof.
  intros Hf. induction items as [|x items IH]; [by intros st|].
  simpl. apply KeepsDependencies_bind; [apply Hf|]. by intros [].
Qed.

Lemma KeepsDependencies_fsCopy (src dest : string) :
  KeepsDependencies (Index.fsCopy w src dest).
Proof.
  intros st. unfold Index.fsCopy. promise_unfold.
  by destruct (Index.copyAsync w src dest).
Qed.

Lemma KeepsDependencies_writeFileToAssets (absFileSrc relFileDest : string)
    (forceWrite : bool) (lastGlobalUpdate : Z) :
  KeepsDependencies
    (Index.writeFileToAssets w absFileSrc relFileDest forceWrite lastGlobalUpdate).
Proof.
  unfold Index.writeFileToAssets.
  apply KeepsDependencies_bind; [apply KeepsDependencies_gets|]. intros existing.
  destruct (bool_decide (is_Some existing) && negb forceWrite);
    [apply KeepsDependencies_ret|].
  apply KeepsDependencies_bind; [apply KeepsDependencies_await|]. intros stat.
  destruct (Index.mtime stat >? lastGlobalUpdate);
    [by intros st|apply KeepsDependencies_ret].
Qed.

Lemma KeepsDependencies_writeDirectoryToAssets (absDirSrc relDirDest : string)
    (forceWrite : bool) (lastGlobalUpdate : Z) (ignoreList : option (list string)) :
  KeepsDependencies
    (Index.writeDirectoryToAssets w absDirSrc relDirDest forceWrite
       lastGlobalUpdate ignoreList).
Proof.
  unfold Index.writeDirectoryToAssets.
  apply KeepsDependencies_bind; [apply KeepsDependencies_await|]. intros files.
  apply KeepsDependencies_each. intros absFileSrc. cbv zeta.
  destruct (Index.shouldIgnore w _ ignoreList); [apply KeepsDependencies_ret|].
  apply KeepsDependencies_writeFileToAssets.
Qed.

(** The loop of the glob branch pushes the resolved path of every match it
    reaches that is not ignored, and it stops at the first rejection. *)
Lemma globLoop_dependencies (ignoreList : option (list string))
    (tail : string -> Promise Index.State unit)
    (matches : list string) (st : Index.State) :
  (forall m, KeepsDependencies (tail m)) ->
  let r :=
    each (fun relFileSrc =>
      if Index.shouldIgnore w relFileSrc ignoreList then mret tt
      else
        modify (fun st =>
          Index.setFileDependencies
            (Index.fileDependencies st ++ [absFileSrcOf w relFileSrc]) st) ;;
        tail relFileSrc) matches st in
  Index.contextDependencies r.2 = Index.contextDependencies st /\
  exists reached,
    reached `prefix_of` kept w ignoreList matches /\
    Index.fileDependencies r.2
    = Index.fileDependencies st ++ map (absFileSrcOf w) reached /\
    (r.1 = Ok tt -> reached = kept w ignoreList matches).
Proof.
  intros Htail. cbv zeta. revert st.
  induction matches as [|m matches IH]; intros st.
  - split; [done|]. exists []. by rewrite app_nil_r.
  - unfold kept in *. rewrite filter_cons. simpl each.
    destruct (Index.shouldIgnore w m ignoreList) eqn:Hm.
    + rewrite decide_False by done. apply IH.
    + rewrite decide_True by done. promise_unfold. cbn [fst snd].
      destruct (Htail m (Index.setFileDependencies
                           (Index.fileDependencies st ++ [absFileSrcOf w m]) st))
        as [Hf Hc].
      destruct (tail m _) as [[[]|e] st1]; simpl in *.
      * destruct (IH st1) as (Hc' & reached & Hpre & Hf' & Hall).
        split; [by rewrite Hc', Hc|]. exists (m :: reached).
        split; [by apply prefix_cons|].
        split; [by rewrite Hf', Hf, <- app_assoc|].
        intros Hok. by rewrite (Hall Hok).
      * split; [done|]. exists [m].
        split; [apply prefix_cons, prefix_nil|]. by split.
Qed.

Lemma globBranch_dependencies (ignoreList : option (list string))
    (pattern : Index.Pattern) (stat : option Index.Stats) (st : Index.State) :
  let r := Index.globBranch w ignoreList pattern stat st in
  Index.contextDependencies r.2 = Index.contextDependencies st /\
  exists reached,
    reached `prefix_of` keptMatches w ignoreList pattern /\
    Index.fileDependencies r.2
    = Index.fileDependencies st ++ map (absFileSrcOf w) reached /\
    (r.1 = Ok tt -> reached = keptMatches w ignoreList pattern).
Proof.
  cbv zeta. unfold keptMatches.
  pose proof (fun matches => globLoop_dependencies ignoreList
             (fun relFileSrc =>
                match Index.absDestOf w (default "" (Index.to pattern)) with
                | Some absDest =>
                    Index.fsCopy w (absFileSrcOf w relFileSrc)
                      (if Index.toLooksLikeDirectory w pattern
                       then join (Index.path w)
                              [absDest;
                               basename (Index.path w) (absFileSrcOf w relFileSrc)]
                       else absDest)
                | None =>
                    lastGlobalUpdate ← gets Index.lastGlobalUpdate;
                    Index.writeFileToAssets w (absFileSrcOf w relFileSrc)
                      (Index.relFileDestOf w pattern stat relFileSrc)
                      (Index.force pattern) lastGlobalUpdate
                end) matches st) as Hloop.
  cbv zeta in Hloop. unfold Index.globBranch.
  destruct (Index.globAsync w (Index.from pattern) (Index.context w))
    as [matches|e].
  - apply Hloop.
    intros m. destruct (Index.absDestOf w _); [apply KeepsDependencies_fsCopy|].
    apply KeepsDependencies_bind; [apply KeepsDependencies_gets|].
    intros t. apply KeepsDependencies_writeFileToAssets.
  - split; [done|]. exists []. by rewrite app_nil_r.
Qed.

Lemma directoryBranch_dependencies (ignoreList : option (list string))
    (pattern : Index.Pattern) (st : Index.State) :
  let r := Index.directoryBranch w ignoreList pattern st in
  Index.fileDependencies r.2 = Index.fileDependencies st /\
  Index.contextDependencies r.2
  = Index.contextDependencies st ++
    [resolve (Index.path w) [Index.context w; Index.from pattern]].
Proof.
  cbv zeta.
  set (absSrc := resolve (Index.path w) [Index.context w; Index.from pattern]).
  set (st1 := Index.setContextDependencies
                (Index.contextDependencies st ++ [absSrc]) st).
  set (viaAssets :=
         lastGlobalUpdate ← gets Index.lastGlobalUpdate;
         Index.writeDirectoryToAssets w absSrc (default "" (Index.to pattern))
           (Index.force pattern) lastGlobalUpdate ignoreList).
  assert (Hk : KeepsDependencies viaAssets).
  { apply KeepsDependencies_bind; [apply KeepsDependencies_gets|].
    intros t. apply KeepsDependencies_writeDirectoryToAssets. }
  assert (Heq : Index.directoryBranch w ignoreList pattern st
                = match Index.absDestOf w (default "" (Index.to pattern)) with
                  | Some absDest =>
                      if Index.toLooksLikeDirectory w pattern
                      then Index.fsCopy w absSrc absDest st1
                      else viaAssets st1
                  | None => viaAssets st1
                  end).
  { unfold Index.directoryBranch. fold absSrc. fold viaAssets.
    by destruct (Index.absDestOf w _) as [absDest|];
      [destruct (Index.toLooksLikeDirectory w pattern)|]. }
  rewrite Heq.
  destruct (Index.absDestOf w _) as [absDest|];
    [destruct (Index.toLooksLikeDirectory w pattern)|].
  - by destruct (KeepsDependencies_fsCopy absSrc absDest st1) as [-> ->].
  - by destruct (Hk st1) as [-> ->].
  - by destruct (Hk st1) as [-> ->].
Qed.

End Dependencies.

(** What a pattern adds to the plugin's watch lists.  A [from] that is a
    directory is watched as a context dependency and through no file
    dependency.  Any other [from] adds no context dependency, and adds as
    file dependencies the resolved paths of the matches that pass the ignore
    list, in order, whether or not they end up written: all of them when the
    pattern resolves, and the ones up to the failing one when it is rejected. *)
Theorem processPattern_watches
    (w : Index.World) (ignoreList : option (list string))
    (pattern : Index.Pattern) (st : Index.State) :
  let r := Index.processPattern w ignoreList pattern st in
  if fromIsDirectory w pattern then
    Index.fileDependencies r.2 = Index.fileDependencies st /\
    Index.contextDependencies r.2
    = Index.contextDependencies st ++
      [resolve (Index.path w) [Index.context w; Index.from pattern]]
  else
    Index.contextDependencies r.2 = Index.contextDependencies st /\
    exists reached,
      reached `prefix_of` keptMatches w ignoreList pattern /\
      Index.fileDependencies r.2
      = Index.fileDependencies st ++ map (absFileSrcOf w) reached /\
      (r.1 = Ok tt -> reached = keptMatches w ignoreList pattern).
Proof.
  cbv zeta. unfold fromIsDirectory, Index.processPattern.
  destruct (Index.statOrNull w _) as [stat|];
    [destruct (Index.isDirectory stat)|].
  - apply directoryBranch_dependencies.
  - apply globBranch_dependencies.
  - apply globBranch_dependencies.
Qed.

(** ** A directory as the source *)

Section DirectorySource.

Variable w : Index.World.

Lemma NoCopy_ret {A} (a : A) : NoCopy (mret a : Promise Index.State A).
Proof. by intros st. Qed.

Lemma NoCopy_await {A} (r : Result A) : NoCopy (await r : Promise Index.State A).
Proof. intros st. unfold await. by destruct r. Qed.

Lemma NoCopy_gets {A} (f : Index.State -> A) : NoCopy (gets f).
Proof. by intros st. Qed.

Lemma NoCopy_bind {A B} (m : Promise Index.State A)
    (k : A -> Promise Index.State B) :
  NoCopy m -> (forall a, NoCopy (k a)) -> NoCopy (m ≫= k).
Proof.
  intros Hm Hk st. unfold mbind, promise_bind, andThen.
  pose proof (Hm st) as Hc.
  destruct (m st) as [[a|e] st1]; simpl in *; [|done].
  by rewrite (Hk a st1).
Qed.

Lemma NoCopy_each {A} (f : A -> Promise Index.State unit) (items : list A) :
  (forall x, NoCopy (f x)) -> NoCopy (each f items).
Proof.
  intros Hf. induction items as [|x items IH]; [by intros st|].
  simpl. apply NoCopy_bind; [apply Hf|]. by intros [].
Qed.

Lemma NoCopy_writeFileToAssets (absFileSrc relFileDest : string)
    (forceWrite : bool) (lastGlobalUpdate : Z) :
  NoCopy (Index.writeFileToAssets w absFileSrc relFileDest forceWrite
            lastGlobalUpdate).
Proof.
  unfold Index.writeFileToAssets.
  apply NoCopy_bind; [apply NoCopy_gets|]. intros existing.
  destruct (bool_decide (is_Some existing) && negb forceWrite);
    [apply NoCopy_ret|].
  apply NoCopy_bind; [apply NoCopy_await|]. intros stat.
  destruct (Index.mtime stat >? lastGlobalUpdate);
    [by intros st|apply NoCopy_ret].
Qed.

Lemma NoCopy_writeDirectoryToAssets (absDirSrc relDirDest : string)
    (forceWrite : bool) (lastGlobalUpdate : Z) (ignoreList : option (list string)) :
  NoCopy (Index.writeDirectoryToAssets w absDirSrc relDirDest forceWrite
            lastGlobalUpdate ignoreList).
Proof.
  unfold Index.writeDirectoryToAssets.
  apply NoCopy_bind; [apply NoCopy_await|]. intros files.
  apply NoCopy_each. intros absFileSrc. cbv zeta.
  destruct (Index.shouldIgnore w _ ignoreList); [apply NoCopy_ret|].
  apply NoCopy_writeFileToAssets.
Qed.

Lemma processPattern_directory (ignoreList : option (list string))
    (pattern : Index.Pattern) :
  fromIsDirectory w pattern = true ->
  Index.processPattern w ignoreList pattern
  = Index.directoryBranch w ignoreList pattern.
Proof.
  unfold fromIsDirectory, Index.processPattern.
  destruct (Index.statOrNull w _) as [stat|]; [|done]. by intros ->.
Qed.

End DirectorySource.

(** A pattern whose [from] is an existing directory and whose [to] is
    absolute.  When [to] looks like a directory the whole pattern is one
    recursive copy of the source directory to [to]: the directory is not
    listed, the ignore list is not consulted, [force] and the clock are not
    read and the asset table is not touched.  When [to] does not look like
    a directory (it has an extension, or [toType] is [file]) nothing is
    copied to the file system at all: the files go to the asset table. *)
Theorem directory_source_with_absolute_destination
    (w : Index.World) (ignoreList : option (list string))
    (pattern : Index.Pattern) (st : Index.State) (absDest : string) :
  fromIsDirectory w pattern = true ->
  Index.absDestOf w (default "" (Index.to pattern)) = Some absDest ->
  let absSrc := resolve (Index.path w) [Index.context w; Index.from pattern] in
  let r := Index.processPattern w ignoreList pattern st in
  if Index.toLooksLikeDirectory w pattern then
    r = (match Index.copyAsync w absSrc absDest with
         | None => Ok tt
         | Some e => Rejected e
         end,
         Index.setCopies (Index.copies st ++ [(absSrc, absDest)])
           (Index.setContextDependencies
              (Index.contextDependencies st ++ [absSrc]) st))
  else Index.copies r.2 = Index.copies st.
Proof.
  intros Hdir Habs. cbv zeta. rewrite (processPattern_directory w _ _ Hdir).
  unfold Index.directoryBranch. rewrite Habs.
  destruct (Index.toLooksLikeDirectory w pattern).
  - unfold Index.fsCopy. promise_unfold.
    by destruct (Index.copyAsync w _ absDest).
  - promise_unfold. cbn [fst snd].
    by rewrite (NoCopy_writeDirectoryToAssets w).
Qed.

(** The directory [static] sent to [/var/www], with an ignore list that
    names one of its files. *)
Lemma directory_source_with_absolute_destination_witness :
  Index.processPattern Site.world (Some [".DS_Store"])
    (Site.pattern "static" (Some "/var/www") true) Site.emptyState
  = (Ok tt,
     Index.setCopies [("/site/static", "/var/www")]
       (Index.setContextDependencies ["/site/static"] Site.emptyState)).
Proof.
  exact (directory_source_with_absolute_destination Site.world
           (Some [".DS_Store"]) (Site.pattern "static" (Some "/var/www") true)
           Site.emptyState "/var/www" eq_refl eq_refl).
Defined.

(** ** A relative destination and a glob *)

Lemma each_ext_in {S A} (f g : A -> Promise S unit) (items : list A) (st : S) :
  (forall x st, x ∈ items -> f x st = g x st) ->
  each f items st = each g items st.
Proof.
  revert st. induction items as [|x items IH]; intros st Hfg; [done|].
  simpl. unfold mbind, promise_bind, andThen.
  rewrite (Hfg x st) by left.
  destruct (g x st) as [[[]|e] st']; [|done].
  apply IH. intros y st0 Hy. apply Hfg. by right.
Qed.

Lemma absDestOf_nothing (w : Index.World) : Index.absDestOf w "" = None.
Proof. unfold Index.absDestOf. by destruct (Js.eqb (Index.platform w) "win32"). Qed.

(** For a pattern whose [from] is not an existing path, and so is expanded
    as a glob, a [to] that is not absolute is dropped, and [toType] with
    it: every match is written under its own path relative to the context,
    as if the pattern had neither.  (The matches are relative paths, so the
    directory of none of them is the context itself.) *)
Theorem relative_destination_is_dropped_for_globs
    (w : Index.World) (ignoreList : option (list string))
    (pattern : Index.Pattern) (st : Index.State) :
  Index.statOrNull w
    (resolve (Index.path w) [Index.context w; Index.from pattern]) = None ->
  Index.absDestOf w (default "" (Index.to pattern)) = None ->
  Forall (fun m => Js.eqb (dirname (Index.path w) m) (Index.context w) = false)
         (keptMatches w ignoreList pattern) ->
  Index.processPattern w ignoreList pattern st
  = Index.processPattern w ignoreList (withoutTo pattern) st.
Proof.
  intros Hstat Habs Hdirs. unfold Index.processPattern.
  cbn [withoutTo Index.from]. rewrite Hstat.
  unfold Index.globBranch, keptMatches in *.
  cbn [withoutTo Index.from Index.to Index.force default].
  rewrite Habs, absDestOf_nothing.
  unfold mbind at 1 4, promise_bind, andThen, await.
  destruct (Index.globAsync w (Index.from pattern) (Index.context w))
    as [matches|e]; [|done].
  apply each_ext_in. intros m st0 Hm.
  destruct (Index.shouldIgnore w m ignoreList) eqn:Hign; [done|].
  assert (Hkept : m ∈ kept w ignoreList matches)
    by (apply list_elem_of_filter; by split).
  pose proof (proj1 (Forall_forall _ _) Hdirs m Hkept) as Hdir.
  unfold Index.relFileDestOf. cbn [withoutTo Index.to default].
  rewrite Hdir. by rewrite bool_decide_eq_true_2.
Qed.

(** The pattern [assets/*.txt] with [to: 'out/']: its match ends at
    [assets/a.txt], as without the [to]. *)
Lemma relative_destination_is_dropped_for_globs_witness :
  Index.processPattern Site.world None
    (Site.pattern "assets/*.txt" (Some "out/") false) Site.emptyState
  = Index.processPattern Site.world None
      (Site.pattern "assets/*.txt" None false) Site.emptyState.
Proof.
  apply (relative_destination_is_dropped_for_globs Site.world None
           (Site.pattern "assets/*.txt" (Some "out/") false) Site.emptyState).
  - reflexivity.
  - reflexivity.
  - repeat constructor.
Defined.

(** ** A directory tree in the asset table *)











Section AssetLoop.

Variable w : Index.World.
Variable skip : string -> bool.
Variable key : string -> string.
Variable forceWrite : bool.
Variable lastGlobalUpdate : Z.



End AssetLoop.



(** * Further properties of the per-file pipeline *)

Section Preservation.

Context {S B : Type}.
Variable proj : S -> B.

Lemma Preserves_ret {A} (a : A) : Preserves proj (mret a : Promise S A).
Proof. by intros st. Qed.

Lemma Preserves_await {A} (r : Result A) : Preserves proj (await r : Promise S A).
Proof. by intros st. Qed.

Lemma Preserves_gets {A} (f : S -> A) : Preserves proj (gets f).
Proof. by intros st. Qed.

Lemma Preserves_modify (f : S -> S) :
  (forall st, proj (f st) = proj st) -> Preserves proj (modify f).
Proof. intros Hf st. apply Hf. Qed.

Lemma Preserves_bind {A C} (m : Promise S A) (k : A -> Promise S C) :
  Preserves proj m -> (forall a, Preserves proj (k a)) ->
  Preserves proj (m ≫= k).
Proof.
  intros Hm Hk st. unfold mbind, promise_bind, andThen.
  pose proof (Hm st) as H1.
  destruct (m st) as [[a|e] st1]; simpl in *; [|done].
  by rewrite (Hk a st1).
Qed.

End Preservation.

Section PipelinePreserves.

Import PostProcess.

Context {B : Type}.
Variable w : World.
Variable proj : State -> B.
Hypothesis proj_logged : forall l st, proj (setLogged l st) = proj st.
Hypothesis proj_written : forall h st, proj (setWritten h st) = proj st.
Hypothesis proj_assets : forall a st, proj (setAssets a st) = proj st.
Hypothesis proj_calls : forall c st, proj (setTransformCalls c st) = proj st.

Lemma Preserves_logger (m : Message) : Preserves proj (logger m).
Proof. intros st. apply proj_logged. Qed.

Lemma Preserves_getStats (pattern : Pattern) (file : File) :
  Preserves proj (getStats w pattern file).
Proof. unfold getStats. by destruct (stats pattern); intros st. Qed.

Lemma Preserves_callTransform (t : bytes -> string -> Result bytes)
    (content : bytes) (absoluteFrom : string) :
  Preserves proj (callTransform t content absoluteFrom).
Proof.
  unfold callTransform. apply Preserves_bind; [|intros; apply Preserves_await].
  apply Preserves_modify. intros st. apply proj_calls.
Qed.

Lemma Preserves_interpolateTemplate (pattern : Pattern) (file : File)
    (content : bytes) :
  Preserves proj (interpolateTemplate w pattern file content).
Proof.
  unfold interpolateTemplate.
  destruct (bool_decide (toType pattern = Some "template"));
    [|apply Preserves_ret].
  apply Preserves_bind; [apply Preserves_logger|]. intros _.
  apply Preserves_bind; [apply Preserves_await|]. intros name.
  apply Preserves_ret.
Qed.

Lemma Preserves_transformFilePath (pattern : Pattern) (file : File) :
  Preserves proj (transformFilePath w pattern file).
Proof.
  unfold transformFilePath. destruct (transformPath pattern) as [f|];
    [|apply Preserves_ret].
  apply Preserves_bind; [apply Preserves_logger|]. intros _.
  apply Preserves_bind; [apply Preserves_await|]. intros newPath.
  apply Preserves_ret.
Qed.

Lemma Preserves_writeDecision (file : File) (stats : Stats) (content : bytes) :
  Preserves proj (writeDecision w file stats content).
Proof.
  unfold writeDecision. cbv zeta.
  apply Preserves_bind; [apply Preserves_gets|]. intros unchanged.
  destruct unchanged; [apply Preserves_logger|].
  apply Preserves_bind; [apply Preserves_logger|]. intros _.
  apply Preserves_bind; [apply Preserves_modify; intros st; apply proj_written|].
  intros _. apply Preserves_bind; [apply Preserves_gets|]. intros existing.
  destruct (bool_decide (is_Some existing) && negb (force file));
    [apply Preserves_logger|].
  apply Preserves_bind; [apply Preserves_logger|]. intros _.
  apply Preserves_modify. intros st. apply proj_assets.
Qed.

(** The pipeline from the read on, given that the transform stage and the
    write decision preserve [proj]. *)
Lemma Preserves_fromRead (pattern : Pattern) (file : File) (stats : Stats) :
  (forall content, Preserves proj (transformContent w pattern file content)) ->
  Preserves proj
    (logger (Reading (absoluteFrom file)) ;;
     content ← await (readFile w (absoluteFrom file));
     content ← transformContent w pattern file content;
     file ← interpolateTemplate w pattern file content;
     file ← transformFilePath w pattern file;
     mret (Some (stats, content, file))).
Proof.
  intros Htransform.
  apply Preserves_bind; [apply Preserves_logger|]. intros _.
  apply Preserves_bind; [apply Preserves_await|]. intros content.
  apply Preserves_bind; [apply Htransform|]. intros content'.
  apply Preserves_bind; [apply Preserves_interpolateTemplate|]. intros file'.
  apply Preserves_bind; [apply Preserves_transformFilePath|]. intros file''.
  apply Preserves_ret.
Qed.

Lemma Preserves_afterPipeline (r : option (Stats * bytes * File)) :
  Preserves proj
    (match r with
     | Some (stats, content, file) => writeDecision w file stats content
     | None => mret tt
     end).
Proof.
  destruct r as [[[stats content] file]|];
    [apply Preserves_writeDecision|apply Preserves_ret].
Qed.

End PipelinePreserves.

Section PipelineFacts.

Import PostProcess.

Variable w : World.

Lemma getStats_eq (pattern : Pattern) (file : File) (st : State) :
  getStats w pattern file st
  = (match stats pattern with
     | Some s => Ok s
     | None => stat w (absoluteFrom file)
     end, st).
Proof. unfold getStats. by destruct (stats pattern). Qed.

Lemma Preserves_transformContent_watched (pattern : Pattern) (file : File)
    (content : bytes) :
  Preserves fileDependencies (transformContent w pattern file content).
Proof.
  unfold transformContent. destruct (transform pattern) as [t|];
    [|apply Preserves_ret].
  apply Preserves_bind; [by apply Preserves_logger|]. intros _.
  destruct (cache pattern) as [key|]; [|by apply Preserves_callTransform].
  apply Preserves_bind.
  { apply Preserves_modify. intros st.
    by destruct (ensureCacheDir_frame w st) as (_ & _ & _ & _ & Hfd & _). }
  intros _. cbv zeta.
  apply Preserves_bind; [apply Preserves_gets|]. intros dir.
  apply Preserves_bind; [apply Preserves_gets|]. intros [data|].
  - apply Preserves_bind; [by apply Preserves_logger|]. intros _.
    apply Preserves_ret.
  - apply Preserves_bind; [by apply Preserves_callTransform|]. intros x.
    apply Preserves_bind; [by apply Preserves_logger|]. intros _.
    apply Preserves_bind; [by apply Preserves_modify|]. intros _.
    apply Preserves_ret.
Qed.

Lemma Preserves_transformContent_cache (pattern : Pattern) (file : File)
    (content : bytes) :
  transform pattern = None \/ cache pattern = None ->
  Preserves cacheOf (transformContent w pattern file content).
Proof.
  intros Hno. unfold transformContent.
  destruct (transform pattern) as [t|]; [|apply Preserves_ret].
  destruct Hno as [?| ->]; [done|].
  apply Preserves_bind; [by apply Preserves_logger|]. intros _.
  by apply Preserves_callTransform.
Qed.

(** The pipeline, stage by stage, as a function of the stat result. *)
Lemma contentPipeline_eq (pattern : Pattern) (file : File) (st : State) :
  contentPipeline w pattern file st
  = let st1 := setLogged (logged st ++ [GettingStats (absoluteFrom file)]) st in
    match (getStats w pattern file st).1 with
    | Ok stats =>
        if isDirectory stats then
          (Ok None,
           setLogged (logged st1 ++ [SkippingEmptyDirectory (absoluteFrom file)])
             st1)
        else
          (logger (Reading (absoluteFrom file)) ;;
           content ← await (readFile w (absoluteFrom file));
           content ← transformContent w pattern file content;
           file ← interpolateTemplate w pattern file content;
           file ← transformFilePath w pattern file;
           mret (Some (stats, content, file)))
            (if Js.eqb (fromType pattern) "glob"
             then setFileDependencies
                    ({[absoluteFrom file]} ∪ fileDependencies st1) st1
             else st1)
    | Rejected e => (Rejected e, st1)
    end.
Proof.
  cbv zeta. unfold contentPipeline.
  unfold mbind at 1 2, promise_bind, andThen, logger at 1, modify at 1.
  rewrite !getStats_eq. cbn [fst snd].
  destruct (match stats pattern with Some s => Ok s | None => _ end)
    as [stats|e]; [|done].
  destruct (isDirectory stats); [done|].
  unfold mbind at 1, promise_bind, andThen.
  by destruct (Js.eqb (fromType pattern) "glob").
Qed.

End PipelineFacts.

(** ** The watch list *)

(** What [postProcessPattern] adds to [fileDependencies]: the source path
    of the file, when the pattern came from a glob and the stats are those
    of a file and not of a directory; nothing in every other case.  The
    path is added before the file is read, so it is watched also when the
    read, the transform or a path callback fails, and whether or not the
    asset is written. *)
Theorem glob_files_are_watched
    (w : PostProcess.World) (pattern : PostProcess.Pattern)
    (file : PostProcess.File) (st : PostProcess.State) :
  PostProcess.fileDependencies (PostProcess.postProcessPattern w pattern file st).2
  = match (PostProcess.getStats w pattern file st).1 with
    | Ok stats =>
        if negb (PostProcess.isDirectory stats) &&
           Js.eqb (PostProcess.fromType pattern) "glob"
        then {[PostProcess.absoluteFrom file]} ∪ PostProcess.fileDependencies st
        else PostProcess.fileDependencies st
    | Rejected _ => PostProcess.fileDependencies st
    end.
Proof.
  unfold PostProcess.postProcessPattern.
  unfold mbind at 1, promise_bind, andThen.
  rewrite contentPipeline_eq. cbv zeta.
  destruct (PostProcess.getStats w pattern file st).1 as [stats|e]; [|done].
  destruct (PostProcess.isDirectory stats); [done|]. cbn [negb andb].
  pose proof (Preserves_fromRead w PostProcess.fileDependencies
                (fun _ _ => eq_refl) pattern file stats
                (Preserves_transformContent_watched w pattern file)) as Hread.
  match goal with
  | |- context [?fromRead (if ?isGlob then ?st1 else ?st2)] =>
      match type of fromRead with
      | Promise _ _ =>
          specialize (Hread (if isGlob then st1 else st2));
          destruct (fromRead (if isGlob then st1 else st2)) as [[r|e] st3]
      end
  end; simpl in *.
  - rewrite (Preserves_afterPipeline w PostProcess.fileDependencies
               (fun _ _ => eq_refl) (fun _ _ => eq_refl) (fun _ _ => eq_refl)
               r st3).
    rewrite Hread. by destruct (Js.eqb _ "glob").
  - rewrite Hread. by destruct (Js.eqb _ "glob").
Qed.

(** ** The cache *)

Lemma Preserves_contentPipeline_cache (w : PostProcess.World)
    (pattern : PostProcess.Pattern) (file : PostProcess.File) :
  PostProcess.transform pattern = None \/ PostProcess.cache pattern = None ->
  Preserves cacheOf (PostProcess.contentPipeline w pattern file).
Proof.
  intros Hno. unfold PostProcess.contentPipeline.
  apply Preserves_bind; [by apply Preserves_logger|]. intros _.
  apply Preserves_bind; [apply Preserves_getStats|]. intros stats.
  destruct (PostProcess.isDirectory stats).
  - apply Preserves_bind; [by apply Preserves_logger|]. intros _.
    apply Preserves_ret.
  - apply Preserves_bind.
    { destruct (Js.eqb _ "glob"); [by apply Preserves_modify|apply Preserves_ret]. }
    intros _. apply Preserves_fromRead; [done|].
    intros content. by apply Preserves_transformContent_cache.
Qed.

(** The cache is used for the transform and for nothing else: a pattern
    without a transform, or without [cache], leaves [globalRef.cacheDir]
    and the cache store as they were, so that [cache] on a pattern that has
    no transform has no effect. *)
Theorem cache_is_only_for_transforms
    (w : PostProcess.World) (pattern : PostProcess.Pattern)
    (file : PostProcess.File) (st : PostProcess.State) :
  PostProcess.transform pattern = None \/ PostProcess.cache pattern = None ->
  PostProcess.cacheDir (PostProcess.postProcessPattern w pattern file st).2
  = PostProcess.cacheDir st /\
  PostProcess.cacache (PostProcess.postProcessPattern w pattern file st).2
  = PostProcess.cacache st.
Proof.
  intros Hno.
  assert (H : Preserves cacheOf (PostProcess.postProcessPattern w pattern file)).
  { unfold PostProcess.postProcessPattern.
    apply Preserves_bind; [by apply Preserves_contentPipeline_cache|].
    intros r. by apply Preserves_afterPipeline. }
  specialize (H st). unfold cacheOf in H. by injection H.
Qed.

(** The plain pattern over the notes file. *)
Lemma cache_is_only_for_transforms_witness :
  PostProcess.cacheDir
    (PostProcess.postProcessPattern Examples.notesWorld Notes.plain
       Examples.notes Examples.initial).2 = None /\
  PostProcess.cacache
    (PostProcess.postProcessPattern Examples.notesWorld Notes.plain
       Examples.notes Examples.initial).2 = ∅.
Proof.
  apply (cache_is_only_for_transforms Examples.notesWorld Notes.plain
           Examples.notes Examples.initial).
  by left.
Defined.

(** With an explicit [cache.key] the cached result does not depend on the
    content: once the transform stage has resolved to [x] for one file,
    it resolves to [x] for every other file and content of the pattern,
    from any state with the same cache directory and a store holding at
    least what the first run left, and the transform is not called. *)
Theorem explicit_cache_key_is_shared
    (w : PostProcess.World) (pattern : PostProcess.Pattern)
    (t : PostProcess.bytes -> string -> Result PostProcess.bytes)
    (key : string) (content1 content2 x : PostProcess.bytes)
    (file1 file2 : PostProcess.File) (st1 st2 : PostProcess.State) :
  PostProcess.transform pattern = Some t ->
  PostProcess.cache pattern = Some (Some key) ->
  Js.truthy key = true ->
  (PostProcess.transformContent w pattern file1 content1 st1).1 = Ok x ->
  dirOf w st2 = dirOf w st1 ->
  PostProcess.cacache (PostProcess.transformContent w pattern file1 content1 st1).2
    ⊆ PostProcess.cacache st2 ->
  let r2 := PostProcess.transformContent w pattern file2 content2 st2 in
  r2.1 = Ok x /\
  PostProcess.transformCalls r2.2 = PostProcess.transformCalls st2 /\
  PostProcess.cacache r2.2 = PostProcess.cacache st2.
Proof.
  intros Ht Hc Hkey Hr Hdir Hsub. cbv zeta.
  destruct (transformContent_spec w pattern file1 content1 st1)
    as (_ & _ & _ & _ & _ & Hcase1).
  destruct (transformContent_spec w pattern file2 content2 st2)
    as (_ & _ & _ & _ & _ & Hcase2).
  rewrite Ht, Hc in Hcase1, Hcase2. cbv zeta in Hcase1, Hcase2.
  unfold PostProcess.cacheKeyOf in Hcase1, Hcase2. rewrite Hkey in Hcase1, Hcase2.
  rewrite Hdir in Hcase2.
  assert (Hhit : PostProcess.cacache st2 !! (dirOf w st1, key) = Some x).
  { eapply lookup_weaken; [|exact Hsub].
    destruct (PostProcess.cacache st1 !! _) as [data|] eqn:Hget.
    - destruct Hcase1 as (H1 & H2 & _). rewrite H2, Hget. congruence.
    - destruct Hcase1 as (H1 & _ & H3). rewrite H3.
      rewrite <- H1, Hr. apply lookup_insert_eq. }
  rewrite Hhit in Hcase2. tauto.
Qed.

(** The doubling transform under the key [doubled]: after [abc], the
    content [xyz] of another file resolves to [abcabc] too. *)
Lemma explicit_cache_key_is_shared_witness :
  let r1 := PostProcess.transformContent Examples.notesWorld Notes.keyed
              Examples.notes (list_byte_of_string "abc") Examples.initial in
  let r2 := PostProcess.transformContent Examples.notesWorld Notes.keyed
              Notes.other (list_byte_of_string "xyz") r1.2 in
  r2.1 = Ok (list_byte_of_string "abcabc") /\
  PostProcess.transformCalls r2.2 = PostProcess.transformCalls r1.2 /\
  PostProcess.cacache r2.2 = PostProcess.cacache r1.2.
Proof.
  apply (explicit_cache_key_is_shared Examples.notesWorld Notes.keyed
           (fun content _ => Ok (content ++ content)) "doubled"
           (list_byte_of_string "abc") (list_byte_of_string "xyz")
           (list_byte_of_string "abcabc") Examples.notes Notes.other
           Examples.initial
           (PostProcess.transformContent Examples.notesWorld Notes.keyed
              Examples.notes (list_byte_of_string "abc") Examples.initial).2
           eq_refl eq_refl eq_refl eq_refl eq_refl).
  done.
Defined.

(** A transform that rejects leaves nothing in the cache: without a hit
    the transform is called once, the stage rejects with the transform's
    error and the store is as it was, so that the same stage run again
    from the state it left calls the transform again. *)
Theorem rejected_transform_is_not_cached
    (w : PostProcess.World) (pattern : PostProcess.Pattern)
    (t : PostProcess.bytes -> string -> Result PostProcess.bytes)
    (key : option string) (content : PostProcess.bytes) (e : Err)
    (file : PostProcess.File) (st : PostProcess.State) :
  PostProcess.transform pattern = Some t ->
  PostProcess.cache pattern = Some key ->
  PostProcess.cacache st
    !! (dirOf w st, PostProcess.cacheKeyOf w pattern key content) = None ->
  t content (PostProcess.absoluteFrom file) = Rejected e ->
  let r := PostProcess.transformContent w pattern file content st in
  let r' := PostProcess.transformContent w pattern file content r.2 in
  r.1 = Rejected e /\
  PostProcess.cacache r.2 = PostProcess.cacache st /\
  PostProcess.transformCalls r.2
  = PostProcess.transformCalls st ++ [(content, PostProcess.absoluteFrom file)] /\
  r'.1 = Rejected e /\
  PostProcess.transformCalls r'.2
  = PostProcess.transformCalls st
    ++ [(content, PostProcess.absoluteFrom file);
        (content, PostProcess.absoluteFrom file)].
Proof.
  intros Ht Hc Hmiss Hrej. cbv zeta.
  destruct (transformContent_spec w pattern file content st)
    as (_ & _ & Hdir & _ & _ & Hcase).
  rewrite Ht, Hc in Hcase. cbv zeta in Hcase. rewrite Hmiss, Hrej in Hcase.
  destruct Hcase as (Hr & Hcalls & Hstore).
  destruct (transformContent_spec w pattern file content
              (PostProcess.transformContent w pattern file content st).2)
    as (_ & _ & _ & _ & _ & Hcase').
  rewrite Ht, Hc in Hcase'. cbv zeta in Hcase'.
  rewrite Hdir, Hstore, Hmiss, Hrej in Hcase'.
  destruct Hcase' as (Hr' & Hcalls' & _).
  repeat split; try done. by rewrite Hcalls', Hcalls, <- app_assoc.
Qed.

(** The rejecting transform on the notes file. *)
Lemma rejected_transform_is_not_cached_witness :
  let r := PostProcess.transformContent Examples.notesWorld Notes.failing
             Examples.notes (list_byte_of_string "abc") Examples.initial in
  let r' := PostProcess.transformContent Examples.notesWorld Notes.failing
              Examples.notes (list_byte_of_string "abc") r.2 in
  r.1 = Rejected (Error "no transform") /\
  PostProcess.cacache r.2 = ∅ /\
  PostProcess.transformCalls r.2
  = [(list_byte_of_string "abc", "/proj/notes.txt")] /\
  r'.1 = Rejected (Error "no transform") /\
  PostProcess.transformCalls r'.2
  = [(list_byte_of_string "abc", "/proj/notes.txt");
     (list_byte_of_string "abc", "/proj/notes.txt")].
Proof.
  exact (rejected_transform_is_not_cached Examples.notesWorld Notes.failing
           (fun _ _ => Rejected (Error "no transform")) None
           (list_byte_of_string "abc") (Error "no transform")
           Examples.notes Examples.initial eq_refl eq_refl eq_refl eq_refl).
Defined.

(** ** The write history and the asset table *)

Lemma historyOf_track (to from hash to' from' : string)
    (st st' : PostProcess.State) :
  PostProcess.written st' = PostProcess.track to from hash (PostProcess.written st) ->
  historyOf st' to' from'
  = if bool_decide (to' = to /\ from' = from) then Some hash
    else historyOf st to' from'.
Proof.
  intros Hw. unfold historyOf. rewrite Hw. unfold PostProcess.track.
  destruct (decide (to' = to)) as [->|Hto].
  - rewrite lookup_insert_eq. simpl.
    destruct (decide (from' = from)) as [->|Hfrom].
    + rewrite lookup_insert_eq. by rewrite bool_decide_eq_true_2.
    + rewrite lookup_insert_ne by done.
      rewrite bool_decide_eq_false_2 by tauto.
      by destruct (PostProcess.written st !! to).
  - rewrite lookup_insert_ne by done. by rewrite bool_decide_eq_false_2 by tauto.
Qed.

Lemma writtenWith_historyOf (st : PostProcess.State) (to from hash : string) :
  PostProcess.writtenWith st to from hash = true ->
  historyOf st to from = Some hash.
Proof.
  intros (sources & Hto & Hfrom & _)%writtenWith_true.
  unfold historyOf. by rewrite Hto.
Qed.

(** Once the pipeline of a file has resolved, [postProcessPattern]
    resolves, and the write history holds the hash of the file's final
    content under its destination and source, whatever was decided about
    the asset: written, skipped as unchanged, or skipped because the
    destination was taken.  The entries of every other destination and
    source are the ones the history had. *)
Theorem history_records_every_resolved_file
    (w : PostProcess.World) (pattern : PostProcess.Pattern)
    (file file' : PostProcess.File) (stats : PostProcess.Stats)
    (content : PostProcess.bytes) (st : PostProcess.State) :
  (PostProcess.contentPipeline w pattern file st).1
  = Ok (Some (stats, content, file')) ->
  let r := PostProcess.postProcessPattern w pattern file st in
  r.1 = Ok tt /\
  forall to from,
    historyOf r.2 to from
    = if bool_decide (to = PostProcess.webpackTo file' /\
                      from = PostProcess.absoluteFrom file')
      then Some (PostProcess.getHashDigest w content)
      else historyOf st to from.
Proof.
  intros Hrun. cbv zeta. rewrite postProcessPattern_eq.
  destruct (Framed_contentPipeline w pattern file st) as (Hw & _).
  destruct (PostProcess.contentPipeline w pattern file st)
    as [[[[[stats0 content0] file0]|]|e] st1]; simpl in *; try done.
  injection Hrun as -> -> ->.
  destruct (writeDecision_spec w file' stats content st1)
    as (Hr & _ & _ & _ & Hw').
  cbv zeta in *. split; [done|]. intros to from.
  assert (Hsame : historyOf st1 to from = historyOf st to from)
    by (unfold historyOf; by rewrite Hw).
  destruct (negb (PostProcess.copyUnmodified w)
            && PostProcess.writtenWith st1 _ _ _) eqn:Hskip.
  - apply andb_true_iff in Hskip as [_ Hskip].
    apply writtenWith_historyOf in Hskip.
    replace (historyOf _ to from) with (historyOf st1 to from)
      by (unfold historyOf; by rewrite Hw').
    case_bool_decide as Hkey; [|done]. destruct Hkey as [-> ->]. done.
  - rewrite (historyOf_track _ _ _ to from st1 _ Hw'). by rewrite Hsame.
Qed.

(** The notes file sent to [out.txt] while that key is taken: the asset is
    not written and the history records the hash all the same. *)
Lemma history_records_every_resolved_file_witness :
  let r := PostProcess.postProcessPattern Examples.notesWorld Notes.plain
             Examples.notes Notes.occupied in
  r.1 = Ok tt /\
  historyOf r.2 "out.txt" "/proj/notes.txt" = Some "md5:abc" /\
  PostProcess.assets r.2 = PostProcess.assets Notes.occupied.
Proof.
  destruct (history_records_every_resolved_file Examples.notesWorld Notes.plain
              Examples.notes Examples.notes
              {| PostProcess.isDirectory := false; PostProcess.size := 3 |}
              (list_byte_of_string "abc") Notes.occupied eq_refl)
    as [Hok Hhistory].
  split; [exact Hok|]. split; [apply Hhistory|]. reflexivity.
Defined.

(** The write decision never fails, so [postProcessPattern] is rejected
    exactly when the stat, the read, the transform, the interpolation or
    the path transform is; and a rejected file leaves the asset table and
    the write history as they were. *)
Theorem rejected_file_changes_no_table
    (w : PostProcess.World) (pattern : PostProcess.Pattern)
    (file : PostProcess.File) (st : PostProcess.State) (e : Err) :
  (PostProcess.postProcessPattern w pattern file st).1 = Rejected e ->
  (PostProcess.contentPipeline w pattern file st).1 = Rejected e /\
  PostProcess.assets (PostProcess.postProcessPattern w pattern file st).2
  = PostProcess.assets st /\
  PostProcess.written (PostProcess.postProcessPattern w pattern file st).2
  = PostProcess.written st.
Proof.
  rewrite postProcessPattern_eq.
  destruct (Framed_contentPipeline w pattern file st) as (Hw & Ha & _).
  destruct (PostProcess.contentPipeline w pattern file st)
    as [[[[[stats content] file']|]|e'] st1]; simpl in *.
  - destruct (writeDecision_spec w file' stats content st1) as (Hr & _).
    cbv zeta in Hr. by rewrite Hr.
  - done.
  - by intros [= ->].
Qed.

(** The rejecting transform over the notes file. *)
Lemma rejected_file_changes_no_table_witness :
  (PostProcess.contentPipeline Examples.notesWorld Notes.failing
     Examples.notes Notes.occupied).1 = Rejected (Error "no transform") /\
  PostProcess.assets
    (PostProcess.postProcessPattern Examples.notesWorld Notes.failing
       Examples.notes Notes.occupied).2 = PostProcess.assets Notes.occupied /\
  PostProcess.written
    (PostProcess.postProcessPattern Examples.notesWorld Notes.failing
       Examples.notes Notes.occupied).2 = PostProcess.written Notes.occupied.
Proof.
  exact (rejected_file_changes_no_table Examples.notesWorld Notes.failing
           Examples.notes Notes.occupied (Error "no transform") eq_refl).
Defined.

(** A directory is skipped whole: when the stats (the ones on the pattern,
    or else the ones of the stat call) are those of a directory,
    [postProcessPattern] resolves after its two log messages and has done
    nothing else; the path is not read, not watched, not tracked and not
    written. *)
Theorem directories_are_skipped
    (w : PostProcess.World) (pattern : PostProcess.Pattern)
    (file : PostProcess.File) (st : PostProcess.State)
    (stats : PostProcess.Stats) :
  (PostProcess.getStats w pattern file st).1 = Ok stats ->
  PostProcess.isDirectory stats = true ->
  PostProcess.postProcessPattern w pattern file st
  = (Ok tt,
     PostProcess.setLogged
       (PostProcess.logged st
        ++ [PostProcess.GettingStats (PostProcess.absoluteFrom file);
            PostProcess.SkippingEmptyDirectory (PostProcess.absoluteFrom file)])
       st).
Proof.
  intros Hstats Hdir. rewrite postProcessPattern_eq, contentPipeline_eq.
  cbv zeta. rewrite Hstats, Hdir. cbn. by rewrite <- app_assoc.
Qed.

(** A pattern that carries the stats of a directory. *)
Lemma directories_are_skipped_witness :
  PostProcess.postProcessPattern Examples.notesWorld Notes.ofDirectory
    Examples.notes Examples.initial
  = (Ok tt,
     PostProcess.setLogged
       [PostProcess.GettingStats "/proj/notes.txt";
        PostProcess.SkippingEmptyDirectory "/proj/notes.txt"] Examples.initial).
Proof.
  exact (directories_are_skipped Examples.notesWorld Notes.ofDirectory
           Examples.notes Examples.initial
           {| PostProcess.isDirectory := true; PostProcess.size := 4096 |}
           eq_refl eq_refl).
Defined.

(** Without a transform the content is the file as it was read: every
    entry that [postProcessPattern] puts into the asset table for such a
    pattern has as its source the bytes [readFile] returned for the file,
    and [pattern.transform] being absent, nothing is recorded as a call. *)
Theorem untransformed_asset_is_the_file
    (w : PostProcess.World) (pattern : PostProcess.Pattern)
    (file : PostProcess.File) (st : PostProcess.State) :
  PostProcess.transform pattern = None ->
  let st' := (PostProcess.postProcessPattern w pattern file st).2 in
  PostProcess.transformCalls st' = PostProcess.transformCalls st /\
  forall key asset,
    PostProcess.assets st' !! key = Some asset ->
    PostProcess.assets st !! key = Some asset \/
    PostProcess.readFile w (PostProcess.absoluteFrom file)
    = Ok (PostProcess.assetSource asset).
Proof.
  intros Hno. cbv zeta.
  assert (Hcalls : Preserves PostProcess.transformCalls
                     (PostProcess.postProcessPattern w pattern file)).
  { unfold PostProcess.postProcessPattern, PostProcess.contentPipeline.
    apply Preserves_bind; [|intros r; by apply Preserves_afterPipeline].
    apply Preserves_bind; [by apply Preserves_logger|]. intros _.
    apply Preserves_bind; [apply Preserves_getStats|]. intros stats.
    destruct (PostProcess.isDirectory stats).
    - apply Preserves_bind; [by apply Preserves_logger|]. intros _.
      apply Preserves_ret.
    - apply Preserves_bind.
      { destruct (Js.eqb _ "glob"); [by apply Preserves_modify|apply Preserves_ret]. }
      intros _. apply Preserves_fromRead; [done|].
      intros content. unfold PostProcess.transformContent. rewrite Hno.
      apply Preserves_ret. }
  split; [apply Hcalls|].
  intros key asset. rewrite postProcessPattern_eq.
  destruct (Framed_contentPipeline w pattern file st) as (_ & Ha & _).
  pose proof (contentPipeline_eq w pattern file st) as Heq. cbv zeta in Heq.
  destruct (PostProcess.contentPipeline w pattern file st)
    as [[[[[stats content] file']|]|e] st1] eqn:Hrun; simpl in *;
    try (rewrite Ha; by left).
  destruct (writeDecision_assets w file' stats content st1) as [Hsame|Hnew].
  { rewrite Hsame, Ha. by left. }
  rewrite Hnew, Ha.
  destruct (decide (PostProcess.normalizePath w (PostProcess.webpackTo file') = key))
    as [<-|Hne]; [|rewrite lookup_insert_ne by done; by left].
  rewrite lookup_insert_eq. intros [= <-]. right. simpl.
  destruct (PostProcess.getStats w pattern file st).1 as [stats0|e0]; [|done].
  destruct (PostProcess.isDirectory stats0); [done|].
  revert Heq. unfold PostProcess.transformContent. rewrite Hno.
  unfold PostProcess.logger. promise_unfold.
  destruct (PostProcess.readFile w (PostProcess.absoluteFrom file))
    as [content0|e0]; [|done]. cbn [fst snd].
  repeat match goal with
         | |- context [match ?m ?s with (_, _) => _ end] =>
             destruct (m s) as [[?|?] ?]
         end; congruence.
Qed.

(** The notes file, copied as it is. *)
Lemma untransformed_asset_is_the_file_witness :
  PostProcess.transformCalls
    (PostProcess.postProcessPattern Examples.notesWorld Notes.plain
       Examples.notes Examples.initial).2 = [] /\
  forall key asset,
    PostProcess.assets
      (PostProcess.postProcessPattern Examples.notesWorld Notes.plain
         Examples.notes Examples.initial).2 !! key = Some asset ->
    PostProcess.assets Examples.initial !! key = Some asset \/
    PostProcess.readFile Examples.notesWorld "/proj/notes.txt"
    = Ok (PostProcess.assetSource asset).
Proof.
  exact (untransformed_asset_is_the_file Examples.notesWorld Notes.plain
           Examples.notes Examples.initial eq_refl).
Defined.



(** ** An existing file as the source *)



(** ** The destination along the pipeline *)

(** The pipeline refines nothing of a file but its destination: the file
    it resolves to is the file it was given with, at most, another
    [webpackTo].  Without a template and without [transformPath] the
    destination stays too; with [transformPath] the destination is what
    the callback returned for the file's source path, normalised. *)
Theorem pipeline_only_refines_destination
    (w : PostProcess.World) (pattern : PostProcess.Pattern)
    (file file' : PostProcess.File) (stats : PostProcess.Stats)
    (content : PostProcess.bytes) (st : PostProcess.State) :
  (PostProcess.contentPipeline w pattern file st).1
  = Ok (Some (stats, content, file')) ->
  file' = PostProcess.setWebpackTo (PostProcess.webpackTo file') file /\
  (PostProcess.toType pattern <> Some "template" ->
   PostProcess.transformPath pattern = None -> file' = file) /\
  (forall f, PostProcess.transformPath pattern = Some f ->
     exists to1 newPath,
       f to1 (PostProcess.absoluteFrom file) = Ok newPath /\
       PostProcess.webpackTo file' = normalize (PostProcess.path w) newPath).
Proof.
  rewrite contentPipeline_eq. cbv zeta.
  destruct (PostProcess.getStats w pattern file st).1 as [stats0|e0]; [|done].
  destruct (PostProcess.isDirectory stats0); [done|].
  unfold PostProcess.logger. unfold mbind at 1 2 3, promise_bind, andThen.
  unfold modify at 1, await at 1. cbn [fst snd].
  destruct (PostProcess.readFile w (PostProcess.absoluteFrom file))
    as [content0|e0]; [|done].
  match goal with
  | |- context [PostProcess.transformContent w pattern file content0 ?s] =>
      destruct (PostProcess.transformContent w pattern file content0 s)
        as [[content1|e1] st2]; [|done]
  end.
  unfold mbind at 1, promise_bind, andThen.
  assert (Hinterp : forall st0 file1 st3,
            PostProcess.interpolateTemplate w pattern file content1 st0
            = (Ok file1, st3) ->
            file1 = PostProcess.setWebpackTo (PostProcess.webpackTo file1) file /\
            (PostProcess.toType pattern <> Some "template" -> file1 = file)).
  { intros st0 file1 st3. unfold PostProcess.interpolateTemplate.
    case_bool_decide as Htemplate.
    - unfold PostProcess.logger. promise_unfold. cbn [fst snd].
      destruct (PostProcess.interpolateName w _ _ _ _ _) as [name|e]; [|done].
      intros [= <- _]. split; [|done].
      by destruct (negb (Js.truthy _)), file.
    - intros [= <- _]. split; [by destruct file|done]. }
  destruct (PostProcess.interpolateTemplate w pattern file content1 st2)
    as [[file1|e1] st3] eqn:Hfile1; [|done].
  destruct (Hinterp _ _ _ Hfile1) as [Hsame Hkeep].
  unfold mbind at 1, promise_bind, andThen.
  unfold PostProcess.transformFilePath.
  destruct (PostProcess.transformPath pattern) as [f|].
  - unfold PostProcess.logger. promise_unfold. cbn [fst snd].
    destruct (f (PostProcess.webpackTo file1) (PostProcess.absoluteFrom file1))
      as [newPath|e] eqn:Hf; [|done].
    cbn [fst snd]. intros [= _ _ <-].
    split; [rewrite Hsame; by destruct file|]. split; [done|].
    intros f' [= <-]. exists (PostProcess.webpackTo file1), newPath.
    split; [|done]. rewrite <- Hf, Hsame. by destruct file.
  - cbn. intros [= _ _ <-]. split; [done|]. split; [|done].
    intros Hno _. by apply Hkeep.
Qed.

(** The notes file through a [transformPath] that answers
    [renamed//out.txt]. *)
Lemma pipeline_only_refines_destination_witness :
  exists to1 newPath,
    Ok ("renamed//" +:+ to1) = Ok newPath /\
    "renamed/out.txt" = Posix.normalize newPath.
Proof.
  destruct (pipeline_only_refines_destination Examples.notesWorld Notes.renaming
              Examples.notes
              (PostProcess.setWebpackTo "renamed/out.txt" Examples.notes)
              {| PostProcess.isDirectory := false; PostProcess.size := 3 |}
              (list_byte_of_string "abc") Examples.initial eq_refl)
    as (_ & _ & Hpath).
  exact (Hpath _ eq_refl).
Defined.
